(** * CertifyAI: the gap-mining engine and the code around it

    A shallow embedding of [mining.py] ([extract_features_for_mining],
    [discover_rules], [find_exceptions]) with the part of Python, pandas
    and mlxtend it runs on; of its caller in [app.py] and of
    [suggestions.py] and [llm.py], which turn the mined gaps into test
    suggestions; and of the line parsers of [parsers.py] with the
    queries they send.

    Layout:
    - [Py]      Python values: strings and their [repr], floats, cells,
                exceptions;
    - [pd]      pandas DataFrames as values, and their operations;
    - [Run]     the interpreter state (object store and console) and the
                state-and-exception monad the functions run in; [Loop]
                and [DF], the [for] loop and the DataFrame objects in it;
    - [mlxtend] the TransactionEncoder, [apriori] and [association_rules];
    - [mining]  the three functions of [mining.py];
    - [Spec]    the notions of the specification: feature table, rule
                set, violation, gap record, and the tables of its
                end-to-end examples;
    - [Pure]    the value each function computes, read off its code;
    - [Sem], [Aux]  what a run is, and the invariants of the proofs;
    - [Mined]   a rule against the table it was mined from: the item set
                behind it, the rows that match and the rows that violate;
    - [PyStr], [PyText]  [str.strip], [str.split] with a limit, tuple
                unpacking, [str.splitlines], [os.path.join];
    - [llm], [suggestions]  the prompt and the call of the model, the
                loop over the patterns; [Replies], what the loop makes
                of a reply;
    - [streamlit], [app]  a script run with its session state and the
                RerunException of [st.rerun()]; the handler of the
                mining button;
    - [re]      the regular expressions of [parsers.py] and a
                backtracking matcher for them;
    - [graph_db], [parsers]  the queries sent and the lines printed;
                [parse_regs], [parse_reqs], [_parse_commits];
                [Formats], the lines the extraction prompts ask for;
    - [Cases]   further tables, records, replies and commits;
    - [Hash]    the iteration order of a frozenset as a parameter of the
                interpreter process, [discover_rules] in such a process,
                and what two processes have in common; [TwoProcesses],
                a table and a rule set for them;
    - the facts about runs, frames, item sets and the miner;
    - the properties C1 to C7, C9 and C10, each followed later by its
      instance at a concrete input;
    - the properties X1 to X15 of the pipeline, the suggestions and the
      parsers, with the lemmas they rest on, and their instances;
    - the miner in two processes, and C8 with the two runs that
      contradict it as it is stated.

    Idealisations, each stated where it is made: a float64 is the
    rational it rounds (NaN and the infinities apart); a frozenset is
    the list of its items in iteration order, which is the order of the
    columns except in [Hash]; the language model is a function of the
    call's number and its prompt; the calls that only draw on the page
    are left out of the handler; a query sent to the graph returns; a
    character is a code point below 256. *)

From Stdlib Require Import String Ascii List QArith Lia Permutation Lqa Bool DecimalString Sorted.
From stdpp Require Import base list strings.
Import ListNotations.

Local Open Scope string_scope.
Local Open Scope list_scope.

(** ** Python values *)

Module Py.

(** A Python [str] is modelled by a Rocq string whose characters are the
    code points below 256. *)

Definition dquote : ascii := ascii_of_nat 34.
Definition squote : ascii := "'"%char.
Definition backslash : ascii := "\"%char.

Fixpoint mem_char (c : ascii) (s : string) : bool :=
  match s with
  | EmptyString => false
  | String d s' => Ascii.eqb c d || mem_char c s'
  end.

Definition hex_digit (n : nat) : ascii :=
  nth n (list_ascii_of_string "0123456789abcdef") "0"%char.

(** [str.isprintable] on the code points below 256. *)
Definition is_printable (c : ascii) : bool :=
  let n := nat_of_ascii c in
  (Nat.leb 32 n && Nat.ltb n 127) || (Nat.leb 161 n && negb (Nat.eqb n 173)).

(** One character of [repr(s)], for the quote character [q] chosen for [s]. *)
Definition repr_char (q c : ascii) : string :=
  if Ascii.eqb c q || Ascii.eqb c backslash then String backslash (String c "")
  else if Ascii.eqb c (ascii_of_nat 9) then "\t"
  else if Ascii.eqb c (ascii_of_nat 10) then "\n"
  else if Ascii.eqb c (ascii_of_nat 13) then "\r"
  else if is_printable c then String c ""
  else String backslash (String "x"
         (String (hex_digit (nat_of_ascii c / 16))
            (String (hex_digit (nat_of_ascii c mod 16)) ""))).

Fixpoint repr_body (q : ascii) (s : string) : string :=
  match s with
  | EmptyString => ""
  | String c s' => repr_char q c ++ repr_body q s'
  end.

(** [repr(s)]: single quotes, unless [s] holds a single quote and no
    double quote. *)
Definition repr_quote (s : string) : ascii :=
  if mem_char squote s && negb (mem_char dquote s) then dquote else squote.

Definition repr (s : string) : string :=
  let q := repr_quote s in
  String q (repr_body q s ++ String q "").

(** [", ".join(repr(x) for x in l)] *)
Fixpoint join_repr (l : list string) : string :=
  match l with
  | [] => ""
  | [x] => repr x
  | x :: l' => repr x ++ ", " ++ join_repr l'
  end.

(** [str(l)] for a list of strings. *)
Definition str_list (l : list string) : string :=
  "[" ++ join_repr l ++ "]".

(** [str(s)] for a frozenset of strings, [l] being its items in iteration
    order. *)
Definition str_frozenset (l : list string) : string :=
  match l with
  | [] => "frozenset()"
  | _ => "frozenset({" ++ join_repr l ++ "})"
  end.

(** [list(s)] for a string: its characters. *)
Fixpoint chars (s : string) : list string :=
  match s with
  | EmptyString => []
  | String c s' => String c "" :: chars s'
  end.

(** float64 values are modelled by the rationals they round, kept in
    lowest terms; NaN and the infinities are values of their own. *)
Inductive float : Type :=
  | NaN
  | PInf
  | NInf
  | Fin (q : Q).

(** [x / y]. The quotient is the exact one, where float64 division
    rounds: in Python 0.6 / 0.8 is 0.7499999999999999. *)
Definition fdiv (x y : float) : float :=
  match x, y with
  | NaN, _ | _, NaN => NaN
  | Fin a, Fin b =>
      if Qeq_bool b 0 then
        if Qeq_bool a 0 then NaN else if Qle_bool 0 a then PInf else NInf
      else Fin (Qred (a / b))
  | Fin _, _ => Fin 0
  | PInf, Fin b => if Qle_bool 0 b then PInf else NInf
  | NInf, Fin b => if Qle_bool 0 b then NInf else PInf
  | _, _ => NaN
  end.

(** [x >= y] *)
Definition fge (x y : float) : bool :=
  match x, y with
  | NaN, _ | _, NaN => false
  | PInf, _ => true
  | _, NInf => true
  | NInf, _ => false
  | _, PInf => false
  | Fin a, Fin b => Qle_bool b a
  end.

Definition feq (x y : float) : bool :=
  match x, y with
  | PInf, PInf | NInf, NInf => true
  | Fin a, Fin b => Qeq_bool a b
  | _, _ => false
  end.

Definition of_nat (n : nat) : float := Fin (inject_Z (Z.of_nat n)).

(** The values a DataFrame cell holds in this program: numpy booleans,
    strings (the identifiers, the rendered consequents), floats (the
    metrics) and frozensets of strings (the item sets, listed in
    iteration order). *)
Inductive cell : Type :=
  | CBool (b : bool)
  | CStr (s : string)
  | CFloat (x : float)
  | CSet (items : list string).

Definition subset (a b : list string) : bool :=
  forallb (fun x => existsb (String.eqb x) b) a.

(** Equality of frozensets: the same items, in any order. *)
Definition set_eqb (a b : list string) : bool := subset a b && subset b a.

Definition float_of_bool (b : bool) : float := if b then Fin 1 else Fin 0.

(** [x == y] on cells. *)
Definition py_eq (x y : cell) : bool :=
  match x, y with
  | CBool a, CBool b => Bool.eqb a b
  | CBool a, CFloat f | CFloat f, CBool a => feq f (float_of_bool a)
  | CFloat f, CFloat g => feq f g
  | CStr s, CStr t => String.eqb s t
  | CSet a, CSet b => set_eqb a b
  | _, _ => false
  end.

(** The exceptions of the run. A KeyError holds its argument: the key
    that is missing, or the message pandas gives it. [Unsupported] marks
    the library paths this development leaves out (the text of a float,
    item sets that are not frozensets of strings, a selection of labels
    that are no columns): no theorem below is about a run that reaches
    one. *)
Inductive exn : Type :=
  | KeyError (key : string)
  | ValueError (msg : string)
  | TypeError (msg : string)
  | NameError
  | Unsupported (what : string).

Inductive result (A : Type) : Type :=
  | Ok (a : A)
  | Raise (e : exn).
Arguments Ok {A} a.
Arguments Raise {A} e.

Definition rbind {A B} (r : result A) (k : A -> result B) : result B :=
  match r with
  | Ok a => k a
  | Raise e => Raise e
  end.

Fixpoint rmap {A B} (f : A -> result B) (l : list A) : result (list B) :=
  match l with
  | [] => Ok []
  | x :: l' =>
      rbind (f x) (fun y => rbind (rmap f l') (fun ys => Ok (y :: ys)))
  end.

Definition of_option {A} (o : option A) (e : exn) : result A :=
  match o with
  | Some a => Ok a
  | None => Raise e
  end.

(** [str(x)] of a cell, as [Series.astype(str)] applies it. *)
Definition str (x : cell) : result string :=
  match x with
  | CBool b => Ok (if b then "True" else "False")
  | CStr s => Ok s
  | CSet l => Ok (str_frozenset l)
  | CFloat _ => Raise (Unsupported "str(float)")
  end.

(** [list(x)] of a cell. *)
Definition list_of (x : cell) : result (list string) :=
  match x with
  | CSet l => Ok l
  | CStr s => Ok (chars s)
  | CBool _ => Raise (TypeError "'numpy.bool' object is not iterable")
  | CFloat _ => Raise (TypeError "'float' object is not iterable")
  end.

End Py.

Declare Scope result_scope.
Delimit Scope result_scope with res.
Notation "x <- c ;; k" := (Py.rbind c (fun x => k))
  (at level 100, c at next level, right associativity) : result_scope.

(** ** pandas *)

Module pd.
Import Py.
Local Open Scope result_scope.

(** A DataFrame: its column labels, and its rows in order, each with its
    index label and its cells by column position. *)
Record DataFrame : Type := mkDataFrame {
  columns : list string;
  rows : list (nat * list cell)
}.

(** A row as [iterrows] yields it: the cells under the column labels. *)
Definition Series : Type := list (string * cell).

(** [pd.DataFrame()] *)
Definition new : DataFrame := mkDataFrame [] [].

(** [pd.DataFrame(data, columns=cols)]: the rows are labelled 0, 1, ... *)
Definition of_rows (cols : list string) (data : list (list cell)) : DataFrame :=
  mkDataFrame cols (combine (seq 0 (length data)) data).

(** [df.empty]: some axis has length 0. *)
Definition empty (df : DataFrame) : bool :=
  Nat.eqb (length (columns df)) 0 || Nat.eqb (length (rows df)) 0.

(** [c in df.columns] *)
Definition has_column (df : DataFrame) (c : string) : bool :=
  existsb (String.eqb c) (columns df).

Fixpoint position (c : string) (cols : list string) : option nat :=
  match cols with
  | [] => None
  | d :: cols' => if String.eqb c d then Some 0 else option_map S (position c cols')
  end.

Definition cell_at (cols : list string) (cells : list cell) (c : string) : option cell :=
  match position c cols with
  | Some i => nth_error cells i
  | None => None
  end.

(** [df[c]]: the values of column [c], by row position. *)
Definition getitem (df : DataFrame) (c : string) : result (list cell) :=
  if has_column df c then
    rmap (fun r => of_option (cell_at (columns df) (snd r) c) (KeyError c)) (rows df)
  else Raise (KeyError c).

(** [s == v] on a column: the boolean mask. *)
Definition series_eq (s : list cell) (v : cell) : list bool :=
  map (fun x => py_eq x v) s.

Fixpoint select {A} (l : list A) (mask : list bool) : list A :=
  match l, mask with
  | x :: l', b :: mask' => if b then x :: select l' mask' else select l' mask'
  | _, _ => []
  end.

(** [df[mask]]: the rows where the mask holds, with their index labels. *)
Definition getitem_mask (df : DataFrame) (mask : list bool) : DataFrame :=
  mkDataFrame (columns df) (select (rows df) mask).

Fixpoint set_nth {A} (i : nat) (x : A) (l : list A) : list A :=
  match l, i with
  | [], _ => [x]
  | _ :: l', 0 => x :: l'
  | y :: l', S i' => y :: set_nth i' x l'
  end.

Fixpoint set_column (i : nat) (rs : list (nat * list cell)) (vals : list cell)
  : list (nat * list cell) :=
  match rs, vals with
  | (k, cells) :: rs', v :: vals' => (k, set_nth i v cells) :: set_column i rs' vals'
  | _, _ => []
  end.

(** [df[c] = vals]: column [c] is replaced, or added as the last one. *)
Definition setitem (df : DataFrame) (c : string) (vals : list cell) : result DataFrame :=
  if negb (Nat.eqb (length vals) (length (rows df))) then
    Raise (ValueError "Length of values does not match length of index")
  else
    match position c (columns df) with
    | Some i => Ok (mkDataFrame (columns df) (set_column i (rows df) vals))
    | None =>
        Ok (mkDataFrame (columns df ++ [c])
              (set_column (length (columns df)) (rows df) vals))
    end.

Definition keep (labels : list string) (c : string) : bool :=
  negb (existsb (String.eqb c) labels).

(** [df.drop(columns=labels)]. When some labels are no columns, pandas
    raises KeyError with the message that lists them, as in
    ['id'] not found in axis. *)
Definition drop (df : DataFrame) (labels : list string) : result DataFrame :=
  match List.filter (fun c => negb (has_column df c)) labels with
  | [] =>
      Ok (mkDataFrame (List.filter (keep labels) (columns df))
            (map (fun r =>
                    (fst r, select (snd r) (map (keep labels) (columns df))))
               (rows df)))
  | missing => Raise (KeyError (str_list missing ++ " not found in axis"))
  end.

(** [df.iterrows()] *)
Definition iterrows (df : DataFrame) : list (nat * Series) :=
  map (fun r => (fst r, combine (columns df) (snd r))) (rows df).

Fixpoint assoc (k : string) (s : Series) : option cell :=
  match s with
  | [] => None
  | (c, v) :: s' => if String.eqb k c then Some v else assoc k s'
  end.

(** [row[k]] *)
Definition series_getitem (s : Series) (k : string) : result cell :=
  of_option (assoc k s) (KeyError k).

(** [s.astype(str)] *)
Definition astype_str (s : list cell) : result (list cell) :=
  rmap (fun x => v <- str x;; Ok (CStr v)) s.

End pd.

(** ** The running program: object store, console, exceptions *)

Module Run.
Import Py.

(** DataFrames are objects: a variable holds a reference into the store.
    Python lists and dicts that never leave the function that builds them
    are passed as values. *)
Definition loc : Type := nat.

Record state : Type := mkState {
  heap : list pd.DataFrame;
  console : list string
}.

Definition M (A : Type) : Type := state -> result A * state.

Definition ret {A} (a : A) : M A := fun st => (Ok a, st).

Definition bind {A B} (c : M A) (k : A -> M B) : M B :=
  fun st =>
    match c st with
    | (Ok a, st') => k a st'
    | (Raise e, st') => (Raise e, st')
    end.

Definition lift {A} (r : result A) : M A := fun st => (r, st).

Definition print (s : string) : M unit :=
  fun st => (Ok tt, mkState (heap st) (console st ++ [s])).

Definition alloc (v : pd.DataFrame) : M loc :=
  fun st => (Ok (length (heap st)), mkState (heap st ++ [v]) (console st)).

Definition load (l : loc) : M pd.DataFrame :=
  fun st =>
    match heap st !! l with
    | Some v => (Ok v, st)
    | None => (Raise NameError, st)
    end.

Definition store (l : loc) (v : pd.DataFrame) : M unit :=
  fun st => (Ok tt, mkState (<[l := v]> (heap st)) (console st)).

End Run.

Declare Scope run_scope.
Delimit Scope run_scope with run.
Notation "x <- c ;; k" := (Run.bind c (fun x => k))
  (at level 100, c at next level, right associativity) : run_scope.
Notation "c ;;; k" := (Run.bind c (fun _ => k))
  (at level 100, right associativity) : run_scope.

Module Loop.
Import Run.
Local Open Scope run_scope.

(** [for x in l: body], with the variables the body assigns as [s]. *)
Fixpoint for_each {A S} (l : list A) (s : S) (body : S -> A -> M S) : M S :=
  match l with
  | [] => ret s
  | x :: l' => s' <- body s x;; for_each l' s' body
  end.

End Loop.

(** The DataFrame operations on objects of the store. Every operation
    that pandas answers with a new frame allocates it; [setitem] alone
    writes to the frame it is applied to. *)
Module DF.
Import Py Run.
Local Open Scope run_scope.

Definition new : M loc := alloc pd.new.

Definition empty (df : loc) : M bool :=
  v <- load df;; ret (pd.empty v).

Definition len (df : loc) : M nat :=
  v <- load df;; ret (length (pd.rows v)).

Definition has_column (df : loc) (c : string) : M bool :=
  v <- load df;; ret (pd.has_column v c).

Definition getitem (df : loc) (c : string) : M (list cell) :=
  v <- load df;; lift (pd.getitem v c).

Definition getitem_mask (df : loc) (mask : list bool) : M loc :=
  v <- load df;; alloc (pd.getitem_mask v mask).

Definition setitem (df : loc) (c : string) (vals : list cell) : M unit :=
  v <- load df;; v' <- lift (pd.setitem v c vals);; store df v'.

Definition drop (df : loc) (labels : list string) : M loc :=
  v <- load df;; v' <- lift (pd.drop v labels);; alloc v'.

Definition iterrows (df : loc) : M (list (nat * pd.Series)) :=
  v <- load df;; ret (pd.iterrows v).

End DF.

(** ** mlxtend *)

Module mlxtend.
Import Py Run.

(** [sorted(set(items))] *)
Fixpoint insert_sorted (x : string) (l : list string) : list string :=
  match l with
  | [] => [x]
  | y :: l' =>
      match String.compare x y with
      | Lt => x :: l
      | Eq => l
      | Gt => y :: insert_sorted x l'
      end
  end.

Definition sorted_set (items : list string) : list string :=
  fold_right insert_sorted [] items.

(** [TransactionEncoder().fit(X)]: the columns are the items seen, sorted. *)
Definition fit (X : list (list string)) : list string :=
  sorted_set (concat X).

(** [te.transform(X)]: the one-hot boolean array. *)
Definition transform (cols : list string) (X : list (list string)) : list (list cell) :=
  map (fun t => map (fun c => CBool (existsb (String.eqb c) t)) cols) X.

(** [itertools.combinations(l, r)] *)
Fixpoint combinations {A} (r : nat) (l : list A) : list (list A) :=
  match r, l with
  | 0, _ => [[]]
  | S _, [] => []
  | S r', x :: l' => map (cons x) (combinations r' l') ++ combinations r l'
  end.

(** The values [apriori] accepts: True, False, 1 and 0. *)
Definition as_bool (c : cell) : option bool :=
  match c with
  | CBool b => Some b
  | CFloat f =>
      if feq f (Fin 1) then Some true
      else if feq f (Fin 0) then Some false else None
  | _ => None
  end.

Definition values (df : pd.DataFrame) : result (list (list bool)) :=
  rmap (fun r =>
          rmap (fun c =>
                  of_option (as_bool c)
                    (ValueError "The allowed values for a DataFrame are True, False, 0, 1."))
            (snd r))
    (pd.rows df).

(** Column [c] is true on the row. *)
Definition has_item (cols : list string) (row : list bool) (c : string) : bool :=
  match pd.position c cols with
  | Some j => nth j row false
  | None => false
  end.

(** The rows in which every column of the item set is true. *)
Definition count (cols : list string) (X : list (list bool)) (itemset : list string) : nat :=
  length (List.filter (fun row => forallb (has_item cols row) itemset) X).

(** The fraction of rows that hold the item set; NaN on no rows. *)
Definition support (cols : list string) (X : list (list bool)) (itemset : list string)
  : float :=
  fdiv (of_nat (count cols X itemset)) (of_nat (length X)).

Definition frequent (cols : list string) (X : list (list bool)) (min_support : float)
  : list (float * list string) :=
  flat_map
    (fun k =>
       List.filter (fun p => fge (fst p) min_support)
         (map (fun c => (support cols X c, c)) (combinations k cols)))
    (seq 1 (length cols)).

Definition itemset_cells (p : float * list string) : list cell :=
  [CFloat (fst p); CSet (snd p)].

(** Modelled from the spec: mlxtend's [apriori] is imported by
    [mining.py], not defined in the repository. With [use_colnames=True]
    it answers a frame with the columns [support] and [itemsets], holding
    every non-empty set of columns whose support (the fraction of rows
    where every column of the set is true) is at least [min_support],
    smaller sets first; an empty table has no such set. *)
Definition apriori_frame (df : pd.DataFrame) (min_support : float)
  : result pd.DataFrame :=
  (if fge (Fin 0) min_support then
     Raise (ValueError "`min_support` must be a positive number within the interval `(0, 1]`.")
   else
     X <- values df;;
     Ok (pd.of_rows ["support"; "itemsets"]
           (map itemset_cells (frequent (pd.columns df) X min_support))))%res.

Definition apriori (df : loc) (min_support : float) : M loc :=
  (v <- load df;; r <- lift (apriori_frame v min_support);; alloc r)%run.

(** The dict from frequent item set to support: keys are frozensets. *)
Definition dict : Type := list (list string * float).

Fixpoint dict_set (d : dict) (k : list string) (v : float) : dict :=
  match d with
  | [] => [(k, v)]
  | (k', v') :: d' =>
      if set_eqb k k' then (k', v) :: d' else (k', v') :: dict_set d' k v
  end.

Fixpoint dict_get (d : dict) (k : list string) : result float :=
  match d with
  | [] => Raise (KeyError (str_frozenset k))
  | (k', v) :: d' => if set_eqb k k' then Ok v else dict_get d' k
  end.

Definition as_float (c : cell) : result float :=
  match c with
  | CFloat f => Ok f
  | _ => Raise (Unsupported "support that is not a float")
  end.

Definition as_set (c : cell) : result (list string) :=
  match c with
  | CSet l => Ok l
  | _ => Raise (Unsupported "item set that is not a frozenset")
  end.

(** [k.difference(a)] *)
Definition difference (k a : list string) : list string :=
  List.filter (fun x => negb (existsb (String.eqb x) a)) k.

(** An association rule, with the metrics [mining.py] goes on to read. *)
Record rule : Type := mkRule {
  antecedents : list string;
  consequents : list string;
  antecedent_support : float;
  consequent_support : float;
  rule_support : float;
  confidence : float
}.

Definition rule_columns : list string :=
  ["antecedents"; "consequents"; "antecedent support"; "consequent support";
   "support"; "confidence"].

Definition rule_cells (r : rule) : list cell :=
  [CSet (antecedents r); CSet (consequents r); CFloat (antecedent_support r);
   CFloat (consequent_support r); CFloat (rule_support r); CFloat (confidence r)].

(** One split of the frequent item set [k] into the antecedent [c] and
    the rest, kept when its confidence reaches the threshold. *)
Definition split_rule (d : dict) (min_threshold : float) (k : list string)
  (sAC : float) (c : list string) : result (list rule) :=
  (let antecedent := c in
   let consequent := difference k antecedent in
   sA <- dict_get d antecedent;;
   sC <- dict_get d consequent;;
   let score := fdiv sAC sA in
   Ok (if fge score min_threshold then
         [mkRule antecedent consequent sA sC sAC score]
       else []))%res.

(** The rules of one frequent item set, larger antecedents first. *)
Definition rules_of_itemset (d : dict) (min_threshold : float)
  (k : list string) (sAC : float) : result (list rule) :=
  (rs <- rmap (fun idx => rmap (split_rule d min_threshold k sAC) (combinations idx k))
         (rev (seq 1 (length k - 1)));;
   Ok (concat (concat rs)))%res.

Definition mine (d : dict) (min_threshold : float) : result (list rule) :=
  (rs <- rmap (fun kv => rules_of_itemset d min_threshold (fst kv) (snd kv)) d;;
   Ok (concat rs))%res.

(** Modelled from the spec: mlxtend's [association_rules] is imported by
    [mining.py], not defined in the repository. From each frequent item
    set of two or more items it takes every split into a non-empty
    antecedent and a non-empty consequent, computes the confidence
    support(antecedent and consequent) / support(antecedent), and keeps
    the splits whose confidence is at least [min_threshold]. A rule has
    its antecedents, its consequents, their supports, its support and its
    confidence (the further metric columns of mlxtend, which nothing in
    [mining.py] reads, are left out). On a frame without rows it raises
    ValueError. *)
Definition association_rules_frame (fi : pd.DataFrame) (min_threshold : float)
  : result pd.DataFrame :=
  (if Nat.eqb (length (pd.rows fi)) 0 then
     Raise (ValueError "The input DataFrame `df` containing the frequent itemsets is empty.")
   else if negb (pd.has_column fi "support" && pd.has_column fi "itemsets") then
     Raise (ValueError "Dataframe needs to contain the columns 'support' and 'itemsets'")
   else
     keys <- pd.getitem fi "itemsets";;
     keys <- rmap as_set keys;;
     vals <- pd.getitem fi "support";;
     vals <- rmap as_float vals;;
     let d := fold_left (fun d kv => dict_set d (fst kv) (snd kv)) (combine keys vals) [] in
     rs <- mine d min_threshold;;
     Ok (pd.of_rows rule_columns (map rule_cells rs)))%res.

Definition association_rules (fi : loc) (min_threshold : float) : M loc :=
  (v <- load fi;; r <- lift (association_rules_frame v min_threshold);; alloc r)%run.

End mlxtend.

(** ** mining.py *)

Module mining.
Import Py Run Loop.
Local Open Scope run_scope.

(** A record of the query of [extract_features_for_mining]: one per
    Requirement node, with the fields the RETURN clause names. *)
Record record : Type := mkRecord {
  id : string;
  text : string;
  test_status : string;
  code_status : string;
  risk_status : string
}.

(** [d[k] = v] on a dict from identifier to text. *)
Fixpoint dict_store (d : list (string * string)) (k v : string) : list (string * string) :=
  match d with
  | [] => [(k, v)]
  | (k', v') :: d' =>
      if String.eqb k k' then (k', v) :: d' else (k', v') :: dict_store d' k v
  end.

(** [extract_features_for_mining(driver)]. [data] is what
    [run_query(driver, query)] answers. *)
Definition extract_features_for_mining (data : list record)
  : M (loc * list (string * string)) :=
  print "Mining: Extracting features from graph...";;;
  let transactions := [] in
  let text_map := [] in
  let '(transactions, text_map) :=
    fold_left
      (fun '(transactions, text_map) record =>
         (transactions ++ [[test_status record; code_status record; risk_status record]],
          dict_store text_map (id record) (text record)))
      data (transactions, text_map) in
  let columns_ := mlxtend.fit transactions in
  let te_ary := mlxtend.transform columns_ transactions in
  df <- alloc (pd.of_rows columns_ te_ary);;
  DF.setitem df "id" (map (fun record => CStr (id record)) data);;;
  ret (df, text_map).

Definition str_nat (n : nat) : string :=
  NilEmpty.string_of_uint (Nat.to_uint n).

(** [discover_rules(df)] *)
Definition discover_rules (df : loc) : M loc :=
  print "Mining: Running Apriori to find frequent itemsets...";;;
  df_mining <- DF.drop df ["id"];;
  frequent_itemsets <- mlxtend.apriori df_mining (Fin (1 # 100));;
  is_empty <- DF.empty frequent_itemsets;;
  if is_empty then
    print "Mining: No frequent itemsets found.";;;
    DF.new
  else
    print "Mining: Generating association rules...";;;
    rules <- mlxtend.association_rules frequent_itemsets (Fin (1 # 2));;
    is_empty <- DF.empty rules;;
    if is_empty then
      print "Mining: No association rules found.";;;
      DF.new
    else
      consequents <- DF.getitem rules "consequents";;
      consequents_str <- lift (pd.astype_str consequents);;
      DF.setitem rules "consequents_str" consequents_str;;;
      consequents_str <- DF.getitem rules "consequents_str";;
      rules_about_testing <-
        DF.getitem_mask rules
          (pd.series_eq consequents_str (CStr "frozenset({'HAS_TEST'})"));;
      is_empty <- DF.empty rules_about_testing;;
      if is_empty then
        print "Mining: No rules were found that predict 'HAS_TEST'.";;;
        DF.new
      else
        n <- DF.len rules_about_testing;;
        print ("Mining: Found " ++ str_nat n ++ " rules that predict 'HAS_TEST'.");;;
        ret rules_about_testing.

(** A gap record: the dict appended to [exceptions]. *)
Record gap : Type := mkGap {
  gap_id : cell;
  violated_rule : string;
  gap_confidence : cell
}.

(** The filtering loops of [find_exceptions]: for each item that is a
    column of [df], keep the rows of [cur] where the column equals [v]. *)
Definition narrow (df : loc) (items : list string) (v : cell) (cur : loc) : M loc :=
  for_each items cur
    (fun cur item =>
       is_column <- DF.has_column df item;;
       if is_column then
         col <- DF.getitem cur item;;
         DF.getitem_mask cur (pd.series_eq col v)
       else ret cur).

(** The body of the inner loop of [find_exceptions]: one gap record for
    the row [violation] of [df_violation]. *)
Definition append_gap (rule : pd.Series) (antecedents consequents : list string)
  (exceptions : list gap) (iv : nat * pd.Series) : M (list gap) :=
  let '(i, violation) := iv in
  vid <- lift (pd.series_getitem violation "id");;
  conf <- lift (pd.series_getitem rule "confidence");;
  ret (exceptions ++
         [mkGap vid
            ("Rule: IF " ++ str_list antecedents ++ " THEN " ++ str_list consequents)
            conf]).

(** The body of the outer loop of [find_exceptions], for one rule. *)
Definition check_rule (df : loc) (exceptions : list gap) (ir : nat * pd.Series)
  : M (list gap) :=
  let '(index, rule) := ir in
  a <- lift (pd.series_getitem rule "antecedents");;
  antecedents <- lift (list_of a);;
  c <- lift (pd.series_getitem rule "consequents");;
  consequents <- lift (list_of c);;
  let df_antecedent := df in
  df_antecedent <- narrow df antecedents (CBool true) df_antecedent;;
  let df_violation := df_antecedent in
  df_violation <- narrow df consequents (CBool false) df_violation;;
  violations <- DF.iterrows df_violation;;
  for_each violations exceptions (append_gap rule antecedents consequents).

(** [find_exceptions(df, rules)] *)
Definition find_exceptions (df rules : loc) : M (list gap) :=
  print "Mining: Finding exceptions to high-confidence rules...";;;
  let exceptions := [] in
  rule_rows <- DF.iterrows rules;;
  for_each rule_rows exceptions (check_rule df).

End mining.

(** ** The words of the specification *)

Module Spec.
Import Py.

Fixpoint distinct (l : list string) : bool :=
  match l with
  | [] => true
  | x :: l' => negb (existsb (String.eqb x) l') && distinct l'
  end.

(** A frame as pandas builds them: distinct column labels, and a cell
    under every column in every row. *)
Definition well_formed (v : pd.DataFrame) : bool :=
  distinct (pd.columns v) &&
  forallb (fun r => Nat.eqb (length (snd r)) (length (pd.columns v))) (pd.rows v).

Definition is_flag (c : string) (x : cell) : bool :=
  String.eqb c "id" ||
  match x with
  | CBool _ => true
  | _ => false
  end.

(** A feature table: the identifier column [id], and boolean cells in
    every other column. *)
Definition feature_table (v : pd.DataFrame) : bool :=
  well_formed v && pd.has_column v "id" &&
  forallb
    (fun r => forallb (fun cx => is_flag (fst cx) (snd cx)) (combine (pd.columns v) (snd r)))
    (pd.rows v).

(** The cell of the row under column [c] equals [b]. *)
Definition cell_is (b : bool) (row : pd.Series) (c : string) : bool :=
  match pd.assoc c row with
  | Some x => py_eq x (CBool b)
  | None => false
  end.

Definition antecedents (rule : pd.Series) : list string :=
  match pd.assoc "antecedents" rule with
  | Some (CSet a) => a
  | _ => []
  end.

Definition consequents (rule : pd.Series) : list string :=
  match pd.assoc "consequents" rule with
  | Some (CSet c) => c
  | _ => []
  end.

Definition cell_of (k : string) (row : pd.Series) : cell :=
  match pd.assoc k row with
  | Some x => x
  | None => CStr ""
  end.

(** A row of a rule table: item sets for antecedents and consequents, and
    a confidence. *)
Definition is_rule (rule : pd.Series) : bool :=
  match pd.assoc "antecedents" rule, pd.assoc "consequents" rule,
        pd.assoc "confidence" rule with
  | Some (CSet _), Some (CSet _), Some _ => true
  | _, _, _ => false
  end.

Definition rule_table (rv : pd.DataFrame) : bool :=
  forallb (fun r => is_rule (snd r)) (pd.iterrows rv).

Definition predicts_test (rule : pd.Series) : bool :=
  match consequents rule with
  | [c] => String.eqb c "HAS_TEST"
  | _ => false
  end.

(** A rule set as section 4.2 describes the output of the miner: every
    rule has a set of antecedents, the consequent {HAS_TEST} and a
    confidence. *)
Definition rule_set (rv : pd.DataFrame) : bool :=
  rule_table rv && forallb (fun r => predicts_test (snd r)) (pd.iterrows rv).

(** P5: all antecedent columns of the rule are true on the row and
    HAS_TEST is false on it. *)
Definition violates (rule row : pd.Series) : bool :=
  forallb (cell_is true row) (antecedents rule) && cell_is false row "HAS_TEST".

(** The gap record of a rule and a row that violates it. *)
Definition gap_record (rule row : pd.Series) : mining.gap :=
  mining.mkGap (cell_of "id" row)
    ("Rule: IF " ++ str_list (antecedents rule) ++ " THEN " ++ str_list (consequents rule))
    (cell_of "confidence" rule).

(** What [find_exceptions] does with the items of a rule that are no
    columns of the table: they are left out of the test. *)
Definition agrees (v : pd.DataFrame) (b : bool) (row : pd.Series) (items : list string)
  : bool :=
  forallb (fun item => negb (pd.has_column v item) || cell_is b row item) items.

Definition violates_on (v : pd.DataFrame) (rule row : pd.Series) : bool :=
  agrees v true row (antecedents rule) && agrees v false row (consequents rule).

(** The antecedent items of every rule are columns of the table. *)
Definition items_in (v rv : pd.DataFrame) : bool :=
  forallb (fun r => forallb (pd.has_column v) (antecedents (snd r))) (pd.iterrows rv).

(** The status values of the query. *)
Definition valid_record (r : mining.record) : bool :=
  (String.eqb (mining.test_status r) "HAS_TEST" || String.eqb (mining.test_status r) "NO_TEST") &&
  (String.eqb (mining.code_status r) "HAS_CODE" || String.eqb (mining.code_status r) "NO_CODE") &&
  (String.eqb (mining.risk_status r) "HAS_RISK" || String.eqb (mining.risk_status r) "NO_RISK").

Definition status_pairs : list (string * string) :=
  [("HAS_TEST", "NO_TEST"); ("HAS_CODE", "NO_CODE"); ("HAS_RISK", "NO_RISK")].

(** Exactly one of the columns [yes] and [no] is true on the row. *)
Definition exactly_one (row : pd.Series) (yes no : string) : bool :=
  match pd.assoc yes row, pd.assoc no row with
  | Some (CBool a), Some (CBool b) => xorb a b
  | _, _ => false
  end.

(** The table of E2E-2: 9 rows {HAS_RISK, HAS_TEST}, 1 row
    {HAS_RISK, NO_TEST} and 5 rows {NO_RISK, NO_TEST}, one-hot encoded
    under the sorted column names, with the identifiers REQ-1 to REQ-15. *)
Definition e2e2_row (risk test : bool) (i : nat) : nat * list cell :=
  (i, [CBool risk; CBool test; CBool (negb risk); CBool (negb test);
       CStr ("REQ-" ++ mining.str_nat (S i))]).

Definition e2e2_table : pd.DataFrame :=
  pd.mkDataFrame ["HAS_RISK"; "HAS_TEST"; "NO_RISK"; "NO_TEST"; "id"]
    (map (e2e2_row true true) (seq 0 9) ++
     map (e2e2_row true false) (seq 9 1) ++
     map (e2e2_row false false) (seq 10 5)).

(** The rule {HAS_RISK} -> {HAS_TEST} as [discover_rules] returns it. *)
Definition e2e2_rule : nat * list cell :=
  (0, [CSet ["HAS_RISK"]; CSet ["HAS_TEST"]; CFloat (Fin (2 # 3)); CFloat (Fin (3 # 5));
       CFloat (Fin (3 # 5)); CFloat (Fin (9 # 10)); CStr "frozenset({'HAS_TEST'})"]).

Definition e2e2_rules : pd.DataFrame :=
  pd.mkDataFrame (mlxtend.rule_columns ++ ["consequents_str"]) [e2e2_rule].

(** A store that holds the table at 0 and the rule set at 1. *)
Definition e2e2_state : Run.state := Run.mkState [e2e2_table; e2e2_rules] [].

(** E2E-4: a table with one requirement that has code and a risk but
    no test, and two rules that predict HAS_TEST. *)
Definition e2e4_table : pd.DataFrame :=
  pd.mkDataFrame ["HAS_CODE"; "HAS_RISK"; "HAS_TEST"; "id"]
    [(0, [CBool true; CBool true; CBool false; CStr "REQ-7"]);
     (1, [CBool true; CBool false; CBool true; CStr "REQ-8"])].

Definition e2e4_rules : pd.DataFrame :=
  pd.mkDataFrame ["antecedents"; "consequents"; "confidence"]
    [(0, [CSet ["HAS_CODE"]; CSet ["HAS_TEST"]; CFloat (Fin (3 # 5))]);
     (3, [CSet ["HAS_RISK"]; CSet ["HAS_TEST"]; CFloat (Fin (9 # 10))])].

Definition e2e4_state : Run.state := Run.mkState [e2e4_table; e2e4_rules] [].

(** A table without the column HAS_TEST. *)
Definition untested_table : pd.DataFrame :=
  pd.mkDataFrame ["HAS_RISK"; "NO_TEST"; "id"]
    [(0, [CBool true; CBool true; CStr "REQ-1"]);
     (1, [CBool false; CBool true; CStr "REQ-2"])].

Definition untested_state : Run.state := Run.mkState [untested_table; e2e2_rules] [].

(** E2E-1: 8 records without a test and 2 with one, all with code and
    without risk. *)
Definition e2e1_records : list mining.record :=
  map (fun n => mining.mkRecord ("REQ-" ++ mining.str_nat n) "" "NO_TEST" "HAS_CODE" "NO_RISK")
    (seq 1 8) ++
  map (fun n => mining.mkRecord ("REQ-" ++ mining.str_nat n) "" "HAS_TEST" "HAS_CODE" "NO_RISK")
    (seq 9 2).

(** Two records of the query. *)
Definition two_records : list mining.record :=
  [mining.mkRecord "REQ-1" "The pump shall stop on alarm." "HAS_TEST" "HAS_CODE" "NO_RISK";
   mining.mkRecord "REQ-2" "The log shall be kept." "NO_TEST" "NO_CODE" "HAS_RISK"].

End Spec.

(** ** The functions on values: what a run computes, apart from where
    it allocates it *)

Module Pure.
Import Py.
Local Open Scope result_scope.

Fixpoint narrow (v : pd.DataFrame) (items : list string) (b : cell) (cur : pd.DataFrame)
  : result pd.DataFrame :=
  match items with
  | [] => Ok cur
  | item :: items' =>
      if pd.has_column v item then
        col <- pd.getitem cur item;;
        narrow v items' b (pd.getitem_mask cur (pd.series_eq col b))
      else narrow v items' b cur
  end.

Definition gap_of (rule : pd.Series) (antecedents consequents : list string)
  (iv : nat * pd.Series) : result mining.gap :=
  vid <- pd.series_getitem (snd iv) "id";;
  conf <- pd.series_getitem rule "confidence";;
  Ok (mining.mkGap vid
        ("Rule: IF " ++ str_list antecedents ++ " THEN " ++ str_list consequents)
        conf).

Definition rule_gaps (v : pd.DataFrame) (rule : pd.Series) : result (list mining.gap) :=
  a <- pd.series_getitem rule "antecedents";;
  antecedents <- list_of a;;
  c <- pd.series_getitem rule "consequents";;
  consequents <- list_of c;;
  df_antecedent <- narrow v antecedents (CBool true) v;;
  df_violation <- narrow v consequents (CBool false) df_antecedent;;
  rmap (gap_of rule antecedents consequents) (pd.iterrows df_violation).

Fixpoint gaps (v : pd.DataFrame) (rules : list (nat * pd.Series))
  (exceptions : list mining.gap) : result (list mining.gap) :=
  match rules with
  | [] => Ok exceptions
  | rule :: rules' =>
      gs <- rule_gaps v (snd rule);;
      gaps v rules' (exceptions ++ gs)
  end.

Definition find_exceptions (v rv : pd.DataFrame) : result (list mining.gap) :=
  gaps v (pd.iterrows rv) [].

Definition target : string := "frozenset({'HAS_TEST'})".

Definition about_testing (rules : pd.DataFrame) : result pd.DataFrame :=
  consequents <- pd.getitem rules "consequents";;
  consequents_str <- pd.astype_str consequents;;
  rules' <- pd.setitem rules "consequents_str" consequents_str;;
  consequents_str <- pd.getitem rules' "consequents_str";;
  Ok (pd.getitem_mask rules' (pd.series_eq consequents_str (CStr target))).

Definition discover_rules (v : pd.DataFrame) : result pd.DataFrame :=
  df_mining <- pd.drop v ["id"];;
  frequent_itemsets <- mlxtend.apriori_frame df_mining (Fin (1 # 100));;
  if pd.empty frequent_itemsets then Ok pd.new
  else
    rules <- mlxtend.association_rules_frame frequent_itemsets (Fin (1 # 2));;
    if pd.empty rules then Ok pd.new
    else
      rules_about_testing <- about_testing rules;;
      if pd.empty rules_about_testing then Ok pd.new
      else Ok rules_about_testing.

End Pure.

(** ** Runs *)

Module Sem.
Import Py Run.

(** The store after a run: the objects it had, followed by new ones. *)
Definition grows (st st' : state) : Prop :=
  exists new out, st' = mkState (heap st ++ new) (console st ++ out).

(** The run of [c] from [st] ends with the result [r]. *)
Definition returns {A} (c : M A) (st : state) (r : result A) : Prop :=
  exists st', c st = (r, st') /\ grows st st'.

(** The run of [c] from [st] raises, or answers a frame that holds [v]. *)
Definition answers (c : M loc) (st : state) (r : result pd.DataFrame) : Prop :=
  exists st', grows st st' /\
    match r with
    | Ok v => exists l, c st = (Ok l, st') /\ heap st' !! l = Some v
    | Raise e => c st = (Raise e, st')
    end.

(** A program that leaves every object of the store as it is, whatever
    the state it starts from. *)
Definition safe {A} (c : M A) : Prop := forall st, grows st (snd (c st)).

End Sem.

(** ** Auxiliary notions of the proofs *)

Module Aux.
Import Py.

(** A row of a frame, as [iterrows] shows it. *)
Definition series (cols : list string) (r : nat * list cell) : nat * pd.Series :=
  (fst r, combine cols (snd r)).

Definition full (cols : list string) (r : nat * list cell) : Prop :=
  length (snd r) = length cols.

(** The gap records of one rule: one for each row that agrees with the
    rule's items. *)
Definition rule_records (v : pd.DataFrame) (rule : pd.Series) : list mining.gap :=
  map (fun row => Spec.gap_record rule (snd row))
    (List.filter (fun row => Spec.violates_on v rule (snd row)) (pd.iterrows v)).

(** The exact fraction a support stands for. *)
Definition fraction (a n : nat) : Q := inject_Z (Z.of_nat a) / inject_Z (Z.of_nat n).

(** A rule as the miner accepts it: a rational support that reaches the
    minimum [m], and a rational confidence between the threshold [t]
    and 1. *)
Definition accepted (m t : Q) (r : mlxtend.rule) : Prop :=
  exists q c,
    mlxtend.rule_support r = Fin q /\ (m <= q)%Q /\
    mlxtend.confidence r = Fin c /\ (t <= c)%Q /\ (0 <= c)%Q /\ (c <= 1)%Q.

(** The invariant of the dict of [association_rules]: its entries are
    frequent item sets with their supports, and every frequent item set
    is a key. *)
Definition is_frequent (cols : list string) (X : list (list bool)) (m : Q)
  (k : list string) (s : float) : Prop :=
  s = mlxtend.support cols X k /\ fge s (Fin m) = true /\
  k `sublist_of` cols /\ 1 <= length k.

Definition good (cols : list string) (X : list (list bool)) (m : Q) (d : mlxtend.dict)
  : Prop :=
  forall k s, In (k, s) d -> is_frequent cols X m k s.

Definition has (d : mlxtend.dict) (k : list string) : Prop :=
  exists k' s, In (k', s) d /\ set_eqb k k' = true.

Definition complete (cols : list string) (X : list (list bool)) (m : Q)
  (d : mlxtend.dict) : Prop :=
  forall k, is_frequent cols X m k (mlxtend.support cols X k) -> has d k.

(** The rules that [discover_rules] returns, out of the rules [rs] of
    [association_rules]: with their index labels and the column of the
    rendered consequents. *)
Definition labelled (rs : list mlxtend.rule) : list (nat * mlxtend.rule) :=
  combine (seq 0 (length rs)) rs.

Definition rendered (r : mlxtend.rule) : string :=
  str_frozenset (mlxtend.consequents r).

Definition testing_row (ir : nat * mlxtend.rule) : nat * list cell :=
  (fst ir, mlxtend.rule_cells (snd ir) ++ [CStr (rendered (snd ir))]).

Definition testing_rows (rs : list mlxtend.rule) : list (nat * list cell) :=
  map testing_row
    (List.filter (fun ir => String.eqb (rendered (snd ir)) Pure.target) (labelled rs)).

Definition testing_frame (rs : list mlxtend.rule) : pd.DataFrame :=
  match testing_rows rs with
  | [] => pd.new
  | rows => pd.mkDataFrame (mlxtend.rule_columns ++ ["consequents_str"]) rows
  end.

(** The frame [extract_features_for_mining] builds from the records. *)
Definition basket (r : mining.record) : list string :=
  [mining.test_status r; mining.code_status r; mining.risk_status r].

Definition flags (cols : list string) (r : mining.record) : list cell :=
  map (fun c => CBool (existsb (String.eqb c) (basket r))) cols.

Definition feature_frame (data : list mining.record) : pd.DataFrame :=
  let cols := mlxtend.fit (map basket data) in
  pd.mkDataFrame (cols ++ ["id"])
    (combine (seq 0 (length data))
       (map (fun r => flags cols r ++ [CStr (mining.id r)]) data)).

End Aux.

(** ** The rules against the table they were mined from *)

Module Mined.
Import Py Aux.

(** The table without its identifiers, as [discover_rules] hands it to
    [apriori]. *)
Definition flag_columns (v : pd.DataFrame) : list string :=
  List.filter (pd.keep ["id"]) (pd.columns v).

Definition flag_frame (v : pd.DataFrame) : pd.DataFrame :=
  pd.mkDataFrame (flag_columns v)
    (map (fun r => (fst r, pd.select (snd r) (map (pd.keep ["id"]) (pd.columns v))))
       (pd.rows v)).

(** The booleans [apriori] reads on a row of that table. *)
Definition flags_of (cols : list string) (cells : list cell) : list bool :=
  match
    rmap (fun x => of_option (mlxtend.as_bool x)
                     (ValueError "The allowed values for a DataFrame are True, False, 0, 1."))
      (pd.select cells (map (pd.keep ["id"]) cols))
  with
  | Ok bs => bs
  | Raise _ => []
  end.

(** A rule as [association_rules] derives it from a frequent item set
    [k]: the antecedent is a part of [k], the consequent the rest of it,
    and the confidence the support of [k] over that of the antecedent. *)
Definition derived (cols : list string) (X : list (list bool)) (r : mlxtend.rule) : Prop :=
  exists k,
    k `sublist_of` cols /\
    mlxtend.antecedents r `sublist_of` k /\
    1 <= length (mlxtend.antecedents r) /\
    mlxtend.consequents r = mlxtend.difference k (mlxtend.antecedents r) /\
    mlxtend.rule_support r = mlxtend.support cols X k /\
    mlxtend.confidence r
    = fdiv (mlxtend.support cols X k) (mlxtend.support cols X (mlxtend.antecedents r)).

(** The rows of a table on which every column of [items] is True. *)
Definition matching (v : pd.DataFrame) (items : list string) : list (nat * pd.Series) :=
  List.filter (fun row => forallb (Spec.cell_is true (snd row)) items) (pd.iterrows v).

(** The rows of a table that violate a rule. *)
Definition violating (v : pd.DataFrame) (rule : pd.Series) : list (nat * pd.Series) :=
  List.filter (fun row => Spec.violates rule (snd row)) (pd.iterrows v).

Definition rows_of (n : nat) : Q := inject_Z (Z.of_nat n).

(** A row of the frame [discover_rules] returns, for the rule [r]. *)
Definition rule_series (r : mlxtend.rule) : pd.Series :=
  combine (mlxtend.rule_columns ++ ["consequents_str"])
    (mlxtend.rule_cells r ++ [CStr (rendered r)]).

End Mined.

(** ** Python strings: [strip], [split], tuple unpacking *)

Module PyStr.

(** [str.isspace] on the code points below 256. *)
Definition is_space (c : ascii) : bool :=
  let n := nat_of_ascii c in
  (Nat.leb 9 n && Nat.leb n 13) || (Nat.leb 28 n && Nat.leb n 32)
  || Nat.eqb n 133 || Nat.eqb n 160.

Fixpoint lstrip (s : string) : string :=
  match s with
  | EmptyString => EmptyString
  | String c s' => if is_space c then lstrip s' else s
  end.

Fixpoint rstrip (s : string) : string :=
  match s with
  | EmptyString => EmptyString
  | String c s' =>
      match rstrip s' with
      | EmptyString => if is_space c then EmptyString else String c EmptyString
      | r => String c r
      end
  end.

(** [s.strip()] *)
Definition strip (s : string) : string := lstrip (rstrip s).

(** [s] up to the first [sep], and what follows it. *)
Fixpoint cut (sep : ascii) (s : string) : option (string * string) :=
  match s with
  | EmptyString => None
  | String c s' =>
      if Ascii.eqb c sep then Some (EmptyString, s')
      else
        match cut sep s' with
        | Some (a, b) => Some (String c a, b)
        | None => None
        end
  end.

(** [s.split(sep, maxsplit)], for a separator of one character. *)
Fixpoint split (sep : ascii) (maxsplit : nat) (s : string) : list string :=
  match maxsplit with
  | 0 => [s]
  | S n =>
      match cut sep s with
      | Some (a, b) => a :: split sep n b
      | None => [s]
      end
  end.

(** [a, b, c = l]: the three values, or the text of the ValueError. *)
Definition unpack3 (l : list string) : string + (string * string * string) :=
  match l with
  | [a; b; c] => inr (a, b, c)
  | _ =>
      if Nat.ltb (length l) 3 then
        inl ("not enough values to unpack (expected 3, got "
             ++ mining.str_nat (length l) ++ ")")%string
      else inl "too many values to unpack (expected 3)"
  end.

(** The number of occurrences of [c] in [s]. *)
Fixpoint occurrences (c : ascii) (s : string) : nat :=
  match s with
  | EmptyString => 0
  | String d s' => (if Ascii.eqb d c then 1 else 0) + occurrences c s'
  end.

End PyStr.

(** ** llm.py *)

Module llm.
Import Py Run PyStr.
Local Open Scope run_scope.

(** What [llm.invoke(prompt)] ends with: the content of the response,
    or an exception, given by its text. *)
Inductive reply : Type :=
  | Content (content : string)
  | Failure (error : string).

Definition nl : string := String (ascii_of_nat 10) EmptyString.
Definition quote : string := String Py.dquote EmptyString.

(** [TEST_SUGGESTION_PROMPT_TEMPLATE.format(text=text)] *)
Definition TEST_SUGGESTION_PROMPT_TEMPLATE (text : string) : string :=
  nl ++ "You are a senior QA engineer. You will be given a software requirement." ++ nl
  ++ "Your job is to generate a new, unique Test ID and a descriptive, high-level Test Name to verify this requirement."
  ++ nl ++ "The status of this new test should be 'PENDING'." ++ nl ++ nl
  ++ "Requirement: " ++ quote ++ text ++ quote ++ nl ++ nl
  ++ "Output your answer *only* in the following CSV format:" ++ nl
  ++ "Test_ID,Test_Name,Status" ++ nl.

(** [get_llm_suggestion(text_input)]. [invoke] is the model at this
    call. *)
Definition get_llm_suggestion (invoke : string -> reply) (text_input : string)
  : M string :=
  let prompt := TEST_SUGGESTION_PROMPT_TEMPLATE text_input in
  match invoke prompt with
  | Content content => ret (strip content)
  | Failure e =>
      print ("Error in get_llm_suggestion: " ++ e);;;
      ret ("Error: Could not get response from LLM. " ++ e)%string
  end.

End llm.

(** ** suggestions.py *)

Module suggestions.
Import Py Run Loop PyStr.
Local Open Scope run_scope.

(** An unverified requirement: a dict with the keys [id] and [text]. *)
Record pattern : Type := mkPattern {
  pattern_id : cell;
  pattern_text : string
}.

Record suggestion : Type := mkSuggestion {
  req_id : cell;
  req_text : string;
  test_id : string;
  test_name : string;
  status : string
}.

(** [enumerate(l)] *)
Definition enumerate {A} (l : list A) : list (nat * A) :=
  combine (seq 0 (length l)) l.

(** [generate_suggestions(patterns)]. The replies of the model are no
    function of the prompt: [model n] is the model at the call number [n]
    of the run, the one made for the pattern at position [n]. *)
Definition generate_suggestions (model : nat -> string -> llm.reply)
  (patterns : list pattern) : M (list suggestion) :=
  let suggestions := [] in
  match patterns with
  | [] => ret suggestions
  | _ =>
      print ("Found " ++ mining.str_nat (length patterns)
             ++ " patterns. Generating suggestions...");;;
      for_each (enumerate patterns) suggestions
        (fun suggestions '(call, pattern) =>
           let req_id := pattern_id pattern in
           let req_text := pattern_text pattern in
           suggestion_csv <- llm.get_llm_suggestion (model call) req_text;;
           match unpack3 (split ","%char 2 suggestion_csv) with
           | inr (test_id, test_name, status) =>
               ret (suggestions ++ [mkSuggestion req_id req_text test_id test_name status])
           | inl e =>
               print ("Error parsing LLM suggestion: " ++ e ++ ". Output: "
                      ++ suggestion_csv);;;
               ret suggestions
           end)
  end.

End suggestions.

(** ** Streamlit: the script run *)

Module streamlit.
Import Py Run.

(** What ends a script run before its last statement: an exception of
    the program, or the RerunException that [st.rerun()] raises.
    Streamlit catches the latter and runs the script again from its
    first line; it is no error of the program. *)
Inductive stop : Type :=
  | Failed (e : exn)
  | RerunException.

(** The state of a script run: the interpreter's, and
    [st.session_state.suggestions], [None] while the key is not set. *)
Record script : Type := mkScript {
  interpreter : state;
  session_suggestions : option (list suggestions.suggestion)
}.

Definition S (A : Type) : Type := script -> (A + stop) * script.

Definition finish {A} (a : A) : S A := fun s => (inl a, s).

Definition then_ {A B} (c : S A) (k : A -> S B) : S B :=
  fun s =>
    match c s with
    | (inl a, s') => k a s'
    | (inr e, s') => (inr e, s')
    end.

(** A call of the program in the script. *)
Definition call {A} (c : M A) : S A :=
  fun s =>
    match c (interpreter s) with
    | (Ok a, st') => (inl a, mkScript st' (session_suggestions s))
    | (Raise e, st') => (inr (Failed e), mkScript st' (session_suggestions s))
    end.

(** [st.session_state.suggestions = v] *)
Definition set_suggestions (v : list suggestions.suggestion) : S unit :=
  fun s => (inl tt, mkScript (interpreter s) (Some v)).

(** [st.rerun()]: no statement after it is run. *)
Definition rerun {A} : S A := fun s => (inr RerunException, s).

End streamlit.

Declare Scope script_scope.
Delimit Scope script_scope with script.
Notation "x <- c ;; k" := (streamlit.then_ c (fun x => k))
  (at level 100, c at next level, right associativity) : script_scope.
Notation "c ;;; k" := (streamlit.then_ c (fun _ => k))
  (at level 100, right associativity) : script_scope.

(** ** app.py: the button of the mining engine *)

Module app.
Import Py Run Loop streamlit.
Local Open Scope run_scope.

(** [df.head()]: the first five rows, as a new frame. *)
Definition head (df : loc) : M loc :=
  v <- load df;; alloc (pd.mkDataFrame (pd.columns v) (firstn 5 (pd.rows v))).

(** [df[labels]] for a list of column labels, as a new frame. *)
Definition select_columns (v : pd.DataFrame) (labels : list string)
  : result pd.DataFrame :=
  match find (fun c => negb (pd.has_column v c)) labels with
  | Some c => Raise (Unsupported "labels that are no columns")
  | None =>
      (rows <- rmap (fun r =>
                       cells <- rmap (fun c =>
                                        of_option (pd.cell_at (pd.columns v) (snd r) c)
                                          (KeyError c))
                                  labels;;
                       Ok (fst r, cells))
                 (pd.rows v);;
       Ok (pd.mkDataFrame labels rows))%res
  end.

Definition getitem_columns (df : loc) (labels : list string) : M loc :=
  v <- load df;; v' <- lift (select_columns v labels);; alloc v'.

(** [d.get(k)] on the dict from identifier to text. *)
Fixpoint lookup (d : list (string * string)) (k : string) : option string :=
  match d with
  | [] => None
  | (k', v) :: d' => if String.eqb k k' then Some v else lookup d' k
  end.

(** [text_map[k]]: the keys are strings, and no other value equals
    one. *)
Definition text_of (text_map : list (string * string)) (k : cell) : result string :=
  match k with
  | CStr s => of_option (lookup text_map s) (KeyError s)
  | _ => (key <- Py.str k;; Raise (KeyError key))%res
  end.

(** The branch in which the handler comes to its end, by the message
    it shows there; in the fourth branch, where gaps were found, it does
    not come to its end: [st.rerun()] stops the script run. *)
Inductive shown : Type :=
  | NoData
  | NoRules
  | NoExceptions.

Local Open Scope script_scope.

(** The body of [if st.button("Discover Gaps with Data Mining"):].
    [data] is what the query of [extract_features_for_mining] answers.
    The calls that draw on the page ([st.success], [st.dataframe],
    [st.json] and the like) are left out, the expressions they are
    given are evaluated; the assignment to the session state and
    [st.rerun()] are kept. *)
Definition discover_gaps (model : nat -> string -> llm.reply)
  (data : list mining.record) : S shown :=
  p <- call (mining.extract_features_for_mining data);;
  let '(df, text_map) := p in
  is_empty <- call (DF.empty df);;
  if is_empty then finish NoData
  else
    extracted <- call (DF.len df);;
    first_rows <- call (head df);;
    rules <- call (mining.discover_rules df);;
    is_empty <- call (DF.empty rules);;
    if is_empty then
      df_mining <- call (DF.drop df ["id"]);;
      frequent_itemsets <- call (mlxtend.apriori df_mining (Fin (1 # 100)));;
      finish NoRules
    else
      discovered <- call (DF.len rules);;
      listed <-
        call (getitem_columns rules ["antecedents"; "consequents"; "support"; "confidence"]);;
      exceptions <- call (mining.find_exceptions df rules);;
      match exceptions with
      | [] => finish NoExceptions
      | _ =>
          let patterns_for_llm := [] in
          patterns_for_llm <-
            call (for_each exceptions patterns_for_llm
                    (fun patterns_for_llm exc =>
                       (text <- lift (text_of text_map (mining.gap_id exc));;
                        ret (patterns_for_llm
                             ++ [suggestions.mkPattern (mining.gap_id exc) text]))%run));;
          match patterns_for_llm with
          | [] => finish tt
          | _ =>
              suggested <-
                call (suggestions.generate_suggestions model patterns_for_llm);;
              set_suggestions suggested
          end;;;
          rerun
      end.

End app.

(** ** The replies of the model and the suggestions made of them *)

Module Replies.
Import Py PyStr.

(** The text [get_llm_suggestion] returns. *)
Definition answer (invoke : string -> llm.reply) (text_input : string) : string :=
  match invoke (llm.TEST_SUGGESTION_PROMPT_TEMPLATE text_input) with
  | llm.Content content => strip content
  | llm.Failure e => "Error: Could not get response from LLM. " ++ e
  end.

Definition commas (s : string) : nat := occurrences ","%char s.

(** The patterns whose reply holds two commas or more, with the number
    of their call. *)
Definition answered (model : nat -> string -> llm.reply)
  (calls : list (nat * suggestions.pattern)) : list (nat * suggestions.pattern) :=
  List.filter
    (fun np => Nat.leb 2 (commas (answer (model (fst np)) (suggestions.pattern_text (snd np)))))
    calls.

(** The suggestion [s] is the reply to the call [np], cut at its first
    two commas. *)
Definition parsed (model : nat -> string -> llm.reply)
  (np : nat * suggestions.pattern) (s : suggestions.suggestion) : Prop :=
  suggestions.req_id s = suggestions.pattern_id (snd np) /\
  suggestions.req_text s = suggestions.pattern_text (snd np) /\
  (suggestions.test_id s ++ "," ++ suggestions.test_name s ++ "," ++ suggestions.status s)%string
  = answer (model (fst np)) (suggestions.pattern_text (snd np)) /\
  commas (suggestions.test_id s) = 0 /\ commas (suggestions.test_name s) = 0.

(** The pattern [pat] is what the handler sends to the model for the gap
    record [exc]: the identifier of the record, which is that of a record
    of the query without a test, and the text the text map holds for
    it. *)
Definition sent (data : list mining.record) (exc : mining.gap)
  (pat : suggestions.pattern) : Prop :=
  suggestions.pattern_id pat = mining.gap_id exc /\
  exists r,
    In r data /\ mining.gap_id exc = CStr (mining.id r) /\
    mining.test_status r = "NO_TEST" /\
    Some (suggestions.pattern_text pat)
    = option_map mining.text
        (find (fun r' => String.eqb (mining.id r') (mining.id r)) (rev data)).

End Replies.

(** ** Python strings: lines and paths *)

Module PyText.

(** The line boundaries of [str.splitlines], on the code points below
    256: \n, \v, \f, \r, \x1c, \x1d, \x1e and \x85. *)
Definition is_linebreak (c : ascii) : bool :=
  let n := nat_of_ascii c in
  (Nat.leb 10 n && Nat.leb n 13) || (Nat.leb 28 n && Nat.leb n 30) || Nat.eqb n 133.

Definition CR : ascii := ascii_of_nat 13.
Definition LF : ascii := ascii_of_nat 10.

(** [s.splitlines()]: the lines without their boundaries; \r\n is one
    boundary, and no empty line follows the last boundary. *)
Fixpoint splitlines (s : string) : list string :=
  match s with
  | EmptyString => []
  | String c s' =>
      if is_linebreak c then
        match s' with
        | String d s'' =>
            if Ascii.eqb c CR && Ascii.eqb d LF then EmptyString :: splitlines s''
            else EmptyString :: splitlines s'
        | EmptyString => [EmptyString]
        end
      else
        match splitlines s' with
        | [] => [String c EmptyString]
        | line :: lines => String c line :: lines
        end
  end.

(** ["\n".join(lines)] *)
Fixpoint join_lines (lines : list string) : string :=
  match lines with
  | [] => EmptyString
  | [line] => line
  | line :: lines' => line ++ String LF (join_lines lines')
  end.

(** [c in s] for a character. *)
Fixpoint has_char (c : ascii) (s : string) : bool :=
  match s with
  | EmptyString => false
  | String d s' => Ascii.eqb d c || has_char c s'
  end.

(** No line boundary in [s]. *)
Fixpoint one_line (s : string) : bool :=
  match s with
  | EmptyString => true
  | String c s' => negb (is_linebreak c) && one_line s'
  end.

(** [os.path.join(a, b)] on a POSIX system, for a relative [b]. *)
Fixpoint ends_with_slash (a : string) : bool :=
  match a with
  | EmptyString => true
  | String c EmptyString => Ascii.eqb c "/"%char
  | String _ a' => ends_with_slash a'
  end.

Definition path_join (a b : string) : string :=
  if ends_with_slash a then a ++ b else a ++ "/" ++ b.

End PyText.

(** ** The regular expressions of [parsers.py] *)

Module re.

(** The patterns are sequences of literal characters and of two kinds of
    groups of any characters: the lazy group, written with the star and
    the question mark, and the greedy one, written with the star. *)
Inductive item : Type :=
  | Lit (s : string)
  | Lazy
  | Greedy.

Definition pattern : Type := list item.

(** [.] matches every character but the newline. *)
Definition dot (c : ascii) : bool := negb (Ascii.eqb c PyText.LF).

(** The lower case of a letter, on the code points below 256. *)
Definition lower (c : ascii) : ascii :=
  let n := nat_of_ascii c in
  if (Nat.leb 65 n && Nat.leb n 90)
     || (Nat.leb 192 n && Nat.leb n 222 && negb (Nat.eqb n 215))
  then ascii_of_nat (n + 32) else c.

(** Two characters are the same, up to their case under IGNORECASE. *)
Definition same (ignorecase : bool) (a b : ascii) : bool :=
  if ignorecase then Ascii.eqb (lower a) (lower b) else Ascii.eqb a b.

(** What follows the literal [l] at the start of [s]. *)
Fixpoint literal (ignorecase : bool) (l s : string) : option string :=
  match l, s with
  | EmptyString, _ => Some s
  | String a l', String b s' => if same ignorecase a b then literal ignorecase l' s' else None
  | String _ _, EmptyString => None
  end.

(** The first group gets one more character in front. *)
Definition grow (c : ascii) (groups : list string) : list string :=
  match groups with
  | g :: groups' => String c g :: groups'
  | [] => []
  end.

Section Groups.

(** The match of the rest of the pattern. *)
Variable rest : string -> option (list string).

(** The lazy group: the shortest group after which the rest matches. *)
Fixpoint lazy (s : string) : option (list string) :=
  match rest s with
  | Some groups => Some (EmptyString :: groups)
  | None =>
      match s with
      | String c s' => if dot c then option_map (grow c) (lazy s') else None
      | EmptyString => None
      end
  end.

(** The greedy group: the longest group after which the rest matches. *)
Fixpoint greedy (s : string) : option (list string) :=
  match s with
  | String c s' =>
      if dot c then
        match greedy s' with
        | Some groups => Some (grow c groups)
        | None => option_map (cons EmptyString) (rest s)
        end
      else option_map (cons EmptyString) (rest s)
  | EmptyString => option_map (cons EmptyString) (rest s)
  end.

End Groups.

(** [pattern.match(s)]: the groups of the match at the start of [s]. *)
Fixpoint match_ (ignorecase : bool) (p : pattern) : string -> option (list string) :=
  match p with
  | [] => fun _ => Some []
  | Lit l :: p' =>
      fun s =>
        match literal ignorecase l s with
        | Some r => match_ ignorecase p' r
        | None => None
        end
  | Lazy :: p' => lazy (match_ ignorecase p')
  | Greedy :: p' => greedy (match_ ignorecase p')
  end.

(** [pattern.search(s)]: the groups of the first match in [s]. *)
Fixpoint search (ignorecase : bool) (p : pattern) (s : string) : option (list string) :=
  match match_ ignorecase p s with
  | Some groups => Some groups
  | None =>
      match s with
      | String _ s' => search ignorecase p s'
      | EmptyString => None
      end
  end.

End re.

(** ** graph_db.py: the queries sent *)

Module graph_db.

(** A call of [run_query]: the Cypher text and the parameters. *)
Record query : Type := mkQuery {
  cypher : string;
  params : list (string * string)
}.

(** The queries sent to the database and the lines printed, in order.
    [run_query] is taken to return: what the database answers to these
    queries is not read. *)
Record world : Type := mkWorld {
  sent : list query;
  printed : list string
}.

Definition W (A : Type) : Type := world -> A * world.

Definition ret {A} (a : A) : W A := fun w => (a, w).

Definition bind {A B} (c : W A) (k : A -> W B) : W B :=
  fun w => let '(a, w') := c w in k a w'.

Definition run_query (cypher : string) (params : list (string * string)) : W unit :=
  fun w => (tt, mkWorld (sent w ++ [mkQuery cypher params]) (printed w)).

Definition print (s : string) : W unit :=
  fun w => (tt, mkWorld (sent w) (printed w ++ [s])).

Fixpoint for_each {A} (l : list A) (body : A -> W unit) : W unit :=
  match l with
  | [] => ret tt
  | x :: l' => bind (body x) (fun _ => for_each l' body)
  end.

End graph_db.

Declare Scope db_scope.
Delimit Scope db_scope with db.
Notation "c ;;; k" := (graph_db.bind c (fun _ => k))
  (at level 100, right associativity) : db_scope.

(** ** parsers.py *)

Module parsers.
Import graph_db PyText.
Local Open Scope db_scope.

Definition nl : string := String LF EmptyString.

Fixpoint spaces (n : nat) : string :=
  match n with
  | 0 => EmptyString
  | S n' => String " "%char (spaces n')
  end.

(** [REG_PATTERN]: the literal "[CLAUSE: ", a lazy group, the literal
    "] " and a greedy group. *)
Definition REG_PATTERN : re.pattern :=
  [re.Lit "[CLAUSE: "; re.Lazy; re.Lit "] "; re.Greedy].

(** [REQ_PATTERN]: "[REQ: ", a lazy group, "] [DERIVES_FROM: ", a lazy
    group, "] " and a greedy group. *)
Definition REQ_PATTERN : re.pattern :=
  [re.Lit "[REQ: "; re.Lazy; re.Lit "] [DERIVES_FROM: "; re.Lazy; re.Lit "] "; re.Greedy].

(** [COMMIT_PATTERN]: "[IMPLEMENTS: ", a lazy group and "]", compiled
    with IGNORECASE. *)
Definition COMMIT_PATTERN : re.pattern :=
  [re.Lit "[IMPLEMENTS: "; re.Lazy; re.Lit "]"].

(** What reading and decrypting a file ends with: the text, or the
    exception raised, FileNotFoundError apart from the others, which are
    given by their text. *)
Inductive opened : Type :=
  | Decrypted (content : string)
  | FileNotFoundError
  | Exception (e : string).

(** [parse_regs(driver, data_dir)] *)
Definition parse_regs (data_dir : string) (file : opened) : W unit :=
  let file_path := path_join data_dir "reg.txt" in
  match file with
  | Decrypted decrypted_content =>
      for_each (splitlines decrypted_content)
        (fun line =>
           match re.match_ false REG_PATTERN line with
           | Some [clause_id; text] =>
               run_query "MERGE (r:Regulation {id: $id}) SET r.text = $text"
                 [("id", clause_id); ("text", text)]
           | _ => ret tt
           end);;;
      print ("Parsed Regulations from " ++ data_dir)
  | FileNotFoundError =>
      print ("Warning: " ++ file_path ++ " not found. Skipping regulations.")
  | Exception e => print ("Error parsing regulations: " ++ e)
  end.

(** The text of the query that links a requirement to its regulation. *)
Definition derives_from_query : string :=
  nl ++ spaces 20 ++ "MATCH (req:Requirement {id: $req_id})"
  ++ nl ++ spaces 20 ++ "MATCH (reg:Regulation {id: $reg_id})"
  ++ nl ++ spaces 20 ++ "MERGE (req)-[:DERIVES_FROM]->(reg)"
  ++ nl ++ spaces 20.

(** [parse_reqs(driver, data_dir)] *)
Definition parse_reqs (data_dir : string) (file : opened) : W unit :=
  let file_path := path_join data_dir "reqs.txt" in
  match file with
  | Decrypted decrypted_content =>
      for_each (splitlines decrypted_content)
        (fun line =>
           match re.match_ false REQ_PATTERN line with
           | Some [req_id; reg_id; text] =>
               run_query "MERGE (r:Requirement {id: $id}) SET r.text = $text"
                 [("id", req_id); ("text", text)];;;
               run_query derives_from_query [("req_id", req_id); ("reg_id", reg_id)]
           | _ => ret tt
           end);;;
      print ("Parsed Requirements from " ++ data_dir)
  | FileNotFoundError =>
      print ("Warning: " ++ file_path ++ " not found. Skipping requirements.")
  | Exception e => print ("Error parsing requirements: " ++ e)
  end.

(** A commit of the repository: [commit.hexsha], [commit.message] and
    [str(commit.author)]. *)
Record commit : Type := mkCommit {
  hexsha : string;
  message : string;
  author : string
}.

(** The texts of the two queries for a commit. *)
Definition commit_query : string :=
  nl ++ spaces 16 ++ "MERGE (c:CodeCommit {id: $id}) "
  ++ nl ++ spaces 16 ++ "SET c.message = $msg, c.author = $author"
  ++ nl ++ spaces 16.

Definition implements_query : string :=
  nl ++ spaces 16 ++ "MATCH (c:CodeCommit {id: $commit_id})"
  ++ nl ++ spaces 16 ++ "MATCH (req:Requirement {id: $req_id})"
  ++ nl ++ spaces 16 ++ "MERGE (c)-[:IMPLEMENTS]->(req)"
  ++ nl ++ spaces 16.

(** [_parse_commits(driver, repo_object)]. [commits] is what
    [repo_object.iter_commits()] yields. *)
Definition _parse_commits (commits : list commit) : W unit :=
  for_each commits
    (fun commit =>
       match re.search true COMMIT_PATTERN (message commit) with
       | Some (req_id :: _) =>
           let commit_id := hexsha commit in
           run_query commit_query
             [("id", commit_id); ("msg", message commit); ("author", author commit)];;;
           run_query implements_query [("commit_id", commit_id); ("req_id", req_id)]
       | _ => ret tt
       end);;;
  print "Parsed Git Commits.".

End parsers.

(** ** The formats the extraction asks the model for *)

Module Formats.
Import PyText.

(** A line of [REG_PROMPT]. *)
Definition clause_line (id text : string) : string :=
  "[CLAUSE: " ++ id ++ "] " ++ text.

(** A line of [REQ_PROMPT]. *)
Definition requirement_line (req_id clause_id text : string) : string :=
  "[REQ: " ++ req_id ++ "] [DERIVES_FROM: " ++ clause_id ++ "] " ++ text.

(** An identifier: one line without a closing bracket. *)
Definition identifier (s : string) : bool :=
  negb (has_char "]"%char s) && one_line s.

Record clause : Type := mkClause { clause_id : string; clause_text : string }.

Record requirement : Type := mkRequirement {
  requirement_id : string;
  derives_from : string;
  requirement_text : string
}.

Definition clause_ok (c : clause) : bool :=
  identifier (clause_id c) && one_line (clause_text c).

Definition requirement_ok (r : requirement) : bool :=
  identifier (requirement_id r) && identifier (derives_from r)
  && one_line (requirement_text r).

End Formats.

(** ** Further tables and records *)

Module Cases.
Import Py.

(** The table of E2E-4 with its two rows exchanged and relabelled. *)
Definition e2e4_swapped : pd.DataFrame :=
  pd.mkDataFrame ["HAS_CODE"; "HAS_RISK"; "HAS_TEST"; "id"]
    [(5, [CBool true; CBool false; CBool true; CStr "REQ-8"]);
     (9, [CBool true; CBool true; CBool false; CStr "REQ-7"])].

Definition swapped_state : Run.state :=
  Run.mkState [Spec.e2e4_table; Spec.e2e4_rules; e2e4_swapped] [].

(** Three requirements with a risk, two of them tested; the second
    record of REQ-3 carries another text. *)
Definition three_records : list mining.record :=
  [mining.mkRecord "REQ-1" "The pump shall stop on alarm." "HAS_TEST" "HAS_CODE" "HAS_RISK";
   mining.mkRecord "REQ-3" "The dose shall be limited." "NO_TEST" "HAS_CODE" "HAS_RISK";
   mining.mkRecord "REQ-2" "The log shall be kept." "HAS_TEST" "NO_CODE" "HAS_RISK";
   mining.mkRecord "REQ-3" "The dose shall be bounded." "NO_TEST" "HAS_CODE" "HAS_RISK"].

(** A table without the column [id], on which the one row violates the
    rule of E2E-2. *)
Definition anonymous_table : pd.DataFrame :=
  pd.mkDataFrame ["HAS_RISK"; "HAS_TEST"] [(0, [CBool true; CBool false])].

Definition anonymous_state : Run.state :=
  Run.mkState [anonymous_table; Spec.e2e2_rules] [].

(** The table of E2E-3, built from no record: no row. A table whose one
    row holds no item, so that no item set is frequent. The table of
    E2E-1, on which rules are mined and none predicts HAS_TEST. *)
Definition no_rows_table : pd.DataFrame := pd.mkDataFrame ["id"] [].

Definition no_item_table : pd.DataFrame :=
  pd.mkDataFrame ["HAS_RISK"; "HAS_TEST"; "id"]
    [(0, [CBool false; CBool false; CStr "REQ-1"])].

Definition e2e1_table : pd.DataFrame := Aux.feature_frame Spec.e2e1_records.

(** A script run that starts with an empty store and no suggestions in
    the session state. *)
Definition first_run : streamlit.script :=
  streamlit.mkScript (Run.mkState [] []) None.

(** A model that answers every call with a test for the requirement,
    and one whose calls all fail. *)
Definition steady_model (call : nat) (prompt : string) : llm.reply :=
  llm.Content " T-101,Test_Dose_Limit,PENDING ".

Definition failing_model (call : nat) (prompt : string) : llm.reply :=
  llm.Failure "Connection error: host unreachable, retrying, giving up".

Definition a_pattern : suggestions.pattern :=
  suggestions.mkPattern (CStr "REQ-3") "The dose shall be limited.".

(** Two clauses and two requirements, as the extraction writes them. *)
Definition two_clauses : list Formats.clause :=
  [Formats.mkClause "A.1" "Records shall be kept for five years.";
   Formats.mkClause "A.2" "The pump shall stop on alarm [see annex]."].

Definition two_requirements : list Formats.requirement :=
  [Formats.mkRequirement "REQ-1" "A.2" "The pump shall stop within 2 s.";
   Formats.mkRequirement "REQ-2" "A.1" "The log shall be kept."].

(** A commit with two tags, the first in lower case. *)
Definition tagged_commit : parsers.commit :=
  parsers.mkCommit "3f2a9c1"
    "Stop the pump [implements: REQ-1] and keep the log [IMPLEMENTS: REQ-2]"
    "Ada".

Definition empty_world : graph_db.world := graph_db.mkWorld [] [].

End Cases.

(** ** Hash randomisation: the iteration order of a frozenset *)

Module Hash.
Import Py Run.
Local Open Scope run_scope.

(** Python draws the hash of a str anew for each interpreter process,
    and a frozenset of strs iterates in an order that follows the hashes
    of its items: two processes list the items of one frozenset in two
    orders. An [order] stands for one process: it gives the order in
    which the items of a frozenset come, for the frozenset of the items
    it is given. *)
Definition order : Type := list string -> list string.

(** An order lists every item once more and no other. *)
Definition rearranges (o : order) : Prop := forall l, Permutation (o l) l.

(** Two orders: the one in which the items are written, which is the
    order of the embedding of [mining.py] above, and the reverse of the
    alphabetical order, whatever the order in which the items are
    written. *)
Definition as_listed : order := fun l => l.

Fixpoint insert_descending (x : string) (l : list string) : list string :=
  match l with
  | [] => [x]
  | y :: l' =>
      match String.compare x y with
      | Lt => y :: insert_descending x l'
      | _ => x :: l
      end
  end.

Definition descending : order := fun l => fold_right insert_descending [] l.

(** A value, and a frame, as the process of the order [o] holds them. *)
Definition cell_in (o : order) (x : cell) : cell :=
  match x with
  | CSet l => CSet (o l)
  | _ => x
  end.

Definition frame_in (o : order) (v : pd.DataFrame) : pd.DataFrame :=
  pd.mkDataFrame (pd.columns v)
    (map (fun r => (fst r, map (cell_in o) (snd r))) (pd.rows v)).

(** [apriori] and [association_rules], as they are modelled above, in
    the process of the order [o]: the frozensets of the frame they
    answer iterate in that order. [association_rules] draws the
    antecedents of a frequent item set from its items as they come in
    the frame it is given, so that the order of its rows, and with it
    their index labels, follows the order of the process as well. *)
Definition apriori (o : order) (df : loc) (min_support : float) : M loc :=
  v <- load df;; r <- lift (mlxtend.apriori_frame v min_support);; alloc (frame_in o r).

Definition association_rules (o : order) (fi : loc) (min_threshold : float) : M loc :=
  v <- load fi;; r <- lift (mlxtend.association_rules_frame v min_threshold);;
  alloc (frame_in o r).

(** [discover_rules(df)] in the process of the order [o]. *)
Definition discover_rules (o : order) (df : loc) : M loc :=
  print "Mining: Running Apriori to find frequent itemsets...";;;
  df_mining <- DF.drop df ["id"];;
  frequent_itemsets <- apriori o df_mining (Fin (1 # 100));;
  is_empty <- DF.empty frequent_itemsets;;
  if is_empty then
    print "Mining: No frequent itemsets found.";;;
    DF.new
  else
    print "Mining: Generating association rules...";;;
    rules <- association_rules o frequent_itemsets (Fin (1 # 2));;
    is_empty <- DF.empty rules;;
    if is_empty then
      print "Mining: No association rules found.";;;
      DF.new
    else
      consequents <- DF.getitem rules "consequents";;
      consequents_str <- lift (pd.astype_str consequents);;
      DF.setitem rules "consequents_str" consequents_str;;;
      consequents_str <- DF.getitem rules "consequents_str";;
      rules_about_testing <-
        DF.getitem_mask rules
          (pd.series_eq consequents_str (CStr "frozenset({'HAS_TEST'})"));;
      is_empty <- DF.empty rules_about_testing;;
      if is_empty then
        print "Mining: No rules were found that predict 'HAS_TEST'.";;;
        DF.new
      else
        n <- DF.len rules_about_testing;;
        print ("Mining: Found " ++ mining.str_nat n ++ " rules that predict 'HAS_TEST'.");;;
        ret rules_about_testing.

(** What a run of [discover_rules] computes in the process of the order
    [o], apart from where it allocates it. *)
Definition mined (o : order) (v : pd.DataFrame) : result pd.DataFrame :=
  (df_mining <- pd.drop v ["id"];;
   frequent_itemsets <- mlxtend.apriori_frame df_mining (Fin (1 # 100));;
   if pd.empty (frame_in o frequent_itemsets) then Ok pd.new
   else
     rules <- mlxtend.association_rules_frame (frame_in o frequent_itemsets) (Fin (1 # 2));;
     if pd.empty (frame_in o rules) then Ok pd.new
     else
       rules_about_testing <- Pure.about_testing (frame_in o rules);;
       if pd.empty rules_about_testing then Ok pd.new
       else Ok rules_about_testing)%res.

(** Two lists hold the same elements up to [R], each as many times, in
    any order. *)
Definition similar {A} (R : A -> A -> Prop) (l1 l2 : list A) : Prop :=
  exists m, Permutation l1 m /\ Forall2 R m l2.

(** The same value in two processes: a frozenset has the same items. *)
Definition same_cell (x y : cell) : Prop :=
  match x, y with
  | CSet a, CSet b => Permutation a b
  | _, _ => x = y
  end.

(** The same rule set: the same columns and, up to the order of the
    rows and their index labels, the same rows. *)
Definition same_rules (rv1 rv2 : pd.DataFrame) : Prop :=
  pd.columns rv1 = pd.columns rv2 /\
  similar (Forall2 same_cell) (map snd (pd.rows rv1)) (map snd (pd.rows rv2)).

(** Two gap records of the same row and the same rule: the identifier,
    the confidence, and a text that lists the same items. *)
Definition same_gap (g1 g2 : mining.gap) : Prop :=
  mining.gap_id g1 = mining.gap_id g2 /\
  same_cell (mining.gap_confidence g1) (mining.gap_confidence g2) /\
  exists a1 c1 a2 c2,
    mining.violated_rule g1
    = ("Rule: IF " ++ str_list a1 ++ " THEN " ++ str_list c1)%string /\
    mining.violated_rule g2
    = ("Rule: IF " ++ str_list a2 ++ " THEN " ++ str_list c2)%string /\
    Permutation a1 a2 /\ Permutation c1 c2.

(** The same rule of [association_rules] in two processes. *)
Definition same_rule (r1 r2 : mlxtend.rule) : Prop :=
  Permutation (mlxtend.antecedents r1) (mlxtend.antecedents r2) /\
  Permutation (mlxtend.consequents r1) (mlxtend.consequents r2) /\
  mlxtend.antecedent_support r1 = mlxtend.antecedent_support r2 /\
  mlxtend.consequent_support r1 = mlxtend.consequent_support r2 /\
  mlxtend.rule_support r1 = mlxtend.rule_support r2 /\
  mlxtend.confidence r1 = mlxtend.confidence r2.

(** The same dict in two processes: the same keys in the order of
    their insertion, with the same values. *)
Definition same_dict (d1 d2 : mlxtend.dict) : Prop :=
  Forall2 (fun e1 e2 => Permutation (fst e1) (fst e2) /\ snd e1 = snd e2) d1 d2.

(** A rule and an item set in the process of the order [o]. *)
Definition rule_in (o : order) (r : mlxtend.rule) : mlxtend.rule :=
  mlxtend.mkRule (o (mlxtend.antecedents r)) (o (mlxtend.consequents r))
    (mlxtend.antecedent_support r) (mlxtend.consequent_support r)
    (mlxtend.rule_support r) (mlxtend.confidence r).

Definition itemset_in (o : order) (p : float * list string) : float * list string :=
  (fst p, o (snd p)).

End Hash.

(** Two records with code and a risk, one of them without a test, and
    the rule set [discover_rules] returns for them where the items come
    as they are written: three rules of confidence 1/2, one of them with
    two antecedent items. *)
Module TwoProcesses.
Import Py.

Definition pair_records : list mining.record :=
  [mining.mkRecord "REQ-1" "The pump shall stop on alarm." "HAS_TEST" "HAS_CODE" "HAS_RISK";
   mining.mkRecord "REQ-2" "The dose shall be limited." "NO_TEST" "HAS_CODE" "HAS_RISK"].

Definition pair_table : pd.DataFrame := Aux.feature_frame pair_records.

Definition pair_rule (label : nat) (antecedents : list string) : nat * list cell :=
  (label,
   [CSet antecedents; CSet ["HAS_TEST"]; CFloat (Fin 1); CFloat (Fin (1 # 2));
    CFloat (Fin (1 # 2)); CFloat (Fin (1 # 2)); CStr "frozenset({'HAS_TEST'})"]).

Definition pair_rules : pd.DataFrame :=
  pd.mkDataFrame (mlxtend.rule_columns ++ ["consequents_str"])
    [pair_rule 2 ["HAS_CODE"]; pair_rule 6 ["HAS_RISK"];
     pair_rule 10 ["HAS_CODE"; "HAS_RISK"]].

(** The gap record of REQ-2 for the rule with the given antecedents, as
    they are listed. *)
Definition pair_gap (antecedents : list string) : mining.gap :=
  mining.mkGap (CStr "REQ-2")
    ("Rule: IF " ++ str_list antecedents ++ " THEN ['HAS_TEST']")
    (CFloat (Fin (1 # 2))).

(** A store that holds the table and the rule set as the process of the
    order [o] holds it. *)
Definition process (o : Hash.order) : Run.state :=
  Run.mkState [pair_table; Hash.frame_in o pair_rules] [].

End TwoProcesses.

(** ** Facts about runs *)

Section Runs.
Import Py Run Sem.

Lemma grows_refl st : grows st st.
Proof.
  exists [], []. destruct st as [h c]. simpl. by rewrite !app_nil_r.
Qed.

Lemma grows_trans st1 st2 st3 : grows st1 st2 -> grows st2 st3 -> grows st1 st3.
Proof.
  intros (n1 & o1 & ->) (n2 & o2 & ->). simpl.
  exists (n1 ++ n2), (o1 ++ o2). by rewrite !app_assoc.
Qed.

Lemma grows_lookup st st' l (v : pd.DataFrame) :
  grows st st' -> heap st !! l = Some v -> heap st' !! l = Some v.
Proof.
  intros (n & o & ->) H. simpl. by apply lookup_app_l_Some.
Qed.

Lemma grows_print st s : grows st (mkState (heap st) (console st ++ [s])).
Proof. exists [], [s]. by rewrite app_nil_r. Qed.

Lemma grows_alloc st v : grows st (mkState (heap st ++ [v]) (console st)).
Proof. exists [v], []. by rewrite app_nil_r. Qed.

Lemma lookup_alloc (h : list pd.DataFrame) v : (h ++ [v]) !! length h = Some v.
Proof. by rewrite list_lookup_middle. Qed.

Lemma bind_ok {A B} (c : M A) (k : A -> M B) st a st' :
  c st = (Ok a, st') -> bind c k st = k a st'.
Proof. intros H. unfold bind. by rewrite H. Qed.

Lemma bind_raise {A B} (c : M A) (k : A -> M B) st e st' :
  c st = (Raise e, st') -> bind c k st = (Raise e, st').
Proof. intros H. unfold bind. by rewrite H. Qed.

Lemma bind_assoc {A B C} (c : M A) (k1 : A -> M B) (k2 : B -> M C) st :
  bind (bind c k1) k2 st = bind c (fun x => bind (k1 x) k2) st.
Proof. unfold bind. by destruct (c st) as [[a|e] st']. Qed.

Lemma load_run st l v : heap st !! l = Some v -> load l st = (Ok v, st).
Proof. intros H. unfold load. by rewrite H. Qed.

Lemma load_dangling st l : heap st !! l = None -> load l st = (Raise NameError, st).
Proof. intros H. unfold load. by rewrite H. Qed.

Lemma has_column_run st df v c :
  heap st !! df = Some v -> DF.has_column df c st = (Ok (pd.has_column v c), st).
Proof. intros H. unfold DF.has_column. by rewrite (bind_ok _ _ _ _ _ (load_run _ _ _ H)). Qed.

Lemma empty_run st df v :
  heap st !! df = Some v -> DF.empty df st = (Ok (pd.empty v), st).
Proof. intros H. unfold DF.empty. by rewrite (bind_ok _ _ _ _ _ (load_run _ _ _ H)). Qed.

Lemma len_run st df v :
  heap st !! df = Some v -> DF.len df st = (Ok (length (pd.rows v)), st).
Proof. intros H. unfold DF.len. by rewrite (bind_ok _ _ _ _ _ (load_run _ _ _ H)). Qed.

Lemma iterrows_run st df v :
  heap st !! df = Some v -> DF.iterrows df st = (Ok (pd.iterrows v), st).
Proof. intros H. unfold DF.iterrows. by rewrite (bind_ok _ _ _ _ _ (load_run _ _ _ H)). Qed.

Lemma getitem_run st df v c :
  heap st !! df = Some v -> DF.getitem df c st = (pd.getitem v c, st).
Proof. intros H. unfold DF.getitem. by rewrite (bind_ok _ _ _ _ _ (load_run _ _ _ H)). Qed.

Lemma getitem_mask_run st df v mask :
  heap st !! df = Some v ->
  DF.getitem_mask df mask st =
    (Ok (length (heap st)), mkState (heap st ++ [pd.getitem_mask v mask]) (console st)).
Proof. intros H. unfold DF.getitem_mask. by rewrite (bind_ok _ _ _ _ _ (load_run _ _ _ H)). Qed.

Lemma for_each_cons {A S} (x : A) l (s : S) body :
  Loop.for_each (x :: l) s body
  = bind (body s x) (fun s' => Loop.for_each l s' body).
Proof. reflexivity. Qed.

Lemma answers_ret st l v : heap st !! l = Some v -> answers (ret l) st (Ok v).
Proof. intros H. exists st. split; [apply grows_refl|]. by exists l. Qed.

Lemma answers_raise (c : M loc) st st' e :
  c st = (Raise e, st') -> grows st st' -> answers c st (Raise e).
Proof. intros H G. by exists st'. Qed.

Lemma answers_step (c c' : M loc) st st1 r :
  c' st = c st1 -> grows st st1 -> answers c st1 r -> answers c' st r.
Proof.
  intros E G (st' & G' & H). exists st'. split; [by eapply grows_trans|].
  destruct r; [destruct H as (l & H1 & H2); exists l|]; by rewrite E.
Qed.

Lemma narrow_cons df item items b cur st :
  mining.narrow df (item :: items) b cur st
  = bind (DF.has_column df item)
      (fun is_column =>
         bind (if is_column then
                 bind (DF.getitem cur item)
                   (fun col => DF.getitem_mask cur (pd.series_eq col b))
               else ret cur)
           (fun cur' => mining.narrow df items b cur')) st.
Proof. unfold mining.narrow. by rewrite for_each_cons, bind_assoc. Qed.

Lemma narrow_run b df v items : forall st cur cv,
  heap st !! df = Some v -> heap st !! cur = Some cv ->
  answers (mining.narrow df items b cur) st (Pure.narrow v items b cv).
Proof.
  induction items as [|item items IH]; intros st cur cv Hdf Hcur.
  - by apply answers_ret.
  - pose proof (narrow_cons df item items b cur st) as E.
    rewrite (bind_ok _ _ _ _ _ (has_column_run _ _ _ _ Hdf)) in E.
    simpl Pure.narrow.
    destruct (pd.has_column v item) eqn:Hcol.
    + rewrite bind_assoc in E.
      destruct (pd.getitem cv item) as [col|e] eqn:Hget; simpl rbind.
      * set (new := pd.getitem_mask cv (pd.series_eq col b)).
        apply (answers_step (mining.narrow df items b (length (heap st))) _ st
                 (mkState (heap st ++ [new]) (console st))).
        -- rewrite E.
           erewrite (bind_ok (DF.getitem _ _)); [|by rewrite (getitem_run _ _ _ _ Hcur), Hget].
           by rewrite (bind_ok _ _ _ _ _ (getitem_mask_run _ _ _ _ Hcur)).
        -- apply grows_alloc.
        -- apply (IH _ _ new); simpl; [by apply lookup_app_l_Some | apply lookup_alloc].
      * eapply answers_raise; [|apply grows_refl].
        rewrite E.
        erewrite (bind_raise (DF.getitem _ _)); [done|].
        by rewrite (getitem_run _ _ _ _ Hcur), Hget.
    + apply (answers_step (mining.narrow df items b cur) _ st st);
        [by rewrite E|apply grows_refl|by apply (IH _ _ cv)].
Qed.

Lemma rbind_assoc {A B C} (r : result A) (f : A -> result B) (g : B -> result C) :
  rbind (rbind r f) g = rbind r (fun x => rbind (f x) g).
Proof. by destruct r. Qed.

Lemma returns_bind_ok {A B} (c : M A) (k : A -> M B) st a st1 r :
  c st = (Ok a, st1) -> grows st st1 -> returns (k a) st1 r -> returns (bind c k) st r.
Proof.
  intros E G (st' & H & G'). exists st'. split; [|by eapply grows_trans].
  by rewrite (bind_ok _ _ _ _ _ E).
Qed.

Lemma returns_bind_raise {A B} (c : M A) (k : A -> M B) st e st1 :
  c st = (Raise e, st1) -> grows st st1 -> returns (bind c k) st (Raise e).
Proof. intros E G. exists st1. split; [|done]. by rewrite (bind_raise _ _ _ _ _ E). Qed.

Lemma returns_lift {A B} (r : result A) (k : A -> M B) st (f : A -> result B) :
  (forall a, r = Ok a -> returns (k a) st (f a)) ->
  returns (bind (lift r) k) st (rbind r f).
Proof.
  intros H. destruct r as [a|e]; simpl.
  - eapply returns_bind_ok; [reflexivity|apply grows_refl|by apply H].
  - eapply returns_bind_raise; [reflexivity|apply grows_refl].
Qed.

Lemma returns_answers {B} (c : M loc) (k : loc -> M B) st r (f : pd.DataFrame -> result B) :
  answers c st r ->
  (forall l v st1, grows st st1 -> heap st1 !! l = Some v -> returns (k l) st1 (f v)) ->
  returns (bind c k) st (rbind r f).
Proof.
  intros (st1 & G & H) K. destruct r as [v|e]; simpl.
  - destruct H as (l & E & Hl).
    eapply returns_bind_ok; [exact E|exact G|by apply K].
  - eapply returns_bind_raise; [exact H|exact G].
Qed.

Lemma append_gap_run rule ants cons exceptions iv st :
  mining.append_gap rule ants cons exceptions iv st
  = (rbind (Pure.gap_of rule ants cons iv) (fun g => Ok (exceptions ++ [g])), st).
Proof.
  destruct iv as [i violation]. unfold mining.append_gap, Pure.gap_of. simpl.
  destruct (pd.series_getitem violation "id") as [vid|e]; [|done].
  erewrite (bind_ok (lift _)); [|reflexivity].
  destruct (pd.series_getitem rule "confidence") as [conf|e]; [|done].
  by erewrite (bind_ok (lift _)).
Qed.

Lemma append_gaps_run rule ants cons vs : forall exceptions st,
  Loop.for_each vs exceptions (mining.append_gap rule ants cons) st
  = (rbind (rmap (Pure.gap_of rule ants cons) vs) (fun gs => Ok (exceptions ++ gs)), st).
Proof.
  induction vs as [|iv vs IH]; intros exceptions st.
  - simpl. by rewrite app_nil_r.
  - rewrite for_each_cons. simpl rmap.
    destruct (Pure.gap_of rule ants cons iv) as [g|e] eqn:Hg.
    + erewrite bind_ok; [|by rewrite append_gap_run, Hg].
      rewrite IH. simpl.
      destruct (rmap (Pure.gap_of rule ants cons) vs) as [gs|e]; simpl;
        [by rewrite <- app_assoc | done].
    + erewrite bind_raise; [done|]. by rewrite append_gap_run, Hg.
Qed.

Lemma check_rule_run df v exceptions index rule st :
  heap st !! df = Some v ->
  returns (mining.check_rule df exceptions (index, rule)) st
    (rbind (Pure.rule_gaps v rule) (fun gs => Ok (exceptions ++ gs))).
Proof.
  intros Hdf. unfold mining.check_rule, Pure.rule_gaps.
  rewrite rbind_assoc.
  apply returns_lift. intros a _. cbv beta. rewrite rbind_assoc.
  apply returns_lift. intros ants _. cbv beta. rewrite rbind_assoc.
  apply returns_lift. intros c _. cbv beta. rewrite rbind_assoc.
  apply returns_lift. intros cons _. cbv beta. rewrite rbind_assoc.
  eapply returns_answers; [by eapply narrow_run|].
  intros l1 v1 st1 G1 H1. cbv beta. rewrite rbind_assoc.
  eapply returns_answers; [eapply narrow_run; [by eapply grows_lookup|done]|].
  intros l2 v2 st2 G2 H2. cbv beta.
  eapply returns_bind_ok; [by apply iterrows_run|apply grows_refl|].
  exists st2. split; [apply append_gaps_run|apply grows_refl].
Qed.

Lemma check_rules_run df v rules : forall exceptions st,
  heap st !! df = Some v ->
  returns (Loop.for_each rules exceptions (mining.check_rule df)) st
    (Pure.gaps v rules exceptions).
Proof.
  induction rules as [|[index rule] rules IH]; intros exceptions st Hdf.
  - exists st. split; [done|apply grows_refl].
  - rewrite for_each_cons. simpl Pure.gaps.
    destruct (check_rule_run df v exceptions index rule st Hdf) as (st1 & E & G).
    destruct (Pure.rule_gaps v rule) as [gs|e]; simpl in *.
    + eapply returns_bind_ok; [exact E|exact G|]. apply IH. by eapply grows_lookup.
    + eapply returns_bind_raise; [exact E|exact G].
Qed.

Lemma find_exceptions_run df rules v rv st :
  heap st !! df = Some v -> heap st !! rules = Some rv ->
  returns (mining.find_exceptions df rules) st (Pure.find_exceptions v rv).
Proof.
  intros Hdf Hrules. unfold mining.find_exceptions, Pure.find_exceptions.
  eapply returns_bind_ok; [reflexivity|apply grows_print|].
  eapply returns_bind_ok; [by apply iterrows_run|apply grows_refl|].
  by apply check_rules_run.
Qed.

Lemma setitem_run st df v c vals :
  heap st !! df = Some v ->
  DF.setitem df c vals st
  = match pd.setitem v c vals with
    | Ok v' => (Ok tt, mkState (<[df := v']> (heap st)) (console st))
    | Raise e => (Raise e, st)
    end.
Proof.
  intros H. unfold DF.setitem. rewrite (bind_ok _ _ _ _ _ (load_run _ _ _ H)).
  unfold bind, lift. by destruct (pd.setitem v c vals).
Qed.

Lemma insert_alloc (h : list pd.DataFrame) v v' : <[length h := v']> (h ++ [v]) = h ++ [v'].
Proof.
  rewrite insert_app_r_alt by lia. by rewrite Nat.sub_diag.
Qed.

Lemma answers_ok (c : M loc) st st' l v :
  c st = (Ok l, st') -> grows st st' -> heap st' !! l = Some v -> answers c st (Ok v).
Proof. intros E G H. exists st'. split; [done|]. by exists l. Qed.

Lemma grows_intro h c h' c' new out :
  h' = h ++ new -> c' = c ++ out -> grows (mkState h c) (mkState h' c').
Proof. intros -> ->. by exists new, out. Qed.

Ltac grown :=
  eapply grows_intro; simpl; rewrite <- ?app_assoc;
  first [reflexivity | symmetry; apply app_nil_r].

Lemma discover_rules_run df v st :
  heap st !! df = Some v ->
  answers (mining.discover_rules df) st (Pure.discover_rules v).
Proof.
  intros Hdf. destruct st as [h out]. simpl in Hdf.
  pose proof (eq_refl (mining.discover_rules df (mkState h out))) as E.
  unfold mining.discover_rules at 2 in E. unfold Pure.discover_rules.
  erewrite bind_ok in E; [|reflexivity]. simpl heap in E; simpl console in E.
  unfold DF.drop at 1 in E. rewrite bind_assoc in E.
  erewrite (bind_ok (load df)) in E; [|by apply load_run].
  rewrite bind_assoc in E.
  destruct (pd.drop v ["id"]) as [dm|e]; simpl rbind;
    [|eapply answers_raise; [exact E|grown]].
  erewrite (bind_ok (lift _)) in E; [|reflexivity].
  erewrite (bind_ok (alloc _)) in E; [|reflexivity]. simpl heap in E; simpl console in E.
  unfold mlxtend.apriori at 1 in E. rewrite bind_assoc in E.
  erewrite (bind_ok (load _)) in E; [|apply load_run, lookup_alloc].
  rewrite bind_assoc in E.
  destruct (mlxtend.apriori_frame dm (Fin (1 # 100))) as [fi|e]; simpl rbind;
    [|eapply answers_raise; [exact E|grown]].
  erewrite (bind_ok (lift _)) in E; [|reflexivity].
  erewrite (bind_ok (alloc _)) in E; [|reflexivity]. simpl heap in E; simpl console in E.
  erewrite (bind_ok (DF.empty _)) in E; [|apply empty_run, lookup_alloc].
  destruct (pd.empty fi).
  { eapply answers_ok; [exact E|grown|apply lookup_alloc]. }
  erewrite bind_ok in E; [|reflexivity]. simpl heap in E; simpl console in E.
  unfold mlxtend.association_rules at 1 in E. rewrite bind_assoc in E.
  erewrite (bind_ok (load _)) in E; [|apply load_run, lookup_alloc].
  rewrite bind_assoc in E.
  destruct (mlxtend.association_rules_frame fi (Fin (1 # 2))) as [rules|e]; simpl rbind;
    [|eapply answers_raise; [exact E|grown]].
  erewrite (bind_ok (lift _)) in E; [|reflexivity].
  erewrite (bind_ok (alloc _)) in E; [|reflexivity]. simpl heap in E; simpl console in E.
  erewrite (bind_ok (DF.empty _)) in E; [|apply empty_run, lookup_alloc].
  destruct (pd.empty rules).
  { eapply answers_ok; [exact E|grown|apply lookup_alloc]. }
  unfold Pure.about_testing. rewrite !rbind_assoc.
  destruct (pd.getitem rules "consequents") as [cs|e] eqn:Hcs; simpl rbind.
  2:{ erewrite bind_raise in E; [|by erewrite getitem_run; [rewrite Hcs|apply lookup_alloc]].
      eapply answers_raise; [exact E|grown]. }
  erewrite bind_ok in E; [|by erewrite getitem_run; [rewrite Hcs|apply lookup_alloc]].
  rewrite !rbind_assoc.
  destruct (pd.astype_str cs) as [cs_str|e]; simpl rbind;
    [|eapply answers_raise; [exact E|grown]].
  erewrite (bind_ok (lift _)) in E; [|reflexivity]. rewrite !rbind_assoc.
  destruct (pd.setitem rules "consequents_str" cs_str) as [rules'|e] eqn:Hset; simpl rbind.
  2:{ erewrite bind_raise in E; [|by erewrite setitem_run; [rewrite Hset|apply lookup_alloc]].
      eapply answers_raise; [exact E|grown]. }
  erewrite bind_ok in E; [|by erewrite setitem_run; [rewrite Hset|apply lookup_alloc]].
  simpl heap in E; simpl console in E.
  rewrite insert_alloc in E. rewrite !rbind_assoc.
  destruct (pd.getitem rules' "consequents_str") as [col|e] eqn:Hcol; simpl rbind.
  2:{ erewrite bind_raise in E; [|by erewrite getitem_run; [rewrite Hcol|apply lookup_alloc]].
      eapply answers_raise; [exact E|grown]. }
  erewrite bind_ok in E; [|by erewrite getitem_run; [rewrite Hcol|apply lookup_alloc]].
  erewrite (bind_ok (DF.getitem_mask _ _)) in E; [|apply getitem_mask_run, lookup_alloc].
  simpl heap in E; simpl console in E.
  erewrite (bind_ok (DF.empty _)) in E; [|apply empty_run, lookup_alloc].
  destruct (pd.empty _).
  { eapply answers_ok; [exact E|grown|apply lookup_alloc]. }
  erewrite (bind_ok (DF.len _)) in E; [|apply len_run, lookup_alloc].
  erewrite bind_ok in E; [|reflexivity].
  eapply answers_ok; [exact E|grown|apply lookup_alloc].
Qed.

End Runs.

Import Aux.

(** ** Facts about frames *)

Section Frames.
Import Py.

Lemma assoc_combine c cols (cells : list cell) :
  pd.assoc c (combine cols cells) = pd.cell_at cols cells c.
Proof.
  unfold pd.cell_at. revert cells.
  induction cols as [|d cols IH]; intros [|x cells]; simpl; try done.
  - by destruct (String.eqb c d), (pd.position c cols).
  - destruct (String.eqb c d); [done|]. rewrite IH.
    by destruct (pd.position c cols).
Qed.

Lemma position_lt c cols j : pd.position c cols = Some j -> j < length cols.
Proof.
  revert j. induction cols as [|d cols IH]; intros j; simpl; [done|].
  destruct (String.eqb c d); [intros [= <-]; lia|].
  destruct (pd.position c cols) as [i|]; [|done].
  intros [= <-]. specialize (IH i eq_refl). lia.
Qed.

Lemma has_column_position v c :
  pd.has_column v c = true <-> exists j, pd.position c (pd.columns v) = Some j.
Proof.
  unfold pd.has_column. induction (pd.columns v) as [|d cols IH]; simpl.
  - split; [done|by intros [j ?]].
  - destruct (String.eqb c d); simpl; [split; eauto|].
    rewrite IH. split; intros [j H].
    + rewrite H. by eexists.
    + destruct (pd.position c cols); [by eexists|done].
Qed.

Lemma has_column_In v c : pd.has_column v c = true <-> In c (pd.columns v).
Proof.
  unfold pd.has_column. rewrite existsb_exists. split.
  - intros (d & H & E). apply String.eqb_eq in E. by subst.
  - intros H. exists c. split; [done|apply String.eqb_refl].
Qed.

Lemma cell_at_Some v c (cells : list cell) :
  pd.has_column v c = true -> length cells = length (pd.columns v) ->
  exists x, pd.cell_at (pd.columns v) cells c = Some x.
Proof.
  intros H L. apply has_column_position in H as [j H]. unfold pd.cell_at. rewrite H.
  apply position_lt in H. destruct (nth_error cells j) eqn:E; [by eexists|].
  apply nth_error_None in E. lia.
Qed.

Lemma filter_and {A} (p q : A -> bool) l :
  List.filter q (List.filter p l) = List.filter (fun x => p x && q x) l.
Proof.
  induction l as [|x l IH]; simpl; [done|].
  destruct (p x); simpl; [|done]. rewrite IH. by destruct (q x).
Qed.

Lemma filter_map_comm {A B} (f : A -> B) (p : B -> bool) l :
  List.filter p (map f l) = map f (List.filter (fun x => p (f x)) l).
Proof.
  induction l as [|x l IH]; simpl; [done|]. rewrite IH. by destruct (p (f x)).
Qed.

Lemma getitem_select cols rs c b :
  In c cols -> Forall (full cols) rs ->
  exists col, pd.getitem (pd.mkDataFrame cols rs) c = Ok col /\
    pd.select rs (pd.series_eq col (CBool b))
    = List.filter (fun r => Spec.cell_is b (snd (series cols r)) c) rs.
Proof.
  intros Hc. unfold pd.getitem.
  rewrite (proj2 (has_column_In (pd.mkDataFrame cols rs) c) Hc). simpl.
  induction rs as [|r rs IH]; intros Hrs; simpl.
  - by exists [].
  - apply Forall_cons in Hrs as [Hr Hrs]. destruct (IH Hrs) as (col & E & S).
    destruct (cell_at_Some (pd.mkDataFrame cols []) c (snd r)) as [x Hx];
      [by apply has_column_In|done|].
    simpl in Hx. rewrite Hx. simpl. rewrite E. simpl. exists (x :: col). split; [done|].
    simpl. rewrite S. unfold Spec.cell_is. simpl. by rewrite assoc_combine, Hx.
Qed.

Lemma filter_full cols (p : nat * list cell -> bool) rs :
  Forall (full cols) rs -> Forall (full cols) (List.filter p rs).
Proof.
  rewrite !Forall_forall. intros H r Hr. apply list_elem_of_In, filter_In in Hr as [Hr _].
  by apply H, list_elem_of_In.
Qed.

Lemma narrow_filter v b items : forall rs,
  Forall (full (pd.columns v)) rs ->
  Pure.narrow v items (CBool b) (pd.mkDataFrame (pd.columns v) rs)
  = Ok (pd.mkDataFrame (pd.columns v)
          (List.filter (fun r => Spec.agrees v b (snd (series (pd.columns v) r)) items) rs)).
Proof.
  induction items as [|item items IH]; intros rs Hrs; simpl.
  - f_equal. f_equal. induction rs as [|r rs IHrs]; simpl; [done|].
    apply Forall_cons in Hrs as [_ Hrs]. by rewrite <- IHrs.
  - destruct (pd.has_column v item) eqn:Hcol; simpl.
    + destruct (getitem_select (pd.columns v) rs item b) as (col & E & S);
        [by apply has_column_In|done|].
      rewrite E. simpl. unfold pd.getitem_mask. simpl. rewrite S.
      rewrite IH by by apply filter_full. by rewrite filter_and.
    + by rewrite IH.
Qed.

Lemma rmap_ok {A B} (f : A -> result B) (g : A -> B) l :
  (forall x, In x l -> f x = Ok (g x)) -> rmap f l = Ok (map g l).
Proof.
  induction l as [|x l IH]; intros H; simpl; [done|].
  rewrite (H x (or_introl eq_refl)). simpl.
  rewrite IH; [done|]. intros y Hy. apply H. by right.
Qed.

Lemma well_formed_full v :
  Spec.well_formed v = true -> Forall (full (pd.columns v)) (pd.rows v).
Proof.
  unfold Spec.well_formed. intros H. apply andb_true_iff in H as [_ H].
  rewrite forallb_forall in H. apply Forall_forall. intros r Hr.
  apply list_elem_of_In, H in Hr. by apply Nat.eqb_eq in Hr.
Qed.

Lemma iterrows_series v : pd.iterrows v = map (series (pd.columns v)) (pd.rows v).
Proof. reflexivity. Qed.

Lemma rule_gaps_spec v rule :
  Spec.well_formed v = true -> pd.has_column v "id" = true -> Spec.is_rule rule = true ->
  Pure.rule_gaps v rule = Ok (rule_records v rule).
Proof.
  intros Hwf Hid Hrule. pose proof (well_formed_full v Hwf) as Hfull.
  unfold Pure.rule_gaps, rule_records, Spec.is_rule, pd.series_getitem in *.
  unfold Spec.violates_on, Spec.gap_record, Spec.antecedents, Spec.consequents, Spec.cell_of.
  destruct (pd.assoc "antecedents" rule) as [[| |?|a]|]; try done.
  destruct (pd.assoc "consequents" rule) as [[| |?|c]|]; try done.
  destruct (pd.assoc "confidence" rule) as [conf|] eqn:Hconf; try done.
  simpl.
  replace v with (pd.mkDataFrame (pd.columns v) (pd.rows v)) at 2 by by destruct v.
  rewrite narrow_filter by done. simpl.
  rewrite narrow_filter by by apply filter_full. simpl.
  rewrite filter_and. unfold pd.iterrows at 1. simpl.
  rewrite iterrows_series, filter_map_comm.
  apply rmap_ok. intros x Hx. apply in_map_iff in Hx as (r & <- & Hr).
  apply filter_In in Hr as [Hr _].
  unfold Pure.gap_of, pd.series_getitem. simpl. rewrite Hconf, assoc_combine.
  rewrite Forall_forall in Hfull. apply list_elem_of_In, Hfull in Hr.
  destruct (cell_at_Some v "id" (snd r) Hid Hr) as [x ->]. done.
Qed.

Lemma gaps_spec v rules : forall exceptions,
  Spec.well_formed v = true -> pd.has_column v "id" = true ->
  forallb (fun r => Spec.is_rule (snd r)) rules = true ->
  Pure.gaps v rules exceptions
  = Ok (exceptions ++ flat_map (fun r => rule_records v (snd r)) rules).
Proof.
  induction rules as [|r rules IH]; intros exceptions Hwf Hid Hrules; simpl.
  - by rewrite app_nil_r.
  - simpl in Hrules. apply andb_true_iff in Hrules as [Hr Hrules].
    rewrite rule_gaps_spec by done. simpl. rewrite IH by done. by rewrite app_assoc.
Qed.

Lemma find_exceptions_spec v rv :
  Spec.well_formed v = true -> pd.has_column v "id" = true -> Spec.rule_table rv = true ->
  Pure.find_exceptions v rv
  = Ok (flat_map (fun r => rule_records v (snd r)) (pd.iterrows rv)).
Proof. intros. unfold Pure.find_exceptions. by rewrite gaps_spec. Qed.

Lemma feature_table_well_formed v :
  Spec.feature_table v = true ->
  Spec.well_formed v = true /\ pd.has_column v "id" = true.
Proof.
  unfold Spec.feature_table. intros H.
  apply andb_true_iff in H as [H _]. by apply andb_true_iff in H.
Qed.

End Frames.

(** ** Facts about item sets and supports *)

Section Itemsets.
Import Py.

Lemma combinations_sublist {A} n : forall (l c : list A),
  In c (mlxtend.combinations n l) -> c `sublist_of` l /\ length c = n.
Proof.
  induction n as [|n IHn]; intros l c.
  - destruct l; simpl; intros [<-|[]]; split; try done; apply sublist_nil_l.
  - induction l as [|x l IHl]; simpl; [done|].
    rewrite in_app_iff, in_map_iff. intros [(c' & <- & H)|H].
    + apply IHn in H as [H1 H2]. split; [by apply sublist_skip|simpl; lia].
    + apply IHl in H as [H1 H2]. split; [by apply sublist_cons|done].
Qed.

Lemma sublist_combinations {A} (c l : list A) :
  c `sublist_of` l -> In c (mlxtend.combinations (length c) l).
Proof.
  induction 1 as [|x c l H IH|x c l H IH]; simpl.
  - by left.
  - apply in_app_iff. left. by apply in_map.
  - destruct c as [|y c]; simpl in *.
    + by left.
    + apply in_app_iff. by right.
Qed.

Lemma existsb_eqb x (l : list string) : existsb (String.eqb x) l = true <-> In x l.
Proof.
  rewrite existsb_exists. split.
  - intros (y & H & E). apply String.eqb_eq in E. by subst.
  - intros H. exists x. split; [done|apply String.eqb_refl].
Qed.

Lemma subset_spec a b : subset a b = true <-> forall x, In x a -> In x b.
Proof.
  unfold subset. rewrite forallb_forall. split; intros H x Hx.
  - by apply existsb_eqb, H.
  - by apply existsb_eqb, H.
Qed.

Lemma sublist_subset (a b : list string) : a `sublist_of` b -> subset a b = true.
Proof.
  intros H. apply subset_spec. intros x Hx.
  apply list_elem_of_In. eapply elem_of_sublist; [|exact H]. by apply list_elem_of_In.
Qed.

Lemma set_eqb_spec a b :
  set_eqb a b = true <-> subset a b = true /\ subset b a = true.
Proof. unfold set_eqb. apply andb_true_iff. Qed.

Lemma set_eqb_refl a : set_eqb a a = true.
Proof. apply set_eqb_spec. split; by apply subset_spec. Qed.

Lemma filter_length_le {A} (p q : A -> bool) l :
  (forall x, p x = true -> q x = true) ->
  length (List.filter p l) <= length (List.filter q l).
Proof.
  intros H. induction l as [|x l IH]; simpl; [done|].
  destruct (p x) eqn:E; [rewrite (H x E); simpl; lia|].
  destruct (q x); simpl; lia.
Qed.

Lemma count_subset cols X a b :
  subset a b = true -> mlxtend.count cols X b <= mlxtend.count cols X a.
Proof.
  intros H. unfold mlxtend.count. apply filter_length_le. intros row.
  rewrite !forallb_forall. intros Hb x Hx. apply Hb.
  by apply (proj1 (subset_spec a b) H).
Qed.

Lemma count_set_eqb cols X a b :
  set_eqb a b = true -> mlxtend.count cols X a = mlxtend.count cols X b.
Proof.
  intros H. apply set_eqb_spec in H as [H1 H2].
  apply Nat.le_antisymm; by apply count_subset.
Qed.

Lemma support_set_eqb cols X a b :
  set_eqb a b = true -> mlxtend.support cols X a = mlxtend.support cols X b.
Proof. intros H. unfold mlxtend.support. by rewrite (count_set_eqb _ _ _ _ H). Qed.

Lemma count_le cols X a : mlxtend.count cols X a <= length X.
Proof.
  unfold mlxtend.count. induction X as [|row X IH]; simpl; [done|].
  destruct (forallb _ a); simpl; lia.
Qed.

Lemma inject_pos n : 0 < n -> (0 < inject_Z (Z.of_nat n))%Q.
Proof. intros H. unfold Qlt. simpl. lia. Qed.

Lemma fraction_le a b n : 0 < n -> a <= b -> (fraction a n <= fraction b n)%Q.
Proof.
  intros Hn H. unfold fraction.
  apply Qmult_le_compat_r.
  - unfold Qle. simpl. lia.
  - apply Qlt_le_weak, Qinv_lt_0_compat, inject_pos, Hn.
Qed.

Lemma support_value cols X k :
  0 < length X ->
  mlxtend.support cols X k = Fin (Qred (fraction (mlxtend.count cols X k) (length X))).
Proof.
  intros H. unfold mlxtend.support, of_nat, fdiv.
  destruct (Qeq_bool (inject_Z (Z.of_nat (length X))) 0) eqn:E; [|done].
  apply Qeq_bool_iff in E. pose proof (inject_pos _ H) as P. rewrite E in P.
  by apply Qlt_irrefl in P.
Qed.

Lemma support_nan cols X k : length X = 0 -> mlxtend.support cols X k = NaN.
Proof.
  intros H. unfold mlxtend.support. pose proof (count_le cols X k) as L.
  rewrite H in *. by replace (mlxtend.count cols X k) with 0 by lia.
Qed.

(** A frequent item set has a rational support that reaches the
    threshold. *)
Lemma frequent_support cols X k m :
  fge (mlxtend.support cols X k) (Fin m) = true ->
  0 < length X /\
  (m <= fraction (mlxtend.count cols X k) (length X))%Q.
Proof.
  destruct (length X) as [|n] eqn:E.
  - by rewrite support_nan.
  - rewrite support_value by lia. rewrite E. simpl. intros H.
    apply Qle_bool_iff in H. rewrite Qred_correct in H. split; [lia|done].
Qed.

Lemma frequent_subset cols X a b m :
  subset a b = true ->
  fge (mlxtend.support cols X b) (Fin m) = true ->
  fge (mlxtend.support cols X a) (Fin m) = true.
Proof.
  intros S H. apply frequent_support in H as [Hn H].
  rewrite support_value by done. simpl. apply Qle_bool_iff. rewrite Qred_correct.
  eapply Qle_trans; [exact H|]. apply fraction_le; [done|]. by apply count_subset.
Qed.

(** The confidence of a split of a frequent item set. *)
Lemma confidence_bounds cols X a k m t :
  (0 < m)%Q ->
  subset a k = true ->
  fge (mlxtend.support cols X k) (Fin m) = true ->
  fge (fdiv (mlxtend.support cols X k) (mlxtend.support cols X a)) (Fin t) = true ->
  exists c, fdiv (mlxtend.support cols X k) (mlxtend.support cols X a) = Fin c /\
    (t <= c)%Q /\ (0 <= c)%Q /\ (c <= 1)%Q.
Proof.
  intros Hm S Hk. destruct (frequent_support _ _ _ _ Hk) as [Hn Hq].
  pose proof (count_subset cols X a k S) as Hc.
  rewrite !support_value by done.
  set (qk := fraction (mlxtend.count cols X k) (length X)) in *.
  set (qa := fraction (mlxtend.count cols X a) (length X)).
  assert (qk <= qa)%Q as Hle by (by apply fraction_le).
  assert (0 < qk)%Q as Hk0 by (eapply Qlt_le_trans; eauto).
  assert (0 < qa)%Q as Ha0 by (eapply Qlt_le_trans; eauto).
  unfold fdiv.
  destruct (Qeq_bool (Qred qa) 0) eqn:E.
  { apply Qeq_bool_iff in E. rewrite Qred_correct in E. rewrite E in Ha0.
    by apply Qlt_irrefl in Ha0. }
  simpl. intros Ht. apply Qle_bool_iff in Ht.
  eexists. split; [done|]. split; [done|].
  rewrite !Qred_correct. split.
  - apply Qle_shift_div_l; [done|]. rewrite Qmult_0_l. by apply Qlt_le_weak.
  - apply Qle_shift_div_r; [done|]. by rewrite Qmult_1_l.
Qed.

End Itemsets.

(** ** Facts about the miner *)

Section Miner.
Import Py.

Variable cols : list string.
Variable X : list (list bool).
Variables m t : Q.
Hypothesis m_pos : (0 < m)%Q.
Hypothesis cols_distinct : NoDup cols.

Local Abbreviation sup := (mlxtend.support cols X).
Local Abbreviation is_frequent := (is_frequent cols X m).
Local Abbreviation good := (good cols X m).
Local Abbreviation complete := (complete cols X m).

Lemma frequent_In s k :
  In (s, k) (mlxtend.frequent cols X (Fin m)) <-> is_frequent k s.
Proof.
  unfold mlxtend.frequent, is_frequent. rewrite in_flat_map. split.
  - intros (n & Hn & H). apply in_seq in Hn.
    apply filter_In in H as [H Hs]. apply in_map_iff in H as (c & [= <- <-] & Hc).
    apply combinations_sublist in Hc as [H1 H2]. simpl in Hs.
    repeat split; [done|done|lia].
  - intros (-> & Hs & Hk & Hl). exists (length k). split.
    + apply in_seq. apply sublist_length in Hk. lia.
    + apply filter_In. split; [|done]. apply in_map_iff. exists k.
      split; [done|]. by apply sublist_combinations.
Qed.

Lemma is_frequent_set_eqb k k' s :
  set_eqb k k' = true -> is_frequent k s -> k' `sublist_of` cols -> 1 <= length k' ->
  is_frequent k' s.
Proof.
  intros E (-> & Hs & _) Hk Hl. repeat split; try done.
  by apply support_set_eqb.
Qed.

Lemma dict_set_good d k s : good d -> is_frequent k s -> good (mlxtend.dict_set d k s).
Proof.
  intros Hd Hk. induction d as [|[k1 s1] d IH]; simpl.
  - intros k' s' [[= <- <-]|[]]. done.
  - assert (good d) as Hd' by (intros k' s' H; apply Hd; by right).
    destruct (set_eqb k k1) eqn:E.
    + intros k' s' [[= <- <-]|H]; [|apply Hd; by right].
      destruct (Hd k1 s1 (or_introl eq_refl)) as (_ & _ & H1 & H2).
      by apply (is_frequent_set_eqb k).
    + intros k' s' [[= <- <-]|H]; [apply Hd; by left|by apply IH].
Qed.

Lemma dict_set_has_new d k s : has (mlxtend.dict_set d k s) k.
Proof.
  induction d as [|[k1 s1] d IH]; simpl.
  - exists k, s. split; [by left|apply set_eqb_refl].
  - destruct (set_eqb k k1) eqn:E.
    + exists k1, s. split; [by left|done].
    + destruct IH as (k' & s' & H1 & H2). exists k', s'. split; [by right|done].
Qed.

Lemma dict_set_has_old d k s k0 : has d k0 -> has (mlxtend.dict_set d k s) k0.
Proof.
  intros (k' & s' & H & E). induction d as [|[k1 s1] d IH]; simpl; [done|].
  destruct H as [[= -> ->]|H].
  - destruct (set_eqb k k'); [exists k', s|exists k', s']; (split; [by left|done]).
  - destruct (set_eqb k k1).
    + exists k', s'. split; [by right|done].
    + destruct (IH H) as (k2 & s2 & H1 & H2). exists k2, s2. split; [by right|done].
Qed.

Lemma dict_fold l : forall d,
  good d -> (forall kv, In kv l -> is_frequent (fst kv) (snd kv)) ->
  let d' := fold_left (fun d kv => mlxtend.dict_set d (fst kv) (snd kv)) l d in
  good d' /\ (forall kv, In kv l -> has d' (fst kv)) /\ (forall k, has d k -> has d' k).
Proof.
  induction l as [|[k s] l IH]; intros d Hd Hl; simpl.
  - split; [done|split; [by intros ? []|done]].
  - destruct (IH (mlxtend.dict_set d k s)) as (H1 & H2 & H3).
    + apply dict_set_good; [done|]. apply (Hl (k, s)). by left.
    + intros kv H. apply Hl. by right.
    + split; [done|split].
      * intros kv [<-|H]; [|by apply H2]. apply H3, dict_set_has_new.
      * intros k0 H. by apply H3, dict_set_has_old.
Qed.

Lemma dict_get_has d k : good d -> has d k -> mlxtend.dict_get d k = Ok (sup k).
Proof.
  intros Hd. induction d as [|[k1 s1] d IH]; intros (k' & s' & H & E); simpl; [done|].
  destruct (set_eqb k k1) eqn:E1.
  - destruct (Hd k1 s1 (or_introl eq_refl)) as (-> & _). f_equal. symmetry.
    by apply support_set_eqb.
  - apply IH.
    + intros k2 s2 H2. apply Hd. by right.
    + destruct H as [[= -> ->]|H]; [congruence|]. by exists k', s'.
Qed.

Lemma filter_sublist {A} (p : A -> bool) l : List.filter p l `sublist_of` l.
Proof.
  induction l as [|x l IH]; simpl; [done|].
  destruct (p x); [by apply sublist_skip|by apply sublist_cons].
Qed.

Lemma filter_nil {A} (p : A -> bool) l :
  List.filter p l = [] -> forall x, In x l -> p x = false.
Proof.
  induction l as [|y l IH]; simpl; [done|].
  destruct (p y) eqn:E; [done|]. intros H x [<-|Hx]; [done|by apply IH].
Qed.

Lemma difference_length k c :
  NoDup k -> length c < length k -> 1 <= length (mlxtend.difference k c).
Proof.
  intros Hk Hl. unfold mlxtend.difference.
  destruct (List.filter _ k) as [|x l] eqn:E; [|simpl; lia].
  assert (k ⊆+ c) as Hi.
  { apply NoDup_submseteq; [done|]. intros x Hx. apply list_elem_of_In in Hx.
    pose proof (filter_nil _ _ E x Hx) as H.
    apply negb_false_iff in H. by apply list_elem_of_In, existsb_eqb. }
  apply submseteq_length in Hi. lia.
Qed.

Lemma frequent_part d k s c :
  good d -> complete d -> In (k, s) d -> c `sublist_of` k -> 1 <= length c ->
  mlxtend.dict_get d c = Ok (sup c) /\ is_frequent c (sup c).
Proof.
  intros Hd Hc Hk Hs Hl. destruct (Hd k s Hk) as (-> & Hf & Hsub & _).
  assert (is_frequent c (sup c)) as H.
  { repeat split; [|by transitivity k|done].
    eapply frequent_subset; [|exact Hf]. by apply sublist_subset. }
  split; [|done]. apply dict_get_has; [done|]. by apply Hc.
Qed.

Lemma split_rule_accepted d k s idx c :
  good d -> complete d -> In (k, s) d ->
  1 <= idx -> idx < length k -> In c (mlxtend.combinations idx k) ->
  exists rs, mlxtend.split_rule d (Fin t) k s c = Ok rs /\ Forall (accepted m t) rs.
Proof.
  intros Hd Hc Hk H1 H2 Hin. apply combinations_sublist in Hin as [Hsub Hlen].
  destruct (Hd k s Hk) as (Es & Hf & Hkc & _).
  assert (NoDup k) as Hnd by by eapply sublist_NoDup.
  unfold mlxtend.split_rule.
  assert (1 <= length c) as Lc by lia.
  assert (1 <= length (mlxtend.difference k c)) as Ld
    by (apply difference_length; [done|lia]).
  destruct (frequent_part d k s c Hd Hc Hk Hsub Lc) as [-> _].
  destruct (frequent_part d k s (mlxtend.difference k c) Hd Hc Hk
              (filter_sublist _ _) Ld) as [-> _].
  simpl. eexists. split; [reflexivity|].
  destruct (fge (fdiv s (sup c)) (Fin t)) eqn:Ht; [|by apply Forall_nil].
  constructor; [|by constructor]. subst s.
  destruct (confidence_bounds cols X c k m t m_pos (sublist_subset _ _ Hsub) Hf Ht)
    as (q & Eq & B1 & B2 & B3).
  destruct (frequent_support _ _ _ _ Hf) as [Hn Hq].
  exists (Qred (fraction (mlxtend.count cols X k) (length X))), q. simpl.
  repeat split; try done.
  - by apply support_value.
  - by rewrite Qred_correct.
Qed.

Lemma rmap_all {A B} (P : B -> Prop) (f : A -> result (list B)) l :
  (forall x, In x l -> exists ys, f x = Ok ys /\ Forall P ys) ->
  exists yss, rmap f l = Ok yss /\ Forall P (concat yss).
Proof.
  induction l as [|x l IH]; intros H; simpl.
  - exists []. split; [done|]. simpl. constructor.
  - destruct (H x (or_introl eq_refl)) as (ys & -> & Hys).
    destruct IH as (yss & -> & Hyss); [intros y Hy; apply H; by right|].
    simpl. exists (ys :: yss). split; [done|]. simpl. by apply Forall_app.
Qed.

Lemma rmap_all2 {A B C} (P : C -> Prop) (g : A -> B -> result (list C))
  (h : A -> list B) l :
  (forall x y, In x l -> In y (h x) -> exists zs, g x y = Ok zs /\ Forall P zs) ->
  exists zsss, rmap (fun x => rmap (g x) (h x)) l = Ok zsss /\
    Forall P (concat (concat zsss)).
Proof.
  induction l as [|x l IH]; intros H; simpl.
  - exists []. split; [done|]. simpl. constructor.
  - destruct (rmap_all P (g x) (h x)) as (yss & -> & Hyss).
    { intros y Hy. apply (H x y); [by left|done]. }
    destruct IH as (zsss & -> & Hz).
    { intros x' y Hx' Hy. apply (H x' y); [by right|done]. }
    simpl. exists (yss :: zsss). split; [done|].
    simpl. rewrite concat_app. by apply Forall_app.
Qed.

Lemma rules_of_itemset_accepted d k s :
  good d -> complete d -> In (k, s) d ->
  exists rs, mlxtend.rules_of_itemset d (Fin t) k s = Ok rs /\ Forall (accepted m t) rs.
Proof.
  intros Hd Hc Hk. unfold mlxtend.rules_of_itemset.
  destruct (rmap_all2 (accepted m t)
              (fun (idx : nat) => mlxtend.split_rule d (Fin t) k s)
              (fun idx => mlxtend.combinations idx k)
              (rev (seq 1 (length k - 1)))) as (zsss & -> & H).
  - intros idx c Hidx Hcin. apply in_rev, in_seq in Hidx.
    apply (split_rule_accepted d k s idx c); try done; lia.
  - simpl. by eexists.
Qed.

Lemma mine_accepted d :
  good d -> complete d ->
  exists rs, mlxtend.mine d (Fin t) = Ok rs /\ Forall (accepted m t) rs.
Proof.
  intros Hd Hc. unfold mlxtend.mine.
  destruct (rmap_all (accepted m t)
              (fun kv => mlxtend.rules_of_itemset d (Fin t) (fst kv) (snd kv)) d)
    as (yss & -> & H).
  - intros [k s] Hk. by apply rules_of_itemset_accepted.
  - simpl. by eexists.
Qed.

End Miner.

(** ** The frames of the miner *)

Section MinerFrames.
Import Py.

Lemma rmap_map_ok {A B C} (f : B -> result C) (g : A -> B) (h : A -> C) l :
  (forall x, f (g x) = Ok (h x)) -> rmap f (map g l) = Ok (map h l).
Proof.
  intros H. induction l as [|x l IH]; simpl; [done|]. by rewrite H, IH.
Qed.

Lemma drop_id v :
  pd.has_column v "id" = true ->
  pd.drop v ["id"]
  = Ok (pd.mkDataFrame (List.filter (pd.keep ["id"]) (pd.columns v))
          (map (fun r => (fst r, pd.select (snd r) (map (pd.keep ["id"]) (pd.columns v))))
             (pd.rows v))).
Proof. intros H. unfold pd.drop. simpl. by rewrite H. Qed.

Lemma flags_values cols : forall cells,
  forallb (fun cx => Spec.is_flag (fst cx) (snd cx)) (combine cols cells) = true ->
  exists bs,
    rmap (fun c => of_option (mlxtend.as_bool c)
                     (ValueError "The allowed values for a DataFrame are True, False, 0, 1."))
      (pd.select cells (map (pd.keep ["id"]) cols)) = Ok bs.
Proof.
  induction cols as [|c cols IH]; intros [|x cells]; simpl; try by eexists.
  intros H. apply andb_true_iff in H as [Hx H]. destruct (IH cells H) as (bs & E).
  unfold pd.keep at 1. simpl. unfold Spec.is_flag in Hx.
  destruct (String.eqb c "id"); simpl; [by exists bs|].
  destruct x; try done. simpl. rewrite E. simpl. by eexists.
Qed.

Lemma values_drop v :
  Spec.feature_table v = true ->
  exists X,
    mlxtend.values
      (pd.mkDataFrame (List.filter (pd.keep ["id"]) (pd.columns v))
         (map (fun r => (fst r, pd.select (snd r) (map (pd.keep ["id"]) (pd.columns v))))
            (pd.rows v))) = Ok X /\ length X = length (pd.rows v).
Proof.
  unfold Spec.feature_table. intros H. apply andb_true_iff in H as [_ H].
  unfold mlxtend.values. simpl.
  induction (pd.rows v) as [|r rs IH]; simpl.
  - by exists [].
  - simpl in H. apply andb_true_iff in H as [Hr H].
    destruct (flags_values _ _ Hr) as (bs & ->). destruct (IH H) as (X & -> & L).
    simpl. exists (bs :: X). split; [done|]. simpl. by rewrite L.
Qed.

Lemma filter_none {A} (p : A -> bool) l :
  (forall x, In x l -> p x = false) -> List.filter p l = [].
Proof.
  induction l as [|x l IH]; intros H; simpl; [done|].
  rewrite (H x (or_introl eq_refl)). apply IH. intros y Hy. apply H. by right.
Qed.

Lemma frequent_no_rows cols min : mlxtend.frequent cols [] min = [].
Proof.
  unfold mlxtend.frequent. induction (seq 1 (length cols)) as [|k l IH]; simpl; [done|].
  rewrite IH, app_nil_r. apply filter_none. intros [s c] H.
  apply in_map_iff in H as (c' & [= <- <-] & _). done.
Qed.

Lemma position_has_column cols rs c j :
  pd.position c cols = Some j -> pd.has_column (pd.mkDataFrame cols rs) c = true.
Proof. intros H. apply has_column_position. by exists j. Qed.

Lemma getitem_rows cols c j {A} (g : A -> list cell) (y : A -> cell) items : forall a,
  pd.position c cols = Some j ->
  (forall x, nth_error (g x) j = Some (y x)) ->
  pd.getitem (pd.mkDataFrame cols (combine (seq a (length items)) (map g items))) c
  = Ok (map y items).
Proof.
  intros a Hj Hg. unfold pd.getitem, pd.cell_at.
  rewrite (position_has_column _ _ _ _ Hj). simpl. rewrite Hj.
  revert a. induction items as [|x items IH]; intros a; simpl; [done|].
  by rewrite Hg, IH.
Qed.

Lemma set_nth_length {A} (x : A) l : pd.set_nth (length l) x l = l ++ [x].
Proof. induction l as [|y l IH]; simpl; [done|]. by rewrite IH. Qed.

Lemma set_column_rows n {A} (g : A -> list cell) (y : A -> cell) items : forall a,
  (forall x, length (g x) = n) ->
  pd.set_column n (combine (seq a (length items)) (map g items)) (map y items)
  = combine (seq a (length items)) (map (fun x => g x ++ [y x]) items).
Proof.
  intros a Hg. revert a. induction items as [|x items IH]; intros a; simpl; [done|].
  rewrite IH. by rewrite <- (Hg x), set_nth_length.
Qed.

Lemma select_rows {A} (g : A -> list cell) (p : A -> bool) items : forall a,
  pd.select (combine (seq a (length items)) (map g items)) (map p items)
  = map (fun ix => (fst ix, g (snd ix)))
      (List.filter (fun ix => p (snd ix)) (combine (seq a (length items)) items)).
Proof.
  induction items as [|x items IH]; intros a; simpl; [done|].
  rewrite IH. by destruct (p x).
Qed.

Lemma about_testing_rules rs :
  Pure.about_testing (pd.of_rows mlxtend.rule_columns (map mlxtend.rule_cells rs))
  = Ok (pd.mkDataFrame (mlxtend.rule_columns ++ ["consequents_str"]) (testing_rows rs)).
Proof.
  unfold Pure.about_testing, pd.of_rows. rewrite length_map.
  rewrite (getitem_rows _ _ 1 mlxtend.rule_cells (fun r => CSet (mlxtend.consequents r)))
    by done.
  simpl rbind. unfold pd.astype_str.
  rewrite (rmap_map_ok _ _ (fun r => CStr (rendered r))) by done.
  simpl rbind. unfold pd.setitem. simpl pd.rows. simpl pd.columns.
  rewrite length_combine, length_seq, !length_map, Nat.min_id, Nat.eqb_refl.
  simpl negb. cbv iota.
  change (pd.position "consequents_str" mlxtend.rule_columns) with (@None nat).
  cbv iota. simpl rbind.
  rewrite (set_column_rows 6 mlxtend.rule_cells (fun r => CStr (rendered r))) by done.
  rewrite (getitem_rows _ _ 6 (fun r => mlxtend.rule_cells r ++ [CStr (rendered r)])
             (fun r => CStr (rendered r))) by done.
  simpl rbind. unfold pd.getitem_mask, pd.series_eq. simpl pd.rows. simpl pd.columns.
  rewrite map_map.
  rewrite (select_rows (fun r => mlxtend.rule_cells r ++ [CStr (rendered r)])
             (fun r => py_eq (CStr (rendered r)) (CStr Pure.target))).
  reflexivity.
Qed.

End MinerFrames.

Section Discover.
Import Py.

Lemma distinct_NoDup l : Spec.distinct l = true -> NoDup l.
Proof.
  induction l as [|x l IH]; simpl; [constructor|].
  intros H. apply andb_true_iff in H as [Hx Hl]. constructor; [|by apply IH].
  intros Hin. apply list_elem_of_In, existsb_eqb in Hin. by rewrite Hin in Hx.
Qed.

Lemma in_combine_swap {A B} (F : list (A * B)) k s :
  In (k, s) (combine (map snd F) (map fst F)) <-> In (s, k) F.
Proof.
  induction F as [|[s' k'] F IH]; simpl; [done|].
  rewrite IH. split; (intros [[= <- <-]|H]; [by left|by right]).
Qed.

Lemma dict_of_frequent cols X m :
  let d := fold_left (fun d kv => mlxtend.dict_set d (fst kv) (snd kv))
             (combine (map snd (mlxtend.frequent cols X (Fin m)))
                (map fst (mlxtend.frequent cols X (Fin m)))) [] in
  good cols X m d /\ complete cols X m d.
Proof.
  intros d.
  destruct (dict_fold cols X m
              (combine (map snd (mlxtend.frequent cols X (Fin m)))
                 (map fst (mlxtend.frequent cols X (Fin m)))) []) as (H1 & H2 & _).
  - by intros k s [].
  - intros [k s] H. by apply frequent_In, in_combine_swap.
  - split; [done|]. intros k Hk. apply (H2 (k, mlxtend.support cols X k)).
    by apply in_combine_swap, frequent_In.
Qed.

Lemma association_rules_total cols X F :
  NoDup cols -> F = mlxtend.frequent cols X (Fin (1 # 100)) -> F <> [] ->
  exists rs, Forall (accepted (1 # 100) (1 # 2)) rs /\
    mlxtend.association_rules_frame
      (pd.of_rows ["support"; "itemsets"] (map mlxtend.itemset_cells F)) (Fin (1 # 2))
    = Ok (pd.of_rows mlxtend.rule_columns (map mlxtend.rule_cells rs)).
Proof.
  intros Hnd EF HF. unfold mlxtend.association_rules_frame, pd.of_rows.
  simpl pd.rows. rewrite length_combine, length_seq, !length_map, Nat.min_id.
  destruct (Nat.eqb (length F) 0) eqn:E0.
  { apply Nat.eqb_eq in E0. by destruct F. }
  change (negb (pd.has_column _ "support" && pd.has_column _ "itemsets")) with false.
  cbv iota.
  rewrite (getitem_rows _ _ 1 mlxtend.itemset_cells (fun p => CSet (snd p))) by done.
  simpl rbind. rewrite (rmap_map_ok _ _ snd) by done. simpl rbind.
  rewrite (getitem_rows _ _ 0 mlxtend.itemset_cells (fun p => CFloat (fst p))) by done.
  simpl rbind. rewrite (rmap_map_ok _ _ fst) by done. simpl rbind.
  destruct (dict_of_frequent cols X (1 # 100)) as [Hg Hc]. rewrite <- EF in Hg, Hc.
  destruct (mine_accepted cols X (1 # 100) (1 # 2) eq_refl Hnd _ Hg Hc) as (rs & -> & Hrs).
  exists rs. split; [done|]. simpl rbind. by rewrite !length_map.
Qed.

Lemma discover_rules_spec v :
  Spec.feature_table v = true ->
  exists dm X rs,
    pd.drop v ["id"] = Ok dm /\ mlxtend.values dm = Ok X /\
    length X = length (pd.rows v) /\
    (mlxtend.frequent (pd.columns dm) X (Fin (1 # 100)) = [] -> rs = []) /\
    (mlxtend.frequent (pd.columns dm) X (Fin (1 # 100)) <> [] ->
     mlxtend.association_rules_frame
       (pd.of_rows ["support"; "itemsets"]
          (map mlxtend.itemset_cells (mlxtend.frequent (pd.columns dm) X (Fin (1 # 100)))))
       (Fin (1 # 2))
     = Ok (pd.of_rows mlxtend.rule_columns (map mlxtend.rule_cells rs))) /\
    Forall (accepted (1 # 100) (1 # 2)) rs /\
    Pure.discover_rules v = Ok (testing_frame rs).
Proof.
  intros Hv. destruct (feature_table_well_formed v Hv) as [Hwf Hid].
  destruct (values_drop v Hv) as (X & EX & LX).
  unfold Pure.discover_rules. rewrite (drop_id v Hid). simpl rbind.
  eexists _, X. unfold mlxtend.apriori_frame.
  change (fge (Fin 0) (Fin (1 # 100))) with false. cbv iota.
  rewrite EX. simpl rbind. simpl pd.columns.
  set (cols := List.filter (pd.keep ["id"]) (pd.columns v)).
  destruct (mlxtend.frequent cols X (Fin (1 # 100))) as [|p F] eqn:EF.
  { exists []. split; [done|]. split; [done|]. split; [done|]. split; [done|].
    split; [by intros []|]. split; [constructor|done]. }
  destruct (association_rules_total cols X (p :: F)) as (rs & Hrs & E); [|done|done|].
  { eapply sublist_NoDup; [|apply filter_sublist]. apply distinct_NoDup.
    unfold Spec.well_formed in Hwf. by apply andb_true_iff in Hwf as [? _]. }
  change (pd.empty (pd.of_rows _ (map mlxtend.itemset_cells (p :: F)))) with false.
  cbv iota. rewrite E. simpl rbind.
  exists rs. split; [done|]. split; [done|]. split; [done|]. split; [done|].
  split; [done|]. split; [done|].
  destruct rs as [|r rs]; [done|].
  change (pd.empty (pd.of_rows _ (map mlxtend.rule_cells (r :: rs)))) with false.
  cbv iota. rewrite about_testing_rules. simpl rbind.
  unfold testing_frame, pd.empty. simpl pd.rows.
  by destruct (testing_rows (r :: rs)).
Qed.

End Discover.

(** ** Facts about [repr] *)

Section Repr.
Import Py.
Local Open Scope string_scope.
Local Arguments String.append : simpl nomatch.

Lemma string_app_assoc (a b c : string) : (a ++ b) ++ c = a ++ (b ++ c).
Proof. induction a as [|x a IH]; simpl; [done|]. by rewrite IH. Qed.

Lemma repr_char_cases q c :
  (repr_char q c = String c "" /\ c <> q /\ c <> backslash) \/
  (exists t, repr_char q c = String backslash t).
Proof.
  unfold repr_char.
  destruct (Ascii.eqb c q) eqn:Eq; [right; by eexists|].
  destruct (Ascii.eqb c backslash) eqn:Eb; [right; by eexists|]. simpl.
  destruct (Ascii.eqb c (ascii_of_nat 9)); [right; by eexists|].
  destruct (Ascii.eqb c (ascii_of_nat 10)); [right; by eexists|].
  destruct (Ascii.eqb c (ascii_of_nat 13)); [right; by eexists|].
  destruct (is_printable c); [|right; by eexists].
  left. split; [done|]. split; by apply Ascii.eqb_neq.
Qed.

(** The body of a [repr] is read back from a text without backslashes
    up to the closing quote. *)
Lemma repr_body_inv q x : forall w r1 r2,
  q <> backslash ->
  mem_char q w = false -> mem_char backslash w = false ->
  repr_body q x ++ String q r1 = w ++ String q r2 ->
  x = w /\ r1 = r2.
Proof.
  induction x as [|c x IH]; intros w r1 r2 Hq Hw Hb; simpl.
  - destruct w as [|a w]; simpl; [by intros [= <-]|].
    intros [= <- _]. simpl in Hw. by rewrite Ascii.eqb_refl in Hw.
  - destruct (repr_char_cases q c) as [(-> & Hcq & Hcb)|(t & ->)]; simpl.
    + destruct w as [|a w]; simpl; [by intros [= ->]|].
      intros [= <- H]. simpl in Hw, Hb.
      apply orb_false_iff in Hw as [_ Hw]. apply orb_false_iff in Hb as [_ Hb].
      destruct (IH w r1 r2 Hq Hw Hb H) as [-> ->]. done.
    + destruct w as [|a w]; simpl; [by intros [= <-]|].
      intros [= <- _]. simpl in Hb. by rewrite ?Ascii.eqb_refl in Hb.
Qed.

(** Only the set {'HAS_TEST'} is rendered as the text the filter of
    [discover_rules] compares with. *)
Lemma str_frozenset_target l : str_frozenset l = Pure.target -> l = ["HAS_TEST"].
Proof.
  destruct l as [|x l]; [done|]. unfold str_frozenset, Pure.target.
  assert (forall r1 r2,
            repr x ++ r1 = String squote ("HAS_TEST" ++ String squote r2) ->
            x = "HAS_TEST" /\ r1 = r2) as Hx.
  { intros r1 r2. unfold repr. simpl. rewrite string_app_assoc. simpl.
    intros [= Hq H]. rewrite Hq in H.
    by apply (repr_body_inv squote x "HAS_TEST" r1 r2). }
  destruct l as [|y l]; intros H.
  - change ("frozenset({" ++ (repr x ++ "})")
            = "frozenset({" ++ String squote ("HAS_TEST" ++ String squote "})")) in H.
    apply String.app_inj, Hx in H as [-> _]. done.
  - change ("frozenset({" ++ ((repr x ++ ", " ++ join_repr (y :: l)) ++ "})")
            = "frozenset({" ++ String squote ("HAS_TEST" ++ String squote "})")) in H.
    apply String.app_inj in H. rewrite string_app_assoc in H.
    apply Hx in H as [_ H]. done.
Qed.

End Repr.

(** ** The feature table *)

Section Features.
Import Py Run Sem.

Lemma fold_baskets data : forall transactions text_map,
  fold_left
    (fun '(transactions, text_map) record =>
       (transactions ++
          [[mining.test_status record; mining.code_status record;
            mining.risk_status record]],
        mining.dict_store text_map (mining.id record) (mining.text record)))
    data (transactions, text_map)
  = (transactions ++ map basket data,
     fold_left (fun tm r => mining.dict_store tm (mining.id r) (mining.text r))
       data text_map).
Proof.
  induction data as [|r data IH]; intros ts tm; simpl.
  - by rewrite app_nil_r.
  - rewrite IH. by rewrite <- app_assoc.
Qed.

Lemma insert_sorted_In c x l : In c (mlxtend.insert_sorted x l) -> c = x \/ In c l.
Proof.
  induction l as [|y l IH]; simpl.
  - intros [<-|[]]. by left.
  - destruct (String.compare x y); simpl.
    + auto.
    + intros [<-|H]; auto.
    + intros [<-|H]; [auto|]. destruct (IH H); auto.
Qed.

Lemma sorted_set_In c l : In c (mlxtend.sorted_set l) -> In c l.
Proof.
  induction l as [|x l IH]; simpl; [done|].
  intros H. apply insert_sorted_In in H as [->|H]; auto.
Qed.

Lemma valid_status data c :
  forallb Spec.valid_record data = true ->
  In c (mlxtend.fit (map basket data)) -> String.eqb c "id" = false.
Proof.
  intros Hv Hc. apply sorted_set_In, in_concat in Hc as (b & Hb & Hc).
  apply in_map_iff in Hb as (r & <- & Hr).
  rewrite forallb_forall in Hv. apply Hv in Hr. unfold Spec.valid_record in Hr.
  apply andb_true_iff in Hr as [Hr H3]. apply andb_true_iff in Hr as [H1 H2].
  apply orb_true_iff in H1, H2, H3.
  destruct Hc as [<-|[<-|[<-|[]]]].
  - by destruct H1 as [->%String.eqb_eq| ->%String.eqb_eq].
  - by destruct H2 as [->%String.eqb_eq| ->%String.eqb_eq].
  - by destruct H3 as [->%String.eqb_eq| ->%String.eqb_eq].
Qed.

Lemma position_None c cols :
  (forall d, In d cols -> String.eqb c d = false) -> pd.position c cols = None.
Proof.
  induction cols as [|d cols IH]; intros H; simpl; [done|].
  rewrite (H d (or_introl eq_refl)). rewrite IH; [done|].
  intros d' Hd. apply H. by right.
Qed.

Lemma setitem_id data :
  forallb Spec.valid_record data = true ->
  pd.setitem
    (pd.of_rows (mlxtend.fit (map basket data))
       (mlxtend.transform (mlxtend.fit (map basket data)) (map basket data)))
    "id" (map (fun r => CStr (mining.id r)) data)
  = Ok (feature_frame data).
Proof.
  intros Hv. unfold pd.setitem, pd.of_rows, mlxtend.transform, feature_frame.
  set (cols := mlxtend.fit (map basket data)).
  simpl pd.rows. simpl pd.columns. rewrite map_map.
  rewrite length_combine, length_seq, !length_map, Nat.min_id, Nat.eqb_refl.
  simpl negb. cbv iota. rewrite position_None.
  - f_equal. f_equal.
    apply (set_column_rows (length cols) (flags cols) (fun r => CStr (mining.id r))).
    intros r. unfold flags. by rewrite length_map.
  - intros d Hd. rewrite String.eqb_sym. by apply (valid_status data).
Qed.

Lemma extract_features_run data st :
  forallb Spec.valid_record data = true ->
  exists text_map,
    mining.extract_features_for_mining data st
    = (Ok (length (heap st), text_map),
       mkState (heap st ++ [feature_frame data])
         (console st ++ ["Mining: Extracting features from graph..."])).
Proof.
  intros Hv. unfold mining.extract_features_for_mining.
  erewrite bind_ok; [|reflexivity]. rewrite fold_baskets. simpl app.
  erewrite bind_ok; [|reflexivity].
  erewrite bind_ok;
    [|by erewrite setitem_run; [rewrite setitem_id|apply lookup_alloc]].
  simpl heap. rewrite insert_alloc. by eexists.
Qed.

Lemma assoc_flags c cols (f : string -> cell) e x :
  In c cols ->
  pd.assoc c (combine (cols ++ [e]) (map f cols ++ [x])) = Some (f c).
Proof.
  induction cols as [|d cols IH]; simpl; [done|].
  destruct (String.eqb c d) eqn:E.
  - apply String.eqb_eq in E. by subst.
  - intros [->|H]; [by rewrite String.eqb_refl in E|by apply IH].
Qed.

Lemma exactly_one_status data r cols yes no :
  forallb Spec.valid_record data = true -> In r data ->
  In (yes, no) Spec.status_pairs -> In yes cols -> In no cols ->
  Spec.exactly_one (combine (cols ++ ["id"]) (flags cols r ++ [CStr (mining.id r)])) yes no
  = true.
Proof.
  intros Hv Hr Hp Hy Hn. unfold Spec.exactly_one, flags.
  rewrite !(assoc_flags _ cols (fun c => CBool (existsb (String.eqb c) (basket r)))) by done.
  rewrite forallb_forall in Hv. apply Hv in Hr. unfold Spec.valid_record in Hr.
  apply andb_true_iff in Hr as [Hr H3]. apply andb_true_iff in Hr as [H1 H2].
  apply orb_true_iff in H1, H2, H3. unfold basket.
  destruct H1 as [->%String.eqb_eq| ->%String.eqb_eq];
  destruct H2 as [->%String.eqb_eq| ->%String.eqb_eq];
  destruct H3 as [->%String.eqb_eq| ->%String.eqb_eq];
  destruct Hp as [[= <- <-]|[[= <- <-]|[[= <- <-]|[]]]]; reflexivity.
Qed.

End Features.

(** ** The properties *)

Section Claims.
Import Py Run Sem.

Lemma testing_frame_rows rs row :
  In row (pd.iterrows (testing_frame rs)) ->
  exists i r, In r rs /\ mlxtend.consequents r = ["HAS_TEST"] /\
    row = (i, combine (mlxtend.rule_columns ++ ["consequents_str"])
                (mlxtend.rule_cells r ++ [CStr (rendered r)])).
Proof.
  intros H.
  assert (In row (map (series (mlxtend.rule_columns ++ ["consequents_str"]))
                    (testing_rows rs))) as H'.
  { unfold testing_frame in H. by destruct (testing_rows rs). }
  apply in_map_iff in H' as (r' & <- & Hr'). unfold testing_rows in Hr'.
  apply in_map_iff in Hr' as ([i r] & <- & Hr). apply filter_In in Hr as [Hr E].
  exists i, r. split; [by apply in_combine_r in Hr|]. split; [|done].
  apply String.eqb_eq in E. by apply str_frozenset_target.
Qed.

Lemma discover_rules_returns df v st :
  heap st !! df = Some v -> Spec.feature_table v = true ->
  exists rs rules st',
    Forall (accepted (1 # 100) (1 # 2)) rs /\
    Pure.discover_rules v = Ok (testing_frame rs) /\
    mining.discover_rules df st = (Ok rules, st') /\ grows st st' /\
    heap st' !! rules = Some (testing_frame rs).
Proof.
  intros Hdf Hv.
  destruct (discover_rules_spec v Hv) as (dm & X & rs & _ & _ & _ & _ & _ & Hrs & E).
  destruct (discover_rules_run df v st Hdf) as (st' & G & H). rewrite E in H.
  destruct H as (rules & H1 & H2). by exists rs, rules, st'.
Qed.

(** C2. For every feature table, every rule of the frame that
    [discover_rules] returns has the consequent {HAS_TEST}: the call
    returns, and the cell [consequents] of each row it returns is the
    frozenset of the single item HAS_TEST. *)
Theorem discover_rules_predicts_has_test df v st :
  heap st !! df = Some v -> Spec.feature_table v = true ->
  exists rules st' rv,
    mining.discover_rules df st = (Ok rules, st') /\
    heap st' !! rules = Some rv /\
    forall rule, In rule (pd.iterrows rv) ->
      pd.assoc "consequents" (snd rule) = Some (CSet ["HAS_TEST"]).
Proof.
  intros Hdf Hv.
  destruct (discover_rules_returns df v st Hdf Hv) as (rs & rules & st' & _ & _ & E & _ & H).
  exists rules, st', (testing_frame rs). split; [done|]. split; [done|].
  intros rule Hrule. apply testing_frame_rows in Hrule as (i & r & _ & Hc & ->).
  simpl. by rewrite Hc.
Qed.

(** C4. For every feature table, every rule that [discover_rules]
    returns has a support of at least 0.01 and a confidence [c] with
    0 <= c <= 1 and c >= 0.5. *)
Theorem discover_rules_thresholds df v st :
  heap st !! df = Some v -> Spec.feature_table v = true ->
  exists rules st' rv,
    mining.discover_rules df st = (Ok rules, st') /\
    heap st' !! rules = Some rv /\
    forall rule, In rule (pd.iterrows rv) ->
      exists s c,
        pd.assoc "support" (snd rule) = Some (CFloat (Fin s)) /\
        pd.assoc "confidence" (snd rule) = Some (CFloat (Fin c)) /\
        (1 # 100 <= s)%Q /\ (0 <= c)%Q /\ (c <= 1)%Q /\ (1 # 2 <= c)%Q.
Proof.
  intros Hdf Hv.
  destruct (discover_rules_returns df v st Hdf Hv)
    as (rs & rules & st' & Hrs & _ & E & _ & H).
  exists rules, st', (testing_frame rs). split; [done|]. split; [done|].
  intros rule Hrule. apply testing_frame_rows in Hrule as (i & r & Hr & _ & ->).
  rewrite Forall_forall in Hrs. apply list_elem_of_In, Hrs in Hr.
  destruct Hr as (q & c & Hq & Bq & Hc & B1 & B2 & B3).
  exists q, c. simpl. by rewrite Hq, Hc.
Qed.

Lemma of_rows_nil cols (data : list (list cell)) :
  pd.rows (pd.of_rows cols data) = [] -> data = [].
Proof. by destruct data. Qed.

Lemma in_labelled_rows i r rs :
  In (i, r) (labelled rs) ->
  In (i, combine mlxtend.rule_columns (mlxtend.rule_cells r))
    (pd.iterrows (pd.of_rows mlxtend.rule_columns (map mlxtend.rule_cells rs))).
Proof.
  unfold labelled, pd.iterrows, pd.of_rows. simpl. rewrite length_map.
  generalize 0. induction rs as [|r' rs IH]; intros a; simpl; [done|].
  intros [[= <- <-]|H]; [by left|right; by apply IH].
Qed.

Lemma find_exceptions_no_rules df rules v rv st :
  heap st !! df = Some v -> heap st !! rules = Some rv -> pd.rows rv = [] ->
  exists st', mining.find_exceptions df rules st = (Ok [], st').
Proof.
  intros Hdf Hrules Hrows.
  destruct (find_exceptions_run df rules v rv st Hdf Hrules) as (st' & E & _).
  exists st'. rewrite E. unfold Pure.find_exceptions, pd.iterrows. by rewrite Hrows.
Qed.

(** C6. Empty inputs are no errors. For every feature table
    [discover_rules] returns without raising; it returns the empty frame
    when the table has no rows, when no item set reaches the support
    threshold, and when no rule mined survives the filter on the
    consequent. [find_exceptions] with a rule set without rows returns
    the empty list without raising. *)
Theorem empty_results_are_no_errors df v st :
  heap st !! df = Some v -> Spec.feature_table v = true ->
  (exists rules st' rv,
     mining.discover_rules df st = (Ok rules, st') /\
     heap st' !! rules = Some rv /\
     (pd.rows v = [] -> rv = pd.new) /\
     (forall dm fi,
        pd.drop v ["id"] = Ok dm ->
        mlxtend.apriori_frame dm (Fin (1 # 100)) = Ok fi ->
        pd.rows fi = [] -> rv = pd.new) /\
     (forall dm fi mined,
        pd.drop v ["id"] = Ok dm ->
        mlxtend.apriori_frame dm (Fin (1 # 100)) = Ok fi ->
        mlxtend.association_rules_frame fi (Fin (1 # 2)) = Ok mined ->
        (forall rule, In rule (pd.iterrows mined) ->
           pd.assoc "consequents" (snd rule) <> Some (CSet ["HAS_TEST"])) ->
        rv = pd.new)) /\
  (forall rules rv,
     heap st !! rules = Some rv -> pd.rows rv = [] ->
     exists st', mining.find_exceptions df rules st = (Ok [], st')).
Proof.
  intros Hdf Hv.
  split; [|intros rules rv Hr Hrows; by apply (find_exceptions_no_rules df rules v rv st)].
  destruct (discover_rules_spec v Hv) as (dm & X & rs & Edm & EX & LX & Hnil & Hcons & _ & E).
  destruct (discover_rules_run df v st Hdf) as (st' & _ & H). rewrite E in H.
  destruct H as (rules & H1 & H2). exists rules, st', (testing_frame rs).
  split; [done|]. split; [done|].
  assert (forall fi, mlxtend.apriori_frame dm (Fin (1 # 100)) = Ok fi ->
            fi = pd.of_rows ["support"; "itemsets"]
                   (map mlxtend.itemset_cells
                      (mlxtend.frequent (pd.columns dm) X (Fin (1 # 100))))) as Hfi.
  { intros fi. unfold mlxtend.apriori_frame.
    change (fge (Fin 0) (Fin (1 # 100))) with false. cbv iota. rewrite EX. simpl.
    by intros [= <-]. }
  split; [|split].
  - intros Hrows. rewrite Hrows in LX. destruct X; [|done].
    rewrite Hnil; [done|apply frequent_no_rows].
  - intros dm' fi Edm' Efi Hrows. rewrite Edm in Edm'. injection Edm' as <-.
    apply Hfi in Efi. subst fi. apply of_rows_nil, map_eq_nil in Hrows.
    by rewrite Hnil.
  - intros dm' fi mined Edm' Efi Emined Hnone. rewrite Edm in Edm'. injection Edm' as <-.
    apply Hfi in Efi. subst fi.
    destruct (mlxtend.frequent (pd.columns dm) X (Fin (1 # 100))) as [|p F] eqn:EF;
      [by rewrite Hnil|].
    rewrite Hcons in Emined by done. injection Emined as <-.
    unfold testing_frame, testing_rows. rewrite filter_none; [done|].
    intros [i r] Hir. apply not_true_iff_false. intros Heq. simpl in Heq.
    apply String.eqb_eq, str_frozenset_target in Heq.
    apply in_labelled_rows, Hnone in Hir. simpl in Hir. by rewrite Heq in Hir.
Qed.

Lemma find_exceptions_returns df rules v rv st :
  heap st !! df = Some v -> heap st !! rules = Some rv ->
  Spec.feature_table v = true -> Spec.rule_table rv = true ->
  exists st',
    mining.find_exceptions df rules st
    = (Ok (flat_map (fun rule => rule_records v (snd rule)) (pd.iterrows rv)), st').
Proof.
  intros Hdf Hrules Hv Hrv. destruct (feature_table_well_formed v Hv) as [Hwf Hid].
  destruct (find_exceptions_run df rules v rv st Hdf Hrules) as (st' & E & _).
  exists st'. by rewrite E, find_exceptions_spec.
Qed.

Lemma forallb_ext_in {A} (p q : A -> bool) l :
  (forall x, In x l -> p x = q x) -> forallb p l = forallb q l.
Proof.
  induction l as [|x l IH]; intros H; simpl; [done|].
  rewrite (H x (or_introl eq_refl)), IH; [done|]. intros y Hy. apply H. by right.
Qed.

Lemma predicts_test_consequents rule :
  Spec.predicts_test rule = true -> Spec.consequents rule = ["HAS_TEST"].
Proof.
  unfold Spec.predicts_test. destruct (Spec.consequents rule) as [|c [|? ?]]; try done.
  by intros ->%String.eqb_eq.
Qed.

Lemma violates_on_violates v rule row :
  pd.has_column v "HAS_TEST" = true ->
  forallb (pd.has_column v) (Spec.antecedents rule) = true ->
  Spec.predicts_test rule = true ->
  Spec.violates_on v rule row = Spec.violates rule row.
Proof.
  intros Ht Ha Hp. unfold Spec.violates_on, Spec.violates, Spec.agrees.
  rewrite (predicts_test_consequents rule Hp). simpl. rewrite Ht. simpl.
  rewrite andb_true_r. f_equal. apply forallb_ext_in. intros a Hin.
  rewrite forallb_forall in Ha. by rewrite (Ha a Hin).
Qed.

Lemma flat_map_pairs {A B C} (f : A -> list B) (g : A -> B -> C) l :
  flat_map (fun x => map (g x) (f x)) l
  = map (fun p => g (fst p) (snd p)) (flat_map (fun x => map (pair x) (f x)) l).
Proof.
  induction l as [|x l IH]; simpl; [done|]. by rewrite map_app, map_map, IH.
Qed.

(** C1. For every feature table with a HAS_TEST column and every rule
    set whose antecedent items are columns of the table,
    [find_exceptions] returns one gap record for each pair of a list
    [pairs] of rules and rows, and a pair (rule, row) is in that list if
    and only if every antecedent column of the rule is true on the row
    and HAS_TEST is false on it. A rule set is the output of the miner as
    section 4.2 describes it: every rule predicts {HAS_TEST}. *)
Theorem find_exceptions_violation_iff df rules v rv st :
  heap st !! df = Some v -> heap st !! rules = Some rv ->
  Spec.feature_table v = true -> pd.has_column v "HAS_TEST" = true ->
  Spec.rule_set rv = true -> Spec.items_in v rv = true ->
  exists pairs st',
    mining.find_exceptions df rules st
    = (Ok (map (fun p => Spec.gap_record (snd (fst p)) (snd (snd p))) pairs), st') /\
    forall rule row,
      In (rule, row) pairs <->
      In rule (pd.iterrows rv) /\ In row (pd.iterrows v) /\
      Spec.violates (snd rule) (snd row) = true.
Proof.
  intros Hdf Hrules Hv Ht Hrv Hin. unfold Spec.rule_set in Hrv.
  apply andb_true_iff in Hrv as [Hrt Hp].
  destruct (find_exceptions_returns df rules v rv st Hdf Hrules Hv Hrt) as (st' & E).
  exists (flat_map (fun rule =>
                      map (pair rule)
                        (List.filter (fun row => Spec.violates_on v (snd rule) (snd row))
                           (pd.iterrows v)))
            (pd.iterrows rv)), st'.
  split.
  - rewrite E. unfold rule_records.
    by rewrite (flat_map_pairs
                  (fun rule => List.filter
                                 (fun row => Spec.violates_on v (snd rule) (snd row))
                                 (pd.iterrows v))
                  (fun rule row => Spec.gap_record (snd rule) (snd row))).
  - intros rule row. rewrite in_flat_map. split.
    + intros (rule' & Hr & H). apply in_map_iff in H as (row' & [= <- <-] & H).
      apply filter_In in H as [Hrow H]. split; [done|]. split; [done|].
      rewrite <- H. symmetry. apply violates_on_violates; [done| |].
      * unfold Spec.items_in in Hin. rewrite forallb_forall in Hin. by apply Hin.
      * rewrite forallb_forall in Hp. by apply Hp.
    + intros (Hr & Hrow & H). exists rule. split; [done|].
      apply in_map, filter_In. split; [done|]. rewrite <- H.
      apply violates_on_violates; [done| |].
      * unfold Spec.items_in in Hin. rewrite forallb_forall in Hin. by apply Hin.
      * rewrite forallb_forall in Hp. by apply Hp.
Qed.

Lemma feature_row_id v row :
  Spec.feature_table v = true -> In row (pd.iterrows v) ->
  pd.assoc "id" (snd row) = Some (Spec.cell_of "id" (snd row)).
Proof.
  intros Hv Hrow. destruct (feature_table_well_formed v Hv) as [Hwf Hid].
  apply in_map_iff in Hrow as (r & <- & Hr). simpl.
  pose proof (well_formed_full v Hwf) as Hfull. rewrite Forall_forall in Hfull.
  apply list_elem_of_In, Hfull in Hr. unfold Spec.cell_of. rewrite assoc_combine.
  by destruct (cell_at_Some v "id" (snd r) Hid Hr) as [x ->].
Qed.

Lemma rule_cells_present rule :
  Spec.is_rule rule = true ->
  pd.assoc "antecedents" rule = Some (CSet (Spec.antecedents rule)) /\
  pd.assoc "consequents" rule = Some (CSet (Spec.consequents rule)) /\
  pd.assoc "confidence" rule = Some (Spec.cell_of "confidence" rule).
Proof.
  unfold Spec.is_rule, Spec.antecedents, Spec.consequents, Spec.cell_of.
  destruct (pd.assoc "antecedents" rule) as [[| |?|a]|]; try done.
  destruct (pd.assoc "consequents" rule) as [[| |?|c]|]; try done.
  by destruct (pd.assoc "confidence" rule).
Qed.

(** C7. [find_exceptions] returns one gap record for each pair of a
    rule and a row that violates it (a row that the two filtering loops
    of the rule keep), rule after rule and row after row. A gap record
    carries the cell [id] of the row, the text
    "Rule: IF <antecedents> THEN <consequents>" of the rule, and the cell
    [confidence] of the rule. So a row that violates two rules has two
    gap records, one for each rule, with the same identifier. *)
Theorem find_exceptions_one_record_per_pair df rules v rv st :
  heap st !! df = Some v -> heap st !! rules = Some rv ->
  Spec.feature_table v = true -> Spec.rule_table rv = true ->
  exists gaps st',
    mining.find_exceptions df rules st = (Ok gaps, st') /\
    gaps = flat_map
             (fun rule =>
                map (fun row => Spec.gap_record (snd rule) (snd row))
                  (List.filter (fun row => Spec.violates_on v (snd rule) (snd row))
                     (pd.iterrows v)))
             (pd.iterrows rv) /\
    (forall rule row,
       In rule (pd.iterrows rv) -> In row (pd.iterrows v) ->
       let g := Spec.gap_record (snd rule) (snd row) in
       pd.assoc "id" (snd row) = Some (mining.gap_id g) /\
       pd.assoc "confidence" (snd rule) = Some (mining.gap_confidence g) /\
       exists a c,
         pd.assoc "antecedents" (snd rule) = Some (CSet a) /\
         pd.assoc "consequents" (snd rule) = Some (CSet c) /\
         mining.violated_rule g
         = ("Rule: IF " ++ str_list a ++ " THEN " ++ str_list c)%string) /\
    (forall rs1 rule1 rs2 rule2 rs3 row,
       pd.iterrows rv = rs1 ++ rule1 :: rs2 ++ rule2 :: rs3 ->
       In row (pd.iterrows v) ->
       Spec.violates_on v (snd rule1) (snd row) = true ->
       Spec.violates_on v (snd rule2) (snd row) = true ->
       exists g1 g2 g3,
         gaps = g1 ++ Spec.gap_record (snd rule1) (snd row)
                  :: g2 ++ Spec.gap_record (snd rule2) (snd row) :: g3 /\
         mining.gap_id (Spec.gap_record (snd rule1) (snd row))
         = mining.gap_id (Spec.gap_record (snd rule2) (snd row))).
Proof.
  intros Hdf Hrules Hv Hrt.
  destruct (find_exceptions_returns df rules v rv st Hdf Hrules Hv Hrt) as (st' & E).
  eexists _, st'. split; [exact E|]. split; [done|]. split.
  - intros rule row Hrule Hrow g. unfold Spec.rule_table in Hrt.
    rewrite forallb_forall in Hrt. apply Hrt, rule_cells_present in Hrule as (Ha & Hc & Hconf).
    split; [by apply (feature_row_id v)|]. split; [done|]. by eexists _, _.
  - intros rs1 rule1 rs2 rule2 rs3 row Hrs Hrow H1 H2. rewrite Hrs.
    assert (forall rule : nat * pd.Series,
              Spec.violates_on v (snd rule) (snd row) = true ->
              exists p q, rule_records v (snd rule)
                          = p ++ Spec.gap_record (snd rule) (snd row) :: q) as Hsplit.
    { intros rule H. unfold rule_records.
      assert (In row (List.filter (fun row => Spec.violates_on v (snd rule) (snd row))
                        (pd.iterrows v))) as Hf by (by apply filter_In).
      apply in_split in Hf as (l1 & l2 & ->). rewrite map_app. simpl. by eexists _, _. }
    destruct (Hsplit rule1 H1) as (p1 & q1 & E1).
    destruct (Hsplit rule2 H2) as (p2 & q2 & E2).
    rewrite !flat_map_app. simpl. rewrite !flat_map_app. simpl. rewrite E1, E2.
    exists (flat_map (fun rule => rule_records v (snd rule)) rs1 ++ p1),
      (q1 ++ flat_map (fun rule => rule_records v (snd rule)) rs2 ++ p2),
      (q2 ++ flat_map (fun rule => rule_records v (snd rule)) rs3).
    split; [|done]. by repeat (rewrite <- app_assoc; simpl).
Qed.

(** C10. In [find_exceptions] an antecedent or consequent item of a rule
    that is no column of the table is skipped, without an exception: the
    call returns, and a gap record is returned for a rule and a row if
    and only if the row agrees with the items of the rule that are
    columns. So when the table has no HAS_TEST column, every row that
    matches the antecedent of a rule that predicts {HAS_TEST} is
    reported as a violation of it. *)
Theorem find_exceptions_skips_missing_columns df rules v rv st :
  heap st !! df = Some v -> heap st !! rules = Some rv ->
  Spec.feature_table v = true -> Spec.rule_table rv = true ->
  exists gaps st',
    mining.find_exceptions df rules st = (Ok gaps, st') /\
    (forall g,
       In g gaps <->
       exists rule row,
         In rule (pd.iterrows rv) /\ In row (pd.iterrows v) /\
         Spec.agrees v true (snd row) (Spec.antecedents (snd rule)) = true /\
         Spec.agrees v false (snd row) (Spec.consequents (snd rule)) = true /\
         g = Spec.gap_record (snd rule) (snd row)) /\
    (pd.has_column v "HAS_TEST" = false ->
     forall rule row,
       In rule (pd.iterrows rv) -> Spec.predicts_test (snd rule) = true ->
       In row (pd.iterrows v) ->
       Spec.agrees v true (snd row) (Spec.antecedents (snd rule)) = true ->
       In (Spec.gap_record (snd rule) (snd row)) gaps).
Proof.
  intros Hdf Hrules Hv Hrt.
  destruct (find_exceptions_returns df rules v rv st Hdf Hrules Hv Hrt) as (st' & E).
  eexists _, st'. split; [exact E|].
  assert (forall g,
            In g (flat_map (fun rule => rule_records v (snd rule)) (pd.iterrows rv)) <->
            exists rule row,
              In rule (pd.iterrows rv) /\ In row (pd.iterrows v) /\
              Spec.agrees v true (snd row) (Spec.antecedents (snd rule)) = true /\
              Spec.agrees v false (snd row) (Spec.consequents (snd rule)) = true /\
              g = Spec.gap_record (snd rule) (snd row)) as Hiff.
  { intros g. rewrite in_flat_map. unfold rule_records, Spec.violates_on. split.
    - intros (rule & Hrule & H). apply in_map_iff in H as (row & <- & H).
      apply filter_In in H as [Hrow H]. apply andb_true_iff in H as [H1 H2].
      by exists rule, row.
    - intros (rule & row & Hrule & Hrow & H1 & H2 & ->). exists rule. split; [done|].
      apply in_map_iff. exists row. split; [done|]. apply filter_In. split; [done|].
      by rewrite H1, H2. }
  split; [exact Hiff|].
  intros Hno rule row Hrule Hp Hrow Ha. apply Hiff. exists rule, row.
  split; [done|]. split; [done|]. split; [done|]. split; [|done].
  rewrite (predicts_test_consequents _ Hp). unfold Spec.agrees. simpl. by rewrite Hno.
Qed.

(** C5. For every sequence of query records whose statuses are in
    their domains, [extract_features_for_mining] returns a table of which
    every row has exactly one of the two columns of each status pair
    true, when both columns of the pair exist. *)
Theorem extract_features_exactly_one data st :
  forallb Spec.valid_record data = true ->
  exists df text_map st' v,
    mining.extract_features_for_mining data st = (Ok (df, text_map), st') /\
    heap st' !! df = Some v /\
    forall row yes no,
      In row (pd.iterrows v) -> In (yes, no) Spec.status_pairs ->
      pd.has_column v yes = true -> pd.has_column v no = true ->
      Spec.exactly_one (snd row) yes no = true.
Proof.
  intros Hv. destruct (extract_features_run data st Hv) as (text_map & E).
  eexists _, text_map, _, (feature_frame data). split; [exact E|].
  split; [apply lookup_alloc|].
  intros row yes no Hrow Hp Hy Hn.
  apply in_map_iff in Hrow as ([i cells] & <- & Hr). simpl in Hr. simpl.
  apply in_combine_r, in_map_iff in Hr as (r & <- & Hr).
  assert (forall c, In (c, no) Spec.status_pairs \/ In (yes, c) Spec.status_pairs ->
            pd.has_column (feature_frame data) c = true ->
            In c (mlxtend.fit (map basket data))) as Hcol.
  { intros c Hc H. apply has_column_In in H. simpl in H.
    apply in_app_iff in H as [H|[<-|[]]]; [done|].
    destruct Hc as [Hc|Hc]; simpl in Hc;
      by destruct Hc as [[= ? ?]|[[= ? ?]|[[= ? ?]|[]]]]. }
  apply (exactly_one_status data); try done; apply Hcol; auto.
Qed.

(** The table and the rule of E2E-2, computed. *)
Lemma e2e2_discover : Pure.discover_rules Spec.e2e2_table = Ok Spec.e2e2_rules.
Proof. vm_compute. reflexivity. Qed.

Lemma e2e2_exceptions :
  Pure.find_exceptions Spec.e2e2_table Spec.e2e2_rules
  = Ok [mining.mkGap (CStr "REQ-10") "Rule: IF ['HAS_RISK'] THEN ['HAS_TEST']"
          (CFloat (Fin (9 # 10)))].
Proof. vm_compute. reflexivity. Qed.

(** C3. On the 15-row table of E2E-2, [discover_rules] accepts the rule
    {HAS_RISK} -> {HAS_TEST}, and only it: its support 9/15 = 3/5 is at
    least 0.01 and its confidence 9/10 at least 0.5. [find_exceptions]
    on the table and that rule returns exactly one gap record, for
    REQ-10, the one row {HAS_RISK, NO_TEST}. *)
Theorem e2e2_rule_and_gap df st :
  heap st !! df = Some Spec.e2e2_table ->
  exists rules st1 st2,
    mining.discover_rules df st = (Ok rules, st1) /\
    heap st1 !! rules = Some Spec.e2e2_rules /\
    pd.iterrows Spec.e2e2_rules
    = [(0, [("antecedents", CSet ["HAS_RISK"]); ("consequents", CSet ["HAS_TEST"]);
            ("antecedent support", CFloat (Fin (2 # 3)));
            ("consequent support", CFloat (Fin (3 # 5)));
            ("support", CFloat (Fin (3 # 5))); ("confidence", CFloat (Fin (9 # 10)));
            ("consequents_str", CStr "frozenset({'HAS_TEST'})")])] /\
    (1 # 100 <= 3 # 5)%Q /\ (1 # 2 <= 9 # 10)%Q /\
    mining.find_exceptions df rules st1
    = (Ok [mining.mkGap (CStr "REQ-10") "Rule: IF ['HAS_RISK'] THEN ['HAS_TEST']"
             (CFloat (Fin (9 # 10)))], st2) /\
    In (9, [CBool true; CBool false; CBool false; CBool true; CStr "REQ-10"])
      (pd.rows Spec.e2e2_table).
Proof.
  intros Hdf.
  destruct (discover_rules_run df _ st Hdf) as (st1 & G & H).
  rewrite e2e2_discover in H. destruct H as (rules & E1 & Hrules).
  destruct (find_exceptions_run df rules _ _ st1 (grows_lookup _ _ _ _ G Hdf) Hrules)
    as (st2 & E2 & _).
  rewrite e2e2_exceptions in E2.
  exists rules, st1, st2. split; [done|]. split; [done|]. split; [reflexivity|].
  split; [done|]. split; [done|]. split; [done|].
  vm_compute. tauto.
Qed.

Lemma safe_ret {A} (a : A) : safe (ret a).
Proof. intros st. apply grows_refl. Qed.

Lemma safe_lift {A} (r : result A) : safe (lift r).
Proof. intros st. apply grows_refl. Qed.

Lemma safe_print s : safe (print s).
Proof. intros st. apply grows_print. Qed.

Lemma safe_alloc v : safe (alloc v).
Proof. intros st. apply grows_alloc. Qed.

Lemma safe_load l : safe (load l).
Proof. intros st. unfold load. destruct (heap st !! l); apply grows_refl. Qed.

Lemma safe_bind {A B} (c : M A) (k : A -> M B) :
  safe c -> (forall a, safe (k a)) -> safe (bind c k).
Proof.
  intros Hc Hk st. unfold bind. specialize (Hc st).
  destruct (c st) as [[a|e] st']; simpl in *; [|done].
  eapply grows_trans; [exact Hc|apply Hk].
Qed.

Lemma safe_for_each {A S} (body : S -> A -> M S) l :
  (forall s x, safe (body s x)) -> forall s, safe (Loop.for_each l s body).
Proof.
  intros Hb. induction l as [|x l IH]; intros s; simpl.
  - apply safe_ret.
  - apply safe_bind; [apply Hb|apply IH].
Qed.

Ltac safe_steps :=
  repeat first
    [ apply safe_ret | apply safe_lift | apply safe_print | apply safe_alloc
    | apply safe_load | apply safe_bind | intros ? ].

Lemma safe_narrow df items b cur : safe (mining.narrow df items b cur).
Proof.
  unfold mining.narrow. apply safe_for_each. intros s x.
  unfold DF.has_column, DF.getitem, DF.getitem_mask.
  apply safe_bind; [safe_steps|]. intros [|]; safe_steps.
Qed.

Lemma safe_find_exceptions df rules : safe (mining.find_exceptions df rules).
Proof.
  unfold mining.find_exceptions, DF.iterrows.
  apply safe_bind; [safe_steps|]. intros _. apply safe_bind; [safe_steps|]. intros rows.
  apply safe_for_each. intros exceptions [index rule]. unfold mining.check_rule.
  do 4 (apply safe_bind; [safe_steps|]; intros ?).
  apply safe_bind; [apply safe_narrow|]. intros ?.
  apply safe_bind; [apply safe_narrow|]. intros ?.
  unfold DF.iterrows. apply safe_bind; [safe_steps|]. intros ?.
  apply safe_for_each. intros s [i violation]. unfold mining.append_gap. safe_steps.
Qed.

Lemma discover_rules_grows df st : grows st (snd (mining.discover_rules df st)).
Proof.
  destruct (heap st !! df) as [v|] eqn:Hdf.
  - destruct (discover_rules_run df v st Hdf) as (st' & G & H).
    destruct (Pure.discover_rules v); [destruct H as (l & -> & _)|rewrite H]; done.
  - unfold mining.discover_rules. erewrite bind_ok; [|reflexivity].
    unfold DF.drop. rewrite bind_assoc. erewrite bind_raise; [|by apply load_dangling].
    apply grows_print.
Qed.

(** C9. Neither [discover_rules] nor [find_exceptions] modifies its
    input: after either call, from any state and whatever the outcome,
    every object that was in the store, so the table passed in with all
    its rows and columns and the rule set, is there unchanged. *)
Theorem mining_leaves_inputs_unchanged df rules st :
  (forall l x,
     heap st !! l = Some x -> heap (snd (mining.discover_rules df st)) !! l = Some x) /\
  (forall l x,
     heap st !! l = Some x ->
     heap (snd (mining.find_exceptions df rules st)) !! l = Some x).
Proof.
  split; intros l x H.
  - eapply grows_lookup; [apply discover_rules_grows|done].
  - eapply grows_lookup; [apply safe_find_exceptions|done].
Qed.

End Claims.

(** ** The properties at concrete inputs *)

Section Witnesses.
Import Py Run Sem.

(** E2E-1: the rules that predict HAS_TEST have confidence 0.2, and
    [discover_rules] returns the empty frame. *)
Example e2e1_no_rule :
  let run :=
    bind (mining.extract_features_for_mining Spec.e2e1_records)
      (fun p => mining.discover_rules (fst p)) (mkState [] []) in
  exists rules, fst run = Ok rules /\ heap (snd run) !! rules = Some pd.new.
Proof. vm_compute. by eexists. Qed.

(** E2E-3: no records, an empty table, no rules, no gaps. *)
Example e2e3_empty :
  let run :=
    bind (mining.extract_features_for_mining [])
      (fun p =>
         bind (mining.discover_rules (fst p))
           (fun rules => mining.find_exceptions (fst p) rules)) (mkState [] []) in
  fst run = Ok [].
Proof. vm_compute. reflexivity. Qed.

(** E2E-4: the row REQ-7 violates both rules and has two gap records. *)
Example e2e4_two_records :
  fst (mining.find_exceptions 0 1 Spec.e2e4_state)
  = Ok [mining.mkGap (CStr "REQ-7") "Rule: IF ['HAS_CODE'] THEN ['HAS_TEST']"
          (CFloat (Fin (3 # 5)));
        mining.mkGap (CStr "REQ-7") "Rule: IF ['HAS_RISK'] THEN ['HAS_TEST']"
          (CFloat (Fin (9 # 10)))].
Proof. vm_compute. reflexivity. Qed.

(** Without a HAS_TEST column, the one row with HAS_RISK is reported. *)
Example untested_reported :
  fst (mining.find_exceptions 0 1 Spec.untested_state)
  = Ok [mining.mkGap (CStr "REQ-1") "Rule: IF ['HAS_RISK'] THEN ['HAS_TEST']"
          (CFloat (Fin (9 # 10)))].
Proof. vm_compute. reflexivity. Qed.

Lemma find_exceptions_violation_iff_witness :
  heap Spec.e2e2_state !! 0 = Some Spec.e2e2_table /\
  heap Spec.e2e2_state !! 1 = Some Spec.e2e2_rules /\
  Spec.feature_table Spec.e2e2_table = true /\
  pd.has_column Spec.e2e2_table "HAS_TEST" = true /\
  Spec.rule_set Spec.e2e2_rules = true /\
  Spec.items_in Spec.e2e2_table Spec.e2e2_rules = true /\
  exists pairs st',
    mining.find_exceptions 0 1 Spec.e2e2_state
    = (Ok (map (fun p => Spec.gap_record (snd (fst p)) (snd (snd p))) pairs), st') /\
    forall rule row,
      In (rule, row) pairs <->
      In rule (pd.iterrows Spec.e2e2_rules) /\ In row (pd.iterrows Spec.e2e2_table) /\
      Spec.violates (snd rule) (snd row) = true.
Proof.
  do 6 (split; [reflexivity|]).
  apply (find_exceptions_violation_iff 0 1 Spec.e2e2_table Spec.e2e2_rules Spec.e2e2_state);
    reflexivity.
Defined.

Lemma discover_rules_predicts_has_test_witness :
  heap Spec.e2e2_state !! 0 = Some Spec.e2e2_table /\
  Spec.feature_table Spec.e2e2_table = true /\
  exists rules st' rv,
    mining.discover_rules 0 Spec.e2e2_state = (Ok rules, st') /\
    heap st' !! rules = Some rv /\
    forall rule, In rule (pd.iterrows rv) ->
      pd.assoc "consequents" (snd rule) = Some (CSet ["HAS_TEST"]).
Proof.
  do 2 (split; [reflexivity|]).
  apply (discover_rules_predicts_has_test 0 Spec.e2e2_table Spec.e2e2_state); reflexivity.
Defined.

Lemma e2e2_rule_and_gap_witness :
  heap Spec.e2e2_state !! 0 = Some Spec.e2e2_table /\
  exists rules st1 st2,
    mining.discover_rules 0 Spec.e2e2_state = (Ok rules, st1) /\
    heap st1 !! rules = Some Spec.e2e2_rules /\
    pd.iterrows Spec.e2e2_rules
    = [(0, [("antecedents", CSet ["HAS_RISK"]); ("consequents", CSet ["HAS_TEST"]);
            ("antecedent support", CFloat (Fin (2 # 3)));
            ("consequent support", CFloat (Fin (3 # 5)));
            ("support", CFloat (Fin (3 # 5))); ("confidence", CFloat (Fin (9 # 10)));
            ("consequents_str", CStr "frozenset({'HAS_TEST'})")])] /\
    (1 # 100 <= 3 # 5)%Q /\ (1 # 2 <= 9 # 10)%Q /\
    mining.find_exceptions 0 rules st1
    = (Ok [mining.mkGap (CStr "REQ-10") "Rule: IF ['HAS_RISK'] THEN ['HAS_TEST']"
             (CFloat (Fin (9 # 10)))], st2) /\
    In (9, [CBool true; CBool false; CBool false; CBool true; CStr "REQ-10"])
      (pd.rows Spec.e2e2_table).
Proof.
  split; [reflexivity|].
  apply (e2e2_rule_and_gap 0 Spec.e2e2_state); reflexivity.
Defined.

Lemma discover_rules_thresholds_witness :
  heap Spec.e2e2_state !! 0 = Some Spec.e2e2_table /\
  Spec.feature_table Spec.e2e2_table = true /\
  exists rules st' rv,
    mining.discover_rules 0 Spec.e2e2_state = (Ok rules, st') /\
    heap st' !! rules = Some rv /\
    forall rule, In rule (pd.iterrows rv) ->
      exists s c,
        pd.assoc "support" (snd rule) = Some (CFloat (Fin s)) /\
        pd.assoc "confidence" (snd rule) = Some (CFloat (Fin c)) /\
        (1 # 100 <= s)%Q /\ (0 <= c)%Q /\ (c <= 1)%Q /\ (1 # 2 <= c)%Q.
Proof.
  do 2 (split; [reflexivity|]).
  apply (discover_rules_thresholds 0 Spec.e2e2_table Spec.e2e2_state); reflexivity.
Defined.

Lemma extract_features_exactly_one_witness :
  forallb Spec.valid_record Spec.two_records = true /\
  exists df text_map st' v,
    mining.extract_features_for_mining Spec.two_records (mkState [] [])
    = (Ok (df, text_map), st') /\
    heap st' !! df = Some v /\
    forall row yes no,
      In row (pd.iterrows v) -> In (yes, no) Spec.status_pairs ->
      pd.has_column v yes = true -> pd.has_column v no = true ->
      Spec.exactly_one (snd row) yes no = true.
Proof.
  split; [reflexivity|].
  apply (extract_features_exactly_one Spec.two_records (mkState [] [])); reflexivity.
Defined.

(** C6 at its four cases: the table without rows, a table on which no
    item set is frequent, the table of E2E-1 on which rules are mined
    and none predicts HAS_TEST, and a rule frame without rows. *)
Lemma empty_results_are_no_errors_witness :
  (Spec.feature_table Cases.no_rows_table = true /\
   pd.rows Cases.no_rows_table = [] /\
   exists rules st',
     mining.discover_rules 0 (mkState [Cases.no_rows_table] []) = (Ok rules, st') /\
     heap st' !! rules = Some pd.new) /\
  (Spec.feature_table Cases.no_item_table = true /\
   pd.rows Cases.no_item_table <> [] /\
   (exists dm fi,
      pd.drop Cases.no_item_table ["id"] = Ok dm /\
      mlxtend.apriori_frame dm (Fin (1 # 100)) = Ok fi /\ pd.rows fi = []) /\
   exists rules st',
     mining.discover_rules 0 (mkState [Cases.no_item_table] []) = (Ok rules, st') /\
     heap st' !! rules = Some pd.new) /\
  (Spec.feature_table Cases.e2e1_table = true /\
   (exists dm fi mined,
      pd.drop Cases.e2e1_table ["id"] = Ok dm /\
      mlxtend.apriori_frame dm (Fin (1 # 100)) = Ok fi /\
      mlxtend.association_rules_frame fi (Fin (1 # 2)) = Ok mined /\
      pd.rows mined <> [] /\
      forall rule, In rule (pd.iterrows mined) ->
        pd.assoc "consequents" (snd rule) <> Some (CSet ["HAS_TEST"])) /\
   exists rules st',
     mining.discover_rules 0 (mkState [Cases.e2e1_table] []) = (Ok rules, st') /\
     heap st' !! rules = Some pd.new) /\
  (heap (mkState [Spec.e2e2_table; pd.new] []) !! 1 = Some pd.new /\
   pd.rows pd.new = [] /\
   exists st',
     mining.find_exceptions 0 1 (mkState [Spec.e2e2_table; pd.new] []) = (Ok [], st')).
Proof.
  split; [|split; [|split]].
  - do 2 (split; [reflexivity|]).
    destruct (empty_results_are_no_errors 0 Cases.no_rows_table
                (mkState [Cases.no_rows_table] []) eq_refl eq_refl)
      as [(rules & st' & rv & E & H & Hrows & _) _].
    exists rules, st'. split; [exact E|]. rewrite (Hrows eq_refl) in H. exact H.
  - split; [reflexivity|]. split; [discriminate|].
    assert (exists dm fi,
              pd.drop Cases.no_item_table ["id"] = Ok dm /\
              mlxtend.apriori_frame dm (Fin (1 # 100)) = Ok fi /\ pd.rows fi = [])
      as (dm & fi & Edm & Efi & Hfi).
    { eexists _, _. split; [vm_compute; reflexivity|].
      split; [vm_compute; reflexivity|reflexivity]. }
    split; [exists dm, fi; split; [exact Edm|split; [exact Efi|exact Hfi]]|].
    destruct (empty_results_are_no_errors 0 Cases.no_item_table
                (mkState [Cases.no_item_table] []) eq_refl eq_refl)
      as [(rules & st' & rv & E & H & _ & Hnone & _) _].
    exists rules, st'. split; [exact E|].
    rewrite (Hnone dm fi Edm Efi Hfi) in H. exact H.
  - split; [reflexivity|].
    assert (exists dm fi mined,
              pd.drop Cases.e2e1_table ["id"] = Ok dm /\
              mlxtend.apriori_frame dm (Fin (1 # 100)) = Ok fi /\
              mlxtend.association_rules_frame fi (Fin (1 # 2)) = Ok mined /\
              pd.rows mined <> [] /\
              forall rule, In rule (pd.iterrows mined) ->
                pd.assoc "consequents" (snd rule) <> Some (CSet ["HAS_TEST"]))
      as (dm & fi & mined & Edm & Efi & Emined & Hrows & Hrules).
    { eexists _, _, _. split; [vm_compute; reflexivity|].
      split; [vm_compute; reflexivity|]. split; [vm_compute; reflexivity|].
      split; [discriminate|]. intros rule Hin. vm_compute in Hin.
      repeat (destruct Hin as [<-|Hin]; [vm_compute; discriminate|]).
      destruct Hin. }
    split; [exists dm, fi, mined; repeat split; assumption|].
    destruct (empty_results_are_no_errors 0 Cases.e2e1_table
                (mkState [Cases.e2e1_table] []) eq_refl eq_refl)
      as [(rules & st' & rv & E & H & _ & _ & Hfilter) _].
    exists rules, st'. split; [exact E|].
    rewrite (Hfilter dm fi mined Edm Efi Emined Hrules) in H. exact H.
  - do 2 (split; [reflexivity|]).
    destruct (empty_results_are_no_errors 0 Spec.e2e2_table
                (mkState [Spec.e2e2_table; pd.new] []) eq_refl eq_refl) as [_ H].
    exact (H 1 pd.new eq_refl eq_refl).
Defined.

Lemma find_exceptions_one_record_per_pair_witness :
  heap Spec.e2e4_state !! 0 = Some Spec.e2e4_table /\
  heap Spec.e2e4_state !! 1 = Some Spec.e2e4_rules /\
  Spec.feature_table Spec.e2e4_table = true /\
  Spec.rule_table Spec.e2e4_rules = true /\
  exists gaps st',
    mining.find_exceptions 0 1 Spec.e2e4_state = (Ok gaps, st') /\
    map mining.gap_id gaps = [CStr "REQ-7"; CStr "REQ-7"].
Proof.
  do 4 (split; [reflexivity|]).
  destruct (find_exceptions_one_record_per_pair 0 1 Spec.e2e4_table Spec.e2e4_rules
              Spec.e2e4_state eq_refl eq_refl eq_refl eq_refl)
    as (gaps & st' & E & -> & _).
  eexists _, st'. split; [exact E|]. reflexivity.
Defined.

Lemma mining_leaves_inputs_unchanged_witness :
  heap (snd (mining.discover_rules 0 Spec.e2e2_state)) !! 0 = Some Spec.e2e2_table /\
  heap (snd (mining.find_exceptions 0 1 Spec.e2e2_state)) !! 0 = Some Spec.e2e2_table /\
  heap (snd (mining.find_exceptions 0 1 Spec.e2e2_state)) !! 1 = Some Spec.e2e2_rules.
Proof.
  split; [|split].
  - apply (mining_leaves_inputs_unchanged 0 1 Spec.e2e2_state). reflexivity.
  - apply (mining_leaves_inputs_unchanged 0 1 Spec.e2e2_state). reflexivity.
  - apply (mining_leaves_inputs_unchanged 0 1 Spec.e2e2_state). reflexivity.
Defined.

Lemma find_exceptions_skips_missing_columns_witness :
  heap Spec.untested_state !! 0 = Some Spec.untested_table /\
  heap Spec.untested_state !! 1 = Some Spec.e2e2_rules /\
  Spec.feature_table Spec.untested_table = true /\
  Spec.rule_table Spec.e2e2_rules = true /\
  pd.has_column Spec.untested_table "HAS_TEST" = false /\
  exists gaps st',
    mining.find_exceptions 0 1 Spec.untested_state = (Ok gaps, st') /\
    forall rule row,
      In rule (pd.iterrows Spec.e2e2_rules) -> Spec.predicts_test (snd rule) = true ->
      In row (pd.iterrows Spec.untested_table) ->
      Spec.agrees Spec.untested_table true (snd row) (Spec.antecedents (snd rule)) = true ->
      In (Spec.gap_record (snd rule) (snd row)) gaps.
Proof.
  do 5 (split; [reflexivity|]).
  destruct (find_exceptions_skips_missing_columns 0 1 Spec.untested_table Spec.e2e2_rules
              Spec.untested_state eq_refl eq_refl eq_refl eq_refl)
    as (gaps & st' & E & _ & H).
  exists gaps, st'. split; [exact E|]. by apply H.
Defined.

End Witnesses.

(** ** The rules the miner derives *)

Section Derived.
Import Py Mined.

Variable cols : list string.
Variable X : list (list bool).
Variable m : Q.

Lemma rmap_inv {A B} (f : A -> result B) l : forall ys,
  rmap f l = Ok ys -> Forall2 (fun x y => f x = Ok y) l ys.
Proof.
  induction l as [|x l IH]; simpl; intros ys.
  - intros [= <-]. constructor.
  - destruct (f x) as [y|e] eqn:E; [|done]. simpl.
    destruct (rmap f l) as [ys'|e]; [|done]. simpl. intros [= <-].
    constructor; [done|by apply IH].
Qed.

Lemma rmap_Forall {A B} (P : B -> Prop) (f : A -> result B) l ys :
  rmap f l = Ok ys -> (forall x y, In x l -> f x = Ok y -> P y) -> Forall P ys.
Proof.
  intros H HP. apply rmap_inv in H.
  induction H as [|x y l ys E H IH]; constructor.
  - apply (HP x); [by left|done].
  - apply IH. intros x' y' Hx'. apply HP. by right.
Qed.

Lemma dict_get_good d k s :
  good cols X m d -> mlxtend.dict_get d k = Ok s -> s = mlxtend.support cols X k.
Proof.
  intros Hd. induction d as [|[k1 s1] d IH]; simpl; [done|].
  destruct (set_eqb k k1) eqn:E.
  - intros [= <-]. destruct (Hd k1 s1 (or_introl eq_refl)) as (-> & _).
    symmetry. by apply support_set_eqb.
  - apply IH. intros k2 s2 H2. apply Hd. by right.
Qed.

Lemma split_rule_derived d t k s c rs :
  good cols X m d -> In (k, s) d -> c `sublist_of` k -> 1 <= length c ->
  mlxtend.split_rule d t k s c = Ok rs -> Forall (derived cols X) rs.
Proof.
  intros Hd Hk Hc Hl. unfold mlxtend.split_rule.
  destruct (mlxtend.dict_get d c) as [sA|e] eqn:EA; [|done]. simpl.
  destruct (mlxtend.dict_get d (mlxtend.difference k c)) as [sC|e] eqn:EC; [|done]. simpl.
  intros [= <-]. destruct (fge (fdiv s sA) t); [|constructor].
  constructor; [|constructor].
  destruct (Hd k s Hk) as (-> & _ & Hsub & _).
  apply (dict_get_good d c) in EA; [|done]. subst sA.
  by exists k.
Qed.

Lemma rules_of_itemset_derived d t k s rs :
  good cols X m d -> In (k, s) d ->
  mlxtend.rules_of_itemset d t k s = Ok rs -> Forall (derived cols X) rs.
Proof.
  intros Hd Hk. unfold mlxtend.rules_of_itemset.
  destruct (rmap _ (rev (seq 1 (length k - 1)))) as [rsss|e] eqn:E; [|done].
  simpl. intros [= <-]. apply Forall_concat, Forall_concat.
  eapply rmap_Forall; [exact E|]. intros idx rss Hidx Hrss. cbv beta in Hrss.
  eapply rmap_Forall; [exact Hrss|]. intros c rs Hc Hrs.
  apply combinations_sublist in Hc as [Hsub Hlen].
  apply in_rev, in_seq in Hidx.
  apply (split_rule_derived d t k s c); try done. lia.
Qed.

Lemma mine_derived d t rs :
  good cols X m d -> mlxtend.mine d t = Ok rs -> Forall (derived cols X) rs.
Proof.
  intros Hd. unfold mlxtend.mine.
  destruct (rmap _ d) as [rss|e] eqn:E; [|done]. simpl. intros [= <-].
  apply Forall_concat. eapply rmap_Forall; [exact E|].
  intros [k s] rs Hk Hrs. by apply (rules_of_itemset_derived d t k s).
Qed.

End Derived.

Section DiscoverMined.
Import Py Mined.

Lemma association_rules_derived cols X F :
  NoDup cols -> F = mlxtend.frequent cols X (Fin (1 # 100)) -> F <> [] ->
  exists rs,
    Forall (accepted (1 # 100) (1 # 2)) rs /\ Forall (derived cols X) rs /\
    mlxtend.association_rules_frame
      (pd.of_rows ["support"; "itemsets"] (map mlxtend.itemset_cells F)) (Fin (1 # 2))
    = Ok (pd.of_rows mlxtend.rule_columns (map mlxtend.rule_cells rs)).
Proof.
  intros Hnd EF HF. unfold mlxtend.association_rules_frame, pd.of_rows.
  simpl pd.rows. rewrite length_combine, length_seq, !length_map, Nat.min_id.
  destruct (Nat.eqb (length F) 0) eqn:E0.
  { apply Nat.eqb_eq in E0. by destruct F. }
  change (negb (pd.has_column _ "support" && pd.has_column _ "itemsets")) with false.
  cbv iota.
  rewrite (getitem_rows _ _ 1 mlxtend.itemset_cells (fun p => CSet (snd p))) by done.
  simpl rbind. rewrite (rmap_map_ok _ _ snd) by done. simpl rbind.
  rewrite (getitem_rows _ _ 0 mlxtend.itemset_cells (fun p => CFloat (fst p))) by done.
  simpl rbind. rewrite (rmap_map_ok _ _ fst) by done. simpl rbind.
  destruct (dict_of_frequent cols X (1 # 100)) as [Hg Hc]. rewrite <- EF in Hg, Hc.
  destruct (mine_accepted cols X (1 # 100) (1 # 2) eq_refl Hnd _ Hg Hc) as (rs & Em & Hrs).
  exists rs. split; [done|]. split; [by eapply mine_derived|].
  rewrite Em. simpl rbind. by rewrite !length_map.
Qed.

Lemma flag_columns_NoDup v : Spec.well_formed v = true -> NoDup (flag_columns v).
Proof.
  intros Hwf. eapply sublist_NoDup; [|apply filter_sublist]. apply distinct_NoDup.
  unfold Spec.well_formed in Hwf. by apply andb_true_iff in Hwf as [? _].
Qed.

(** What [discover_rules] computes on a feature table: the rules [rs]
    that [association_rules] derives, filtered. *)
Lemma discover_rules_mined v :
  Spec.feature_table v = true ->
  exists X rs,
    mlxtend.values (flag_frame v) = Ok X /\ length X = length (pd.rows v) /\
    Forall (accepted (1 # 100) (1 # 2)) rs /\ Forall (derived (flag_columns v) X) rs /\
    Pure.discover_rules v = Ok (testing_frame rs).
Proof.
  intros Hv. destruct (feature_table_well_formed v Hv) as [Hwf Hid].
  destruct (values_drop v Hv) as (X & EX & LX).
  unfold Pure.discover_rules. rewrite (drop_id v Hid). simpl rbind.
  exists X. unfold mlxtend.apriori_frame.
  change (fge (Fin 0) (Fin (1 # 100))) with false. cbv iota.
  rewrite EX. simpl rbind. simpl pd.columns.
  fold (flag_columns v).
  destruct (mlxtend.frequent (flag_columns v) X (Fin (1 # 100))) as [|p F] eqn:EF.
  { exists []. split; [done|]. split; [done|]. split; [constructor|]. split; [constructor|done]. }
  destruct (association_rules_derived (flag_columns v) X (p :: F)) as (rs & Hrs & Hd & E);
    [by apply flag_columns_NoDup|done|done|].
  change (pd.empty (pd.of_rows _ (map mlxtend.itemset_cells (p :: F)))) with false.
  cbv iota. rewrite E. simpl rbind.
  exists rs. split; [done|]. split; [done|]. split; [done|]. split; [done|].
  destruct rs as [|r rs]; [done|].
  change (pd.empty (pd.of_rows _ (map mlxtend.rule_cells (r :: rs)))) with false.
  cbv iota. rewrite about_testing_rules. simpl rbind.
  unfold testing_frame, pd.empty. simpl pd.rows.
  by destruct (testing_rows (r :: rs)).
Qed.

End DiscoverMined.

(** ** The rows of the table and the rows the miner counts *)

Section Counts.
Import Py Mined.

Lemma keep_id c : pd.keep ["id"] c = negb (String.eqb c "id").
Proof. unfold pd.keep. simpl. by rewrite orb_false_r. Qed.

Lemma in_flag_columns v c :
  In c (flag_columns v) <-> In c (pd.columns v) /\ c <> "id".
Proof.
  unfold flag_columns. rewrite filter_In, keep_id, negb_true_iff.
  by rewrite String.eqb_neq.
Qed.

(** A flag cell of a row, and the boolean [apriori] reads for it. *)
Lemma flag_cell c cols : forall cells bs,
  forallb (fun cx => Spec.is_flag (fst cx) (snd cx)) (combine cols cells) = true ->
  length cells = length cols ->
  rmap (fun x => of_option (mlxtend.as_bool x)
                   (ValueError "The allowed values for a DataFrame are True, False, 0, 1."))
    (pd.select cells (map (pd.keep ["id"]) cols)) = Ok bs ->
  In c (List.filter (pd.keep ["id"]) cols) ->
  Spec.cell_is true (combine cols cells) c
  = mlxtend.has_item (List.filter (pd.keep ["id"]) cols) bs c /\
  Spec.cell_is false (combine cols cells) c
  = negb (mlxtend.has_item (List.filter (pd.keep ["id"]) cols) bs c).
Proof.
  induction cols as [|d cols IH]; intros [|x cells] bs; simpl; try done.
  intros H L. apply andb_true_iff in H as [Hx H]. injection L as L.
  rewrite keep_id. unfold Spec.is_flag in Hx. simpl in Hx.
  destruct (String.eqb d "id") eqn:Ed; simpl.
  - intros E Hc. apply String.eqb_eq in Ed. subst d.
    assert (String.eqb c "id" = false) as Hne.
    { apply filter_In in Hc as [_ Hc]. rewrite keep_id in Hc. by apply negb_true_iff. }
    unfold Spec.cell_is. simpl. rewrite Hne. by apply IH.
  - destruct x as [b| | |]; try done. simpl.
    destruct (rmap _ (pd.select cells _)) as [bs'|e] eqn:E'; [|done]. simpl.
    intros [= <-] Hc. unfold Spec.cell_is, mlxtend.has_item. simpl.
    destruct (String.eqb c d) eqn:Ecd.
    + simpl. by destruct b.
    + destruct Hc as [->|Hc]; [by rewrite String.eqb_refl in Ecd|].
      destruct (IH cells bs' H L E' Hc) as [H1 H2].
      unfold Spec.cell_is, mlxtend.has_item in H1, H2. rewrite H1, H2.
      by destruct (pd.position c (List.filter (pd.keep ["id"]) cols)).
Qed.

(** [X] holds, row by row, the flags of the table. *)
Lemma values_rows v X :
  Spec.feature_table v = true -> mlxtend.values (flag_frame v) = Ok X ->
  Forall2
    (fun r bs =>
       forall c, In c (flag_columns v) ->
         Spec.cell_is true (snd (series (pd.columns v) r)) c
         = mlxtend.has_item (flag_columns v) bs c /\
         Spec.cell_is false (snd (series (pd.columns v) r)) c
         = negb (mlxtend.has_item (flag_columns v) bs c))
    (pd.rows v) X.
Proof.
  intros Hv. destruct (feature_table_well_formed v Hv) as [Hwf _].
  pose proof (well_formed_full v Hwf) as Hfull.
  unfold Spec.feature_table in Hv. apply andb_true_iff in Hv as [_ Hflags].
  unfold mlxtend.values, flag_frame. simpl pd.rows. revert X Hflags Hfull.
  induction (pd.rows v) as [|r rs IH]; simpl; intros X Hflags Hfull.
  - intros [= <-]. constructor.
  - apply andb_true_iff in Hflags as [Hr Hflags]. apply Forall_cons in Hfull as [Lr Hfull].
    destruct (rmap _ (pd.select (snd r) _)) as [bs|e] eqn:E; [|done]. simpl.
    destruct (rmap _ (map _ rs)) as [X'|e] eqn:E'; [|done]. simpl. intros [= <-].
    constructor; [|by apply IH].
    intros c Hc. by apply flag_cell.
Qed.

Lemma filter_length_Forall2 {A B} (p : A -> bool) (q : B -> bool) l l' :
  Forall2 (fun x y => p x = q y) l l' ->
  length (List.filter p l) = length (List.filter q l').
Proof.
  induction 1 as [|x y l l' E H IH]; simpl; [done|].
  rewrite E. destruct (q y); simpl; by rewrite IH.
Qed.

Lemma forallb_eq_in {A} (p q : A -> bool) l :
  (forall x, In x l -> p x = q x) -> forallb p l = forallb q l.
Proof.
  induction l as [|x l IH]; intros H; simpl; [done|].
  rewrite (H x (or_introl eq_refl)), IH; [done|]. intros y Hy. apply H. by right.
Qed.

(** The rows [apriori] counts for an item set are the rows of the table
    on which its columns are True. *)
Lemma count_matching v X items :
  Spec.feature_table v = true -> mlxtend.values (flag_frame v) = Ok X ->
  (forall c, In c items -> In c (flag_columns v)) ->
  mlxtend.count (flag_columns v) X items = length (matching v items).
Proof.
  intros Hv EX Hitems. unfold mlxtend.count, matching. rewrite iterrows_series.
  rewrite filter_map_comm, length_map. symmetry.
  apply filter_length_Forall2.
  eapply Forall2_impl; [by apply values_rows|]. cbv beta.
  intros r bs H. apply forallb_eq_in. intros c Hc. by apply H, Hitems.
Qed.

End Counts.

Section Exceptions.
Import Py Mined.

Lemma filter_split_length {A} (p q : A -> bool) l :
  length (List.filter (fun x => p x && negb (q x)) l)
  + length (List.filter (fun x => p x && q x) l)
  = length (List.filter p l).
Proof.
  induction l as [|x l IH]; simpl; [done|].
  destruct (p x), (q x); simpl; lia.
Qed.

(** The items of a derived rule whose consequent is {HAS_TEST}. *)
Lemma derived_items cols X r :
  NoDup cols -> derived cols X r -> mlxtend.consequents r = ["HAS_TEST"] ->
  exists k,
    (forall x, In x k <-> In x (mlxtend.antecedents r) \/ x = "HAS_TEST") /\
    (forall x, In x k -> In x cols) /\
    ~ In "HAS_TEST" (mlxtend.antecedents r) /\
    NoDup (mlxtend.antecedents r) /\
    1 <= length (mlxtend.antecedents r) /\
    mlxtend.rule_support r = mlxtend.support cols X k /\
    mlxtend.confidence r
    = fdiv (mlxtend.support cols X k) (mlxtend.support cols X (mlxtend.antecedents r)).
Proof.
  intros Hnd (k & Hk & Ha & Hl & Hc & Hs & Hconf) Ht. rewrite Ht in Hc.
  assert (forall x, In x (mlxtend.difference k (mlxtend.antecedents r)) <->
                    In x k /\ ~ In x (mlxtend.antecedents r)) as Hdiff.
  { intros x. unfold mlxtend.difference. rewrite filter_In, negb_true_iff.
    rewrite <- not_true_iff_false, existsb_eqb. done. }
  assert (forall x, In x (mlxtend.antecedents r) -> In x k) as Hak.
  { intros x Hx. apply list_elem_of_In. eapply elem_of_sublist; [|exact Ha].
    by apply list_elem_of_In. }
  exists k. split; [|split; [|split; [|split; [|done]]]].
  - intros x. split.
    + intros Hx. destruct (in_dec String.string_dec x (mlxtend.antecedents r)) as [Hin|Hout];
        [by left|right].
      assert (In x ["HAS_TEST"]) as H by (rewrite Hc; by apply Hdiff).
      by destruct H as [<-|[]].
    + intros [Hx| ->]; [by apply Hak|].
      apply (Hdiff "HAS_TEST"). rewrite <- Hc. by left.
  - intros x Hx. apply list_elem_of_In. eapply elem_of_sublist; [|exact Hk].
    by apply list_elem_of_In.
  - apply (Hdiff "HAS_TEST"). rewrite <- Hc. by left.
  - eapply sublist_NoDup; [|exact Ha]. by eapply sublist_NoDup.
Qed.

(** The rows that match the antecedent split into those that violate
    the rule and those that [apriori] counts for the whole item set. *)
Lemma violating_count v X a k :
  Spec.feature_table v = true -> mlxtend.values (flag_frame v) = Ok X ->
  (forall x, In x k <-> In x a \/ x = "HAS_TEST") ->
  (forall x, In x k -> In x (flag_columns v)) ->
  length (List.filter
            (fun row => forallb (Spec.cell_is true (snd row)) a
                        && Spec.cell_is false (snd row) "HAS_TEST")
            (pd.iterrows v))
  + mlxtend.count (flag_columns v) X k
  = length (matching v a).
Proof.
  intros Hv EX Hk Hcols.
  rewrite <- (count_matching v X a Hv EX) by (intros c Hc; apply Hcols, Hk; by left).
  unfold mlxtend.count.
  rewrite <- (filter_split_length
                (fun row => forallb (mlxtend.has_item (flag_columns v) row) a)
                (fun row => mlxtend.has_item (flag_columns v) row "HAS_TEST")).
  f_equal.
  - rewrite iterrows_series, filter_map_comm, length_map.
    apply filter_length_Forall2.
    eapply Forall2_impl; [by apply values_rows|]. cbv beta.
    intros r bs H. f_equal.
    + apply forallb_eq_in. intros c Hc. apply H, Hcols, Hk. by left.
    + apply H, Hcols, Hk. by right.
  - f_equal. apply filter_ext. intros row.
    apply eq_true_iff_eq. rewrite andb_true_iff, !forallb_forall. split.
    + intros H. split; [|apply H, Hk; by right]. intros x Hx. apply H, Hk. by left.
    + intros [H1 H2] x Hx. apply Hk in Hx as [Hx| ->]; [by apply H1|done].
Qed.

Lemma rows_of_plus a b : (rows_of (a + b) == rows_of a + rows_of b)%Q.
Proof. unfold rows_of. by rewrite Nat2Z.inj_add, inject_Z_plus. Qed.

Lemma rows_of_pos n : 0 < n -> (0 < rows_of n)%Q.
Proof. apply inject_pos. Qed.

Lemma rows_of_zero n : (rows_of n == 0)%Q -> n = 0.
Proof. unfold rows_of, Qeq. simpl. lia. Qed.

(** The confidence as the quotient of two row counts. *)
Lemma confidence_fraction cols X a k c :
  0 < length X ->
  fdiv (mlxtend.support cols X k) (mlxtend.support cols X a) = Fin c ->
  0 < mlxtend.count cols X a /\
  (c * rows_of (mlxtend.count cols X a) == rows_of (mlxtend.count cols X k))%Q.
Proof.
  intros Hn. rewrite !support_value by done. unfold fdiv.
  set (qk := fraction (mlxtend.count cols X k) (length X)).
  set (qa := fraction (mlxtend.count cols X a) (length X)).
  destruct (Qeq_bool (Qred qa) 0) eqn:E;
    [by destruct (Qeq_bool (Qred qk) 0); [|destruct (Qle_bool 0 (Qred qk))]|].
  intros [= <-]. apply Qeq_bool_neq in E. rewrite Qred_correct in E.
  pose proof (inject_pos _ Hn) as Pn. fold (rows_of (length X)) in Pn.
  assert (0 < mlxtend.count cols X a) as Ha.
  { destruct (Nat.eq_dec (mlxtend.count cols X a) 0) as [E0|]; [|lia]. exfalso. apply E.
    unfold qa, fraction. rewrite E0. simpl. unfold Qdiv. by rewrite Qmult_0_l. }
  split; [done|]. rewrite !Qred_correct. unfold qk, qa, fraction.
  fold (rows_of (length X)) (rows_of (mlxtend.count cols X k))
    (rows_of (mlxtend.count cols X a)).
  pose proof (rows_of_pos _ Ha) as Pa.
  field. split; intros H; rewrite H in *; by apply Qlt_irrefl in Pn + apply Qlt_irrefl in Pa.
Qed.

End Exceptions.

Section MinedRules.
Import Py Run Sem Mined.

Lemma rule_series_cells r :
  Spec.antecedents (rule_series r) = mlxtend.antecedents r /\
  Spec.consequents (rule_series r) = mlxtend.consequents r /\
  pd.assoc "confidence" (rule_series r) = Some (CFloat (mlxtend.confidence r)) /\
  Spec.is_rule (rule_series r) = true.
Proof. done. Qed.

Lemma mined_rule v X r :
  Spec.feature_table v = true -> mlxtend.values (flag_frame v) = Ok X ->
  accepted (1 # 100) (1 # 2) r -> derived (flag_columns v) X r ->
  mlxtend.consequents r = ["HAS_TEST"] ->
  pd.has_column v "HAS_TEST" = true /\
  forallb (pd.has_column v) (mlxtend.antecedents r) = true /\
  mlxtend.antecedents r <> [] /\
  ~ In "HAS_TEST" (mlxtend.antecedents r) /\
  ~ In "id" (mlxtend.antecedents r) /\
  NoDup (mlxtend.antecedents r) /\
  exists c,
    mlxtend.confidence r = Fin c /\ (1 # 2 <= c)%Q /\ (c <= 1)%Q /\
    0 < length (matching v (mlxtend.antecedents r)) /\
    (rows_of (length (violating v (rule_series r)))
     == (1 - c) * rows_of (length (matching v (mlxtend.antecedents r))))%Q.
Proof.
  intros Hv EX Hacc Hder Ht. destruct (feature_table_well_formed v Hv) as [Hwf _].
  destruct (derived_items _ _ _ (flag_columns_NoDup v Hwf) Hder Ht)
    as (k & Hk & Hcols & Hnt & Hnd & Hl & Hs & Hconf).
  destruct Hacc as (q & c & Hq & Bq & Hc & B1 & _ & B3).
  assert (forall x, In x (mlxtend.antecedents r) -> In x (pd.columns v) /\ x <> "id") as Ha.
  { intros x Hx. apply in_flag_columns, Hcols, Hk. by left. }
  split; [|split; [|split; [|split; [|split; [|split]]]]]; try done.
  - apply has_column_In. apply (in_flag_columns v "HAS_TEST"), Hcols, Hk. by right.
  - apply forallb_forall. intros x Hx. by apply has_column_In, Ha.
  - intros E. rewrite E in Hl. simpl in Hl. lia.
  - intros Hid. by destruct (Ha "id" Hid).
  - exists c. split; [done|]. split; [done|]. split; [done|].
    assert (0 < length X) as Hn.
    { eapply (frequent_support (flag_columns v) X k (1 # 100)).
      rewrite <- Hs, Hq. simpl. by apply Qle_bool_iff. }
    rewrite Hc in Hconf. symmetry in Hconf.
    destruct (confidence_fraction _ _ _ _ _ Hn Hconf) as [Hpos Hfrac].
    pose proof (violating_count v X (mlxtend.antecedents r) k Hv EX Hk Hcols) as Hsplit.
    rewrite (count_matching v X _ Hv EX) in Hpos, Hfrac
      by (intros x Hx; apply Hcols, Hk; by left).
    split; [done|].
    unfold violating, Spec.violates.
    destruct (rule_series_cells r) as (-> & _).
    pose proof (rows_of_plus
                  (length (List.filter
                             (fun row =>
                                forallb (Spec.cell_is true (snd row)) (mlxtend.antecedents r)
                                && Spec.cell_is false (snd row) "HAS_TEST")
                             (pd.iterrows v)))
                  (mlxtend.count (flag_columns v) X k)) as Hsum.
    rewrite Hsplit in Hsum. lra.
Qed.

End MinedRules.

Section Pipeline.
Import Py Run Sem Mined.

Lemma discover_rules_rows df v st :
  heap st !! df = Some v -> Spec.feature_table v = true ->
  exists X rs rules st',
    mlxtend.values (flag_frame v) = Ok X /\
    Forall (accepted (1 # 100) (1 # 2)) rs /\ Forall (derived (flag_columns v) X) rs /\
    mining.discover_rules df st = (Ok rules, st') /\ grows st st' /\
    heap st' !! rules = Some (testing_frame rs).
Proof.
  intros Hdf Hv.
  destruct (discover_rules_mined v Hv) as (X & rs & EX & _ & Hacc & Hder & E).
  destruct (discover_rules_run df v st Hdf) as (st' & G & H). rewrite E in H.
  destruct H as (rules & H1 & H2). by exists X, rs, rules, st'.
Qed.

Lemma testing_frame_series rs rule :
  In rule (pd.iterrows (testing_frame rs)) ->
  exists r, In r rs /\ mlxtend.consequents r = ["HAS_TEST"] /\ snd rule = rule_series r.
Proof.
  intros H. apply testing_frame_rows in H as (i & r & Hr & Hc & ->). by exists r.
Qed.

Lemma flat_map_eq_in {A B} (f g : A -> list B) l :
  (forall x, In x l -> f x = g x) -> flat_map f l = flat_map g l.
Proof.
  induction l as [|x l IH]; intros H; simpl; [done|].
  rewrite (H x (or_introl eq_refl)), IH; [done|]. intros y Hy. apply H. by right.
Qed.

Lemma testing_frame_rule_set rs : Spec.rule_set (testing_frame rs) = true.
Proof.
  unfold Spec.rule_set, Spec.rule_table. apply andb_true_iff.
  split; apply forallb_forall; intros rule H;
    apply testing_frame_series in H as (r & _ & Hc & ->).
  - done.
  - unfold Spec.predicts_test. destruct (rule_series_cells r) as (_ & -> & _).
    by rewrite Hc.
Qed.

Lemma mined_series v X rs rule :
  Forall (accepted (1 # 100) (1 # 2)) rs -> Forall (derived (flag_columns v) X) rs ->
  In rule (pd.iterrows (testing_frame rs)) ->
  exists r, snd rule = rule_series r /\
    accepted (1 # 100) (1 # 2) r /\ derived (flag_columns v) X r /\
    mlxtend.consequents r = ["HAS_TEST"].
Proof.
  intros Hacc Hder H. apply testing_frame_series in H as (r & Hr & Hc & ->).
  rewrite Forall_forall in Hacc, Hder. apply list_elem_of_In in Hr.
  exists r. split; [done|]. split; [by apply Hacc|]. split; [by apply Hder|done].
Qed.

(** X1. The rules [discover_rules] returns fit the table they were mined
    from: the frame is a rule set, every antecedent item is a column of
    the table, and for each rule the table has the column HAS_TEST, the
    antecedent is not empty, lists no item twice, and holds neither
    HAS_TEST nor the identifier column. *)
Theorem discovered_rules_fit_the_table df v st :
  heap st !! df = Some v -> Spec.feature_table v = true ->
  exists rules st' rv,
    mining.discover_rules df st = (Ok rules, st') /\
    heap st' !! rules = Some rv /\
    Spec.rule_set rv = true /\ Spec.items_in v rv = true /\
    forall rule, In rule (pd.iterrows rv) ->
      pd.has_column v "HAS_TEST" = true /\
      Spec.antecedents (snd rule) <> [] /\
      NoDup (Spec.antecedents (snd rule)) /\
      ~ In "HAS_TEST" (Spec.antecedents (snd rule)) /\
      ~ In "id" (Spec.antecedents (snd rule)).
Proof.
  intros Hdf Hv.
  destruct (discover_rules_rows df v st Hdf Hv)
    as (X & rs & rules & st' & EX & Hacc & Hder & E & _ & Hrules).
  exists rules, st', (testing_frame rs). split; [done|]. split; [done|].
  split; [apply testing_frame_rule_set|].
  pose proof (mined_series v X rs) as Hrule.
  split.
  - unfold Spec.items_in. apply forallb_forall. intros rule H.
    destruct (Hrule rule Hacc Hder H) as (r & -> & Ha & Hd & Hc).
    destruct (rule_series_cells r) as (-> & _).
    by destruct (mined_rule v X r Hv EX Ha Hd Hc) as (_ & ? & _).
  - intros rule H. destruct (Hrule rule Hacc Hder H) as (r & -> & Ha & Hd & Hc).
    destruct (rule_series_cells r) as (-> & _).
    by destruct (mined_rule v X r Hv EX Ha Hd Hc) as (? & _ & ? & ? & ? & ? & _).
Qed.

(** The gap records of the rules mined from the table: the rows that
    violate them. *)
Lemma find_exceptions_mined df rules v X rs st :
  heap st !! df = Some v -> heap st !! rules = Some (testing_frame rs) ->
  Spec.feature_table v = true -> mlxtend.values (flag_frame v) = Ok X ->
  Forall (accepted (1 # 100) (1 # 2)) rs -> Forall (derived (flag_columns v) X) rs ->
  exists st',
    mining.find_exceptions df rules st
    = (Ok (flat_map
             (fun rule =>
                map (fun row => Spec.gap_record (snd rule) (snd row))
                  (violating v (snd rule)))
             (pd.iterrows (testing_frame rs))), st') /\
    grows st st'.
Proof.
  intros Hdf Hrules Hv EX Hacc Hder.
  pose proof (testing_frame_rule_set rs) as Hset. unfold Spec.rule_set in Hset.
  apply andb_true_iff in Hset as [Htable Hpred].
  destruct (find_exceptions_returns df rules v (testing_frame rs) st
              Hdf Hrules Hv Htable) as (st' & E).
  exists st'. split.
  - rewrite E. f_equal. f_equal.
    apply flat_map_eq_in. intros rule H. unfold rule_records, violating.
    f_equal. apply filter_ext. intros row.
    destruct (mined_series v X rs rule Hacc Hder H) as (r & Es & Ha & Hd & Hc).
    destruct (mined_rule v X r Hv EX Ha Hd Hc) as (Ht & Hcols & _).
    apply violates_on_violates; [done| |].
    + rewrite Es. by destruct (rule_series_cells r) as (-> & _).
    + rewrite forallb_forall in Hpred. by apply Hpred.
  - pose proof (safe_find_exceptions df rules st) as G. by rewrite E in G.
Qed.

(** X2. A discovered rule has gap records exactly when its confidence
    is below 1. On a feature table, [find_exceptions] applied to the
    rules [discover_rules] returns reports, rule after rule, the rows on
    which every antecedent column is True and HAS_TEST is False; a rule
    has no such row exactly when its confidence equals 1, and at most
    half of the rows that match its antecedent are reported. The
    confidence enters by its comparison with 1 alone, and the bound of
    one half by the threshold the rule has passed. *)
Theorem no_gap_iff_full_confidence df v st :
  heap st !! df = Some v -> Spec.feature_table v = true ->
  exists rules st1 rv gaps st2,
    mining.discover_rules df st = (Ok rules, st1) /\
    heap st1 !! rules = Some rv /\
    mining.find_exceptions df rules st1 = (Ok gaps, st2) /\
    gaps = flat_map
             (fun rule =>
                map (fun row => Spec.gap_record (snd rule) (snd row))
                  (violating v (snd rule)))
             (pd.iterrows rv) /\
    forall rule, In rule (pd.iterrows rv) ->
      exists c,
        pd.assoc "confidence" (snd rule) = Some (CFloat (Fin c)) /\
        (violating v (snd rule) = [] <-> (c == 1)%Q) /\
        2 * length (violating v (snd rule))
        <= length (matching v (Spec.antecedents (snd rule))).
Proof.
  intros Hdf Hv.
  destruct (discover_rules_rows df v st Hdf Hv)
    as (X & rs & rules & st1 & EX & Hacc & Hder & E & G & Hrules).
  destruct (find_exceptions_mined df rules v X rs st1
              (grows_lookup _ _ _ _ G Hdf) Hrules Hv EX Hacc Hder) as (st2 & E2 & _).
  eexists rules, st1, (testing_frame rs), _, st2.
  split; [done|]. split; [done|]. split; [exact E2|]. split; [done|].
  intros rule H.
  destruct (mined_series v X rs rule Hacc Hder H) as (r & Es & Ha & Hd & Hc).
  rewrite Es.
  destruct (mined_rule v X r Hv EX Ha Hd Hc)
    as (_ & _ & _ & _ & _ & _ & c & Ec & B1 & B2 & Hpos & Hfrac).
  destruct (rule_series_cells r) as (-> & _ & -> & _). rewrite Ec.
  exists c. split; [done|].
  apply rows_of_pos in Hpos.
  set (V := length (violating v (rule_series r))) in *.
  set (M := rows_of (length (matching v (mlxtend.antecedents r)))) in *.
  split; [split|].
  - intros E0. assert (V = 0) as HV by (unfold V; by rewrite E0).
    rewrite HV in Hfrac. change (rows_of 0) with 0%Q in Hfrac. nra.
  - intros E1. apply length_zero_iff_nil. fold V. apply rows_of_zero.
    rewrite Hfrac, E1. lra.
  - assert (2 * rows_of V <= M)%Q as Hle by nra.
    unfold M, rows_of in Hle. change 2%Q with (inject_Z 2) in Hle.
    rewrite <- inject_Z_mult, <- Zle_Qle in Hle. lia.
Qed.

End Pipeline.

(** ** The order of the rows *)

Section RowOrder.
Import Py Run Sem Mined.

Lemma filter_perm {A} (p : A -> bool) l l' :
  Permutation l l' -> Permutation (List.filter p l) (List.filter p l').
Proof.
  induction 1 as [|x l l' H IH|x y l|l1 l2 l3 H1 IH1 H2 IH2]; simpl.
  - constructor.
  - destruct (p x); [by constructor|done].
  - destruct (p x), (p y); first [done | apply perm_swap | by constructor].
  - by etransitivity.
Qed.

Lemma forallb_perm {A} (p : A -> bool) l l' :
  Permutation l l' -> forallb p l = forallb p l'.
Proof.
  intros H. apply eq_true_iff_eq. rewrite !forallb_forall.
  split; intros Hp x Hx; apply Hp.
  - eapply Permutation_in; [symmetry; exact H|done].
  - eapply Permutation_in; [exact H|done].
Qed.

Lemma forallb_through {A B} (f : A -> B) (p : B -> bool) l :
  forallb (fun x => p (f x)) l = forallb p (map f l).
Proof. induction l as [|x l IH]; simpl; [done|]. by rewrite IH. Qed.

Lemma count_perm cols X X' items :
  Permutation X X' -> mlxtend.count cols X items = mlxtend.count cols X' items.
Proof. intros H. unfold mlxtend.count. by apply Permutation_length, filter_perm. Qed.

Lemma frequent_perm cols X X' min :
  Permutation X X' -> mlxtend.frequent cols X min = mlxtend.frequent cols X' min.
Proof.
  intros H. unfold mlxtend.frequent. apply flat_map_ext. intros k. f_equal.
  apply map_ext. intros c. unfold mlxtend.support.
  by rewrite (count_perm cols X X' c H), (Permutation_length H).
Qed.

Lemma values_map v X :
  mlxtend.values (flag_frame v) = Ok X ->
  X = map (flags_of (pd.columns v)) (map snd (pd.rows v)).
Proof.
  unfold mlxtend.values, flag_frame. simpl pd.rows. revert X.
  induction (pd.rows v) as [|r rs IH]; simpl; intros X.
  - by intros [= <-].
  - unfold flags_of at 1.
    destruct (rmap _ (pd.select (snd r) _)) as [bs|e]; [|done]. simpl.
    destruct (rmap _ (map _ rs)) as [X'|e]; [|done]. simpl. intros [= <-].
    f_equal. by apply IH.
Qed.

Lemma feature_table_perm v1 v2 :
  Spec.feature_table v1 = true -> pd.columns v1 = pd.columns v2 ->
  Permutation (map snd (pd.rows v1)) (map snd (pd.rows v2)) ->
  Spec.feature_table v2 = true.
Proof.
  unfold Spec.feature_table, Spec.well_formed, pd.has_column. intros H Hc Hp.
  rewrite <- Hc.
  rewrite (forallb_through snd
             (fun cells => Nat.eqb (length cells) (length (pd.columns v1)))) in *.
  rewrite (forallb_through snd
             (fun cells =>
                forallb (fun cx => Spec.is_flag (fst cx) (snd cx))
                  (combine (pd.columns v1) cells))) in *.
  by rewrite <- !(forallb_perm _ _ _ Hp).
Qed.

(** The rules do not depend on the order of the rows, nor on their
    index labels. *)
Lemma discover_rules_perm v1 v2 :
  Spec.feature_table v1 = true -> pd.columns v1 = pd.columns v2 ->
  Permutation (map snd (pd.rows v1)) (map snd (pd.rows v2)) ->
  Pure.discover_rules v1 = Pure.discover_rules v2.
Proof.
  intros Hv1 Hc Hp. pose proof (feature_table_perm v1 v2 Hv1 Hc Hp) as Hv2.
  destruct (feature_table_well_formed v1 Hv1) as [_ Hid1].
  destruct (feature_table_well_formed v2 Hv2) as [_ Hid2].
  destruct (values_drop v1 Hv1) as (X1 & EX1 & _).
  destruct (values_drop v2 Hv2) as (X2 & EX2 & _).
  unfold Pure.discover_rules. rewrite (drop_id v1 Hid1), (drop_id v2 Hid2).
  simpl rbind. unfold mlxtend.apriori_frame.
  change (fge (Fin 0) (Fin (1 # 100))) with false. cbv iota.
  rewrite EX1, EX2. simpl rbind. simpl pd.columns. rewrite <- Hc.
  rewrite (frequent_perm _ X1 X2); [done|].
  rewrite (values_map v1 X1 EX1), (values_map v2 X2 EX2), <- Hc.
  by apply Permutation_map.
Qed.

End RowOrder.

Section RecordOrder.
Import Py Run Sem Mined.

Lemma ascii_compare_refl a : Ascii.compare a a = Eq.
Proof. unfold Ascii.compare. apply N.compare_refl. Qed.

Lemma ascii_compare_trans a b c :
  Ascii.compare a b = Lt -> Ascii.compare b c = Lt -> Ascii.compare a c = Lt.
Proof.
  unfold Ascii.compare. rewrite !N.compare_lt_iff. apply N.lt_trans.
Qed.

Lemma string_compare_refl s : String.compare s s = Eq.
Proof. induction s as [|a s IH]; simpl; [done|]. by rewrite ascii_compare_refl. Qed.

Lemma string_compare_trans : forall a b c,
  String.compare a b = Lt -> String.compare b c = Lt -> String.compare a c = Lt.
Proof.
  induction a as [|x a IH]; intros [|y b] [|z c]; simpl; try done.
  destruct (Ascii.compare x y) eqn:Exy; try done;
    destruct (Ascii.compare y z) eqn:Eyz; try done; intros H1 H2.
  - apply Ascii.compare_eq_iff in Exy, Eyz. subst.
    rewrite ascii_compare_refl. by apply (IH b).
  - apply Ascii.compare_eq_iff in Exy. subst. by rewrite Eyz.
  - apply Ascii.compare_eq_iff in Eyz. subst. by rewrite Exy.
  - by rewrite (ascii_compare_trans x y z).
Qed.

Lemma string_compare_flip a b : String.compare b a = CompOpp (String.compare a b).
Proof. apply String.compare_antisym. Qed.

(** Two insertions into the sorted columns commute. *)
Lemma insert_sorted_comm x y : forall l,
  mlxtend.insert_sorted x (mlxtend.insert_sorted y l)
  = mlxtend.insert_sorted y (mlxtend.insert_sorted x l).
Proof.
  assert (forall a b, String.compare a b = Eq -> a = b) as Heq
    by apply String.compare_eq_iff.
  assert (forall a b c, String.compare a b = Gt -> String.compare b c = Gt ->
                        String.compare a c = Gt) as Hgt.
  { intros a b c H1 H2. rewrite string_compare_flip in H1, H2 |- *.
    destruct (String.compare b a) eqn:E1; try done.
    destruct (String.compare c b) eqn:E2; try done.
    by rewrite (string_compare_trans c b a). }
  induction l as [|z l IH]; simpl.
  - rewrite (string_compare_flip x y).
    destruct (String.compare x y) eqn:Exy; simpl; [|done|done].
    apply Heq in Exy. by subst.
  - destruct (String.compare y z) eqn:Eyz, (String.compare x z) eqn:Exz; simpl;
      repeat match goal with
             | H : String.compare _ _ = Eq |- _ => apply Heq in H; subst
             end;
      rewrite ?string_compare_refl, ?Eyz, ?Exz; try done.
    + by rewrite (string_compare_flip x z), Exz.
    + by rewrite (string_compare_flip y z), Eyz.
    + rewrite (string_compare_flip x y).
      destruct (String.compare x y) eqn:Exy; simpl; [|done|done].
      apply Heq in Exy. by subst.
    + rewrite (Hgt x z y); [done|done|]. by rewrite (string_compare_flip y z), Eyz.
    + rewrite (Hgt y z x); [done|done|]. by rewrite (string_compare_flip x z), Exz.
    + by rewrite IH.
Qed.

Lemma sorted_set_perm l l' :
  Permutation l l' -> mlxtend.sorted_set l = mlxtend.sorted_set l'.
Proof.
  induction 1 as [|x l l' H IH|x y l|l1 l2 l3 H1 IH1 H2 IH2]; simpl.
  - done.
  - by rewrite IH.
  - apply insert_sorted_comm.
  - by etransitivity.
Qed.

End RecordOrder.

Section OrderTheorems.
Import Py Run Sem Mined.

Lemma fit_perm data data' :
  Permutation data data' -> mlxtend.fit (map basket data) = mlxtend.fit (map basket data').
Proof.
  intros H. unfold mlxtend.fit. apply sorted_set_perm.
  rewrite <- !flat_map_concat_map. by apply Permutation_flat_map.
Qed.

Lemma map_snd_combine {A} (l : list A) : forall a,
  map snd (combine (seq a (length l)) l) = l.
Proof. induction l as [|x l IH]; intros a; simpl; [done|]. by rewrite IH. Qed.

Lemma feature_frame_perm data data' :
  Permutation data data' ->
  pd.columns (feature_frame data) = pd.columns (feature_frame data') /\
  Permutation (map snd (pd.rows (feature_frame data)))
    (map snd (pd.rows (feature_frame data'))).
Proof.
  intros H. unfold feature_frame. simpl. rewrite <- (fit_perm data data' H).
  split; [done|].
  rewrite <- (length_map (fun r => flags (mlxtend.fit (map basket data)) r
                                   ++ [CStr (mining.id r)]) data).
  rewrite <- (length_map (fun r => flags (mlxtend.fit (map basket data)) r
                                   ++ [CStr (mining.id r)]) data').
  rewrite !map_snd_combine. by apply Permutation_map.
Qed.

Lemma violates_on_columns v1 v2 rule row :
  pd.columns v1 = pd.columns v2 ->
  Spec.violates_on v1 rule row = Spec.violates_on v2 rule row.
Proof.
  intros H. unfold Spec.violates_on, Spec.agrees, pd.has_column. by rewrite H.
Qed.

Lemma rule_records_perm v1 v2 rule :
  pd.columns v1 = pd.columns v2 ->
  Permutation (map snd (pd.rows v1)) (map snd (pd.rows v2)) ->
  Permutation (rule_records v1 rule) (rule_records v2 rule).
Proof.
  intros Hc Hp. unfold rule_records.
  assert (forall v,
            map (fun row : nat * pd.Series => Spec.gap_record rule (snd row))
              (List.filter (fun row => Spec.violates_on v1 rule (snd row)) (pd.iterrows v))
            = map (Spec.gap_record rule)
                (List.filter (Spec.violates_on v1 rule)
                   (map (combine (pd.columns v)) (map snd (pd.rows v))))) as E.
  { intros v. unfold pd.iterrows. rewrite !filter_map_comm, !map_map. done. }
  rewrite (filter_ext _ _ (fun row => violates_on_columns v2 v1 rule (snd row) (eq_sym Hc))).
  rewrite !E, <- Hc.
  by apply Permutation_map, filter_perm, Permutation_map.
Qed.

Lemma flat_map_perm {A B} (f g : A -> list B) l :
  (forall x, Permutation (f x) (g x)) -> Permutation (flat_map f l) (flat_map g l).
Proof.
  intros H. induction l as [|x l IH]; simpl; [done|]. by apply Permutation_app.
Qed.

Lemma insert_sorted_sorted x l :
  StronglySorted (fun a b => String.compare a b = Lt) l ->
  StronglySorted (fun a b => String.compare a b = Lt) (mlxtend.insert_sorted x l).
Proof.
  induction 1 as [|y l Hl IH Hy]; simpl.
  - constructor; constructor.
  - destruct (String.compare x y) eqn:E.
    + by constructor.
    + constructor; [by constructor|]. constructor; [done|].
      eapply Forall_impl; [exact Hy|]. intros z Hz. by apply (string_compare_trans x y z).
    + constructor; [done|]. apply Forall_forall. intros z Hz.
      apply list_elem_of_In, insert_sorted_In in Hz as [->|Hz].
      * by rewrite string_compare_flip, E.
      * rewrite Forall_forall in Hy. by apply Hy, list_elem_of_In.
Qed.

Lemma sorted_set_sorted l :
  StronglySorted (fun a b => String.compare a b = Lt) (mlxtend.sorted_set l).
Proof.
  induction l as [|x l IH]; simpl; [constructor|]. by apply insert_sorted_sorted.
Qed.

Lemma sorted_distinct l :
  StronglySorted (fun a b => String.compare a b = Lt) l -> Spec.distinct l = true.
Proof.
  induction 1 as [|y l Hl IH Hy]; simpl; [done|]. rewrite IH, andb_true_r.
  apply negb_true_iff, not_true_iff_false. intros H. apply existsb_eqb in H.
  rewrite Forall_forall in Hy. apply list_elem_of_In, Hy in H.
  by rewrite string_compare_refl in H.
Qed.

Lemma distinct_snoc l x :
  Spec.distinct l = true -> ~ In x l -> Spec.distinct (l ++ [x]) = true.
Proof.
  induction l as [|y l IH]; simpl; [done|]. intros H Hx.
  apply andb_true_iff in H as [Hy H]. rewrite IH by tauto. rewrite andb_true_r.
  apply negb_true_iff, not_true_iff_false. intros Hin.
  apply existsb_eqb, in_app_iff in Hin as [Hin|[->|[]]].
  - apply existsb_eqb in Hin. by rewrite Hin in Hy.
  - tauto.
Qed.

Lemma flags_are_flags cols r x :
  ~ In "id" cols ->
  forallb (fun cx => Spec.is_flag (fst cx) (snd cx))
    (combine (cols ++ ["id"]) (flags cols r ++ [x])) = true.
Proof.
  unfold flags. induction cols as [|c cols IH]; intros H; [done|].
  cbn [map app combine forallb]. apply andb_true_iff. split.
  - unfold Spec.is_flag. simpl. apply orb_true_r.
  - apply IH. intros Hin. apply H. by right.
Qed.

(** The table of valid records is a feature table. *)
Lemma feature_frame_table data :
  forallb Spec.valid_record data = true -> Spec.feature_table (feature_frame data) = true.
Proof.
  intros Hv. set (cols := mlxtend.fit (map basket data)).
  assert (~ In "id" cols) as Hid.
  { intros H. by apply (valid_status data "id" Hv) in H. }
  unfold Spec.feature_table, Spec.well_formed.
  change (pd.columns (feature_frame data)) with (cols ++ ["id"]).
  change (pd.rows (feature_frame data))
    with (combine (seq 0 (length data))
            (map (fun r => flags cols r ++ [CStr (mining.id r)]) data)).
  apply andb_true_iff; split; [apply andb_true_iff; split; [apply andb_true_iff; split|]|].
  - apply distinct_snoc; [apply sorted_distinct, sorted_set_sorted|done].
  - apply forallb_forall. intros [i cells] H.
    apply in_combine_r, in_map_iff in H as (r & <- & _).
    apply Nat.eqb_eq. unfold flags. cbn [snd]. by rewrite !length_app, length_map.
  - apply has_column_In. change (In "id" (cols ++ ["id"])). apply in_app_iff. right. by left.
  - apply forallb_forall. intros [i cells] H.
    apply in_combine_r, in_map_iff in H as (r & <- & _). by apply flags_are_flags.
Qed.

Lemma valid_perm data data' :
  Permutation data data' -> forallb Spec.valid_record data = true ->
  forallb Spec.valid_record data' = true.
Proof. intros H. by rewrite (forallb_perm _ _ _ H). Qed.

(** X3. The rules do not depend on the order of the rows of the table,
    nor on the index labels of the rows: for two feature tables with the
    same columns whose rows are the same up to their order,
    [discover_rules] returns frames of the same contents. *)
Theorem discover_rules_ignores_row_order df1 df2 v1 v2 st1 st2 :
  heap st1 !! df1 = Some v1 -> heap st2 !! df2 = Some v2 ->
  Spec.feature_table v1 = true -> pd.columns v1 = pd.columns v2 ->
  Permutation (map snd (pd.rows v1)) (map snd (pd.rows v2)) ->
  exists rules1 rules2 st1' st2' rv,
    mining.discover_rules df1 st1 = (Ok rules1, st1') /\
    mining.discover_rules df2 st2 = (Ok rules2, st2') /\
    heap st1' !! rules1 = Some rv /\ heap st2' !! rules2 = Some rv.
Proof.
  intros H1 H2 Hv1 Hc Hp.
  pose proof (feature_table_perm v1 v2 Hv1 Hc Hp) as Hv2.
  destruct (discover_rules_returns df1 v1 st1 H1 Hv1)
    as (rs & rules1 & st1' & _ & E & R1 & _ & L1).
  destruct (discover_rules_run df2 v2 st2 H2) as (st2' & _ & R2).
  rewrite <- (discover_rules_perm v1 v2 Hv1 Hc Hp), E in R2.
  destruct R2 as (rules2 & R2 & L2).
  by exists rules1, rules2, st1', st2', (testing_frame rs).
Qed.

(** X4. The gap records do not depend on the order of the rows of the
    table: for two feature tables with the same columns whose rows are
    the same up to their order, and one rule table, the two lists that
    [find_exceptions] returns hold the same records, each as many times. *)
Theorem find_exceptions_ignores_row_order df1 df2 rules1 rules2 v1 v2 rv st1 st2 :
  heap st1 !! df1 = Some v1 -> heap st2 !! df2 = Some v2 ->
  heap st1 !! rules1 = Some rv -> heap st2 !! rules2 = Some rv ->
  Spec.feature_table v1 = true -> Spec.rule_table rv = true ->
  pd.columns v1 = pd.columns v2 ->
  Permutation (map snd (pd.rows v1)) (map snd (pd.rows v2)) ->
  exists gaps1 gaps2 st1' st2',
    mining.find_exceptions df1 rules1 st1 = (Ok gaps1, st1') /\
    mining.find_exceptions df2 rules2 st2 = (Ok gaps2, st2') /\
    Permutation gaps1 gaps2.
Proof.
  intros H1 H2 R1 R2 Hv1 Hrv Hc Hp.
  pose proof (feature_table_perm v1 v2 Hv1 Hc Hp) as Hv2.
  destruct (find_exceptions_returns df1 rules1 v1 rv st1 H1 R1 Hv1 Hrv) as (st1' & E1).
  destruct (find_exceptions_returns df2 rules2 v2 rv st2 H2 R2 Hv2 Hrv) as (st2' & E2).
  eexists _, _, st1', st2'. split; [exact E1|]. split; [exact E2|].
  apply flat_map_perm. intros rule. by apply rule_records_perm.
Qed.

(** X5. The mining does not depend on the order in which the query
    returns its records. For two lists of valid records that are the same
    up to their order, the three steps return on both: the rule frames
    have the same contents, and the two lists of gap records hold the
    same records, each as many times. *)
Theorem mining_ignores_record_order data1 data2 st1 st2 :
  forallb Spec.valid_record data1 = true -> Permutation data1 data2 ->
  exists df1 tm1 sa1 rules1 sb1 gaps1 sc1 df2 tm2 sa2 rules2 sb2 gaps2 sc2 rv,
    mining.extract_features_for_mining data1 st1 = (Ok (df1, tm1), sa1) /\
    mining.discover_rules df1 sa1 = (Ok rules1, sb1) /\
    mining.find_exceptions df1 rules1 sb1 = (Ok gaps1, sc1) /\
    mining.extract_features_for_mining data2 st2 = (Ok (df2, tm2), sa2) /\
    mining.discover_rules df2 sa2 = (Ok rules2, sb2) /\
    mining.find_exceptions df2 rules2 sb2 = (Ok gaps2, sc2) /\
    heap sb1 !! rules1 = Some rv /\ heap sb2 !! rules2 = Some rv /\
    Permutation gaps1 gaps2.
Proof.
  intros Hd1 Hp. pose proof (valid_perm _ _ Hp Hd1) as Hd2.
  destruct (extract_features_run data1 st1 Hd1) as (tm1 & X1).
  destruct (extract_features_run data2 st2 Hd2) as (tm2 & X2).
  set (sa1 := mkState (heap st1 ++ [feature_frame data1]) _) in X1.
  set (sa2 := mkState (heap st2 ++ [feature_frame data2]) _) in X2.
  assert (heap sa1 !! length (heap st1) = Some (feature_frame data1)) as L1
    by apply lookup_alloc.
  assert (heap sa2 !! length (heap st2) = Some (feature_frame data2)) as L2
    by apply lookup_alloc.
  pose proof (feature_frame_table data1 Hd1) as Hv1.
  pose proof (feature_frame_table data2 Hd2) as Hv2.
  destruct (feature_frame_perm data1 data2 Hp) as [Hc Hrows].
  destruct (discover_rules_returns _ _ sa1 L1 Hv1)
    as (rs & rules1 & sb1 & _ & E & R1 & G1 & Lr1).
  destruct (discover_rules_run _ _ sa2 L2) as (sb2 & G2 & R2).
  rewrite <- (discover_rules_perm _ _ Hv1 Hc Hrows), E in R2.
  destruct R2 as (rules2 & R2 & Lr2).
  pose proof (testing_frame_rule_set rs) as Hset. unfold Spec.rule_set in Hset.
  apply andb_true_iff in Hset as [Hrt _].
  destruct (find_exceptions_returns _ rules1 _ _ sb1
              (grows_lookup _ _ _ _ G1 L1) Lr1 Hv1 Hrt) as (sc1 & F1).
  destruct (find_exceptions_returns _ rules2 _ _ sb2
              (grows_lookup _ _ _ _ G2 L2) Lr2 Hv2 Hrt) as (sc2 & F2).
  eexists _, tm1, sa1, rules1, sb1, _, sc1, _, tm2, sa2, rules2, sb2, _, sc2, _.
  split; [exact X1|]. split; [exact R1|]. split; [exact F1|].
  split; [exact X2|]. split; [exact R2|]. split; [exact F2|].
  split; [exact Lr1|]. split; [exact Lr2|].
  apply flat_map_perm. intros rule. by apply rule_records_perm.
Qed.

End OrderTheorems.

(** ** Facts about [split] *)

Section Splitting.
Import Py PyStr Replies.
Local Open Scope string_scope.
Local Arguments String.append : simpl nomatch.

Lemma occurrences_app c s t :
  occurrences c (s ++ t) = occurrences c s + occurrences c t.
Proof. induction s as [|d s IH]; simpl; [done|]. rewrite IH. lia. Qed.

Lemma cut_Some sep : forall s a b,
  cut sep s = Some (a, b) -> s = a ++ String sep b /\ occurrences sep a = 0.
Proof.
  induction s as [|c s IH]; intros a b; simpl; [done|].
  destruct (Ascii.eqb c sep) eqn:E.
  - intros [= <- <-]. apply Ascii.eqb_eq in E. by subst.
  - destruct (cut sep s) as [[a' b']|]; [|done]. intros [= <- <-].
    destruct (IH a' b' eq_refl) as [-> H]. simpl. by rewrite E.
Qed.

Lemma cut_None sep : forall s, cut sep s = None -> occurrences sep s = 0.
Proof.
  induction s as [|c s IH]; simpl; [done|].
  destruct (Ascii.eqb c sep); [done|].
  destruct (cut sep s) as [[a b]|]; [done|]. intros _. by apply IH.
Qed.

Lemma commas_app s t : commas (s ++ t) = commas s + commas t.
Proof. apply occurrences_app. Qed.

Lemma commas_comma s : commas (String ","%char s) = S (commas s).
Proof. reflexivity. Qed.

Lemma cut_comma s :
  match cut ","%char s with
  | Some (a, b) => s = a ++ String ","%char b /\ commas a = 0
  | None => commas s = 0
  end.
Proof.
  destruct (cut ","%char s) as [[a b]|] eqn:E.
  - by apply cut_Some.
  - by apply cut_None.
Qed.

(** The three fields of a reply, or no field when it holds fewer than
    two commas. *)
Lemma split_fields s :
  match unpack3 (split ","%char 2 s) with
  | inr (a, b, c) =>
      s = a ++ "," ++ b ++ "," ++ c /\ commas a = 0 /\ commas b = 0 /\ 2 <= commas s
  | inl _ => commas s < 2
  end.
Proof.
  simpl split. pose proof (cut_comma s) as H1.
  destruct (cut ","%char s) as [[a r]|].
  - destruct H1 as [-> Ha]. pose proof (cut_comma r) as H2.
    destruct (cut ","%char r) as [[b c]|].
    + destruct H2 as [-> Hb]. simpl unpack3.
      split; [done|]. split; [done|]. split; [done|].
      rewrite commas_app, commas_comma, commas_app, commas_comma. lia.
    + cbv beta iota delta [unpack3 length Nat.ltb Nat.leb].
      rewrite commas_app, commas_comma. lia.
  - cbv beta iota delta [unpack3 length Nat.ltb Nat.leb]. lia.
Qed.

End Splitting.

(** ** The runs of [generate_suggestions] *)

Section Suggestions.
Import Py Run Sem PyStr Replies.

Lemma get_llm_suggestion_run invoke text st :
  exists out,
    llm.get_llm_suggestion invoke text st
    = (Ok (answer invoke text), mkState (heap st) (console st ++ out)).
Proof.
  unfold llm.get_llm_suggestion, answer.
  destruct (invoke _) as [content|e].
  - exists []. unfold ret. rewrite app_nil_r. by destruct st.
  - by eexists [_].
Qed.

Lemma suggestions_loop model calls : forall acc st,
  exists ss out,
    Loop.for_each calls acc
      (fun suggestions '(call, pattern) =>
         let req_id := suggestions.pattern_id pattern in
         let req_text := suggestions.pattern_text pattern in
         bind (llm.get_llm_suggestion (model call) req_text)
           (fun suggestion_csv =>
              match unpack3 (split ","%char 2 suggestion_csv) with
              | inr (test_id, test_name, status) =>
                  ret (suggestions
                       ++ [suggestions.mkSuggestion req_id req_text test_id test_name status])
              | inl e =>
                  bind (print ("Error parsing LLM suggestion: " ++ e ++ ". Output: "
                               ++ suggestion_csv))
                    (fun _ => ret suggestions)
              end)) st
    = (Ok (acc ++ ss), mkState (heap st) (console st ++ out)) /\
    Forall2 (parsed model) (answered model calls) ss.
Proof.
  induction calls as [|[n p] calls IH]; intros acc st.
  - exists [], []. simpl. unfold ret. rewrite !app_nil_r. split; [by destruct st|constructor].
  - rewrite for_each_cons. cbv beta iota zeta.
    destruct (get_llm_suggestion_run (model n) (suggestions.pattern_text p) st) as (o1 & E1).
    rewrite bind_assoc. erewrite bind_ok; [|exact E1].
    pose proof (split_fields (answer (model n) (suggestions.pattern_text p))) as Hf.
    unfold answered. cbn [List.filter fst snd].
    destruct (unpack3 _) as [e|[[a b] c]].
    + rewrite bind_assoc. erewrite bind_ok; [|reflexivity]. erewrite bind_ok; [|reflexivity].
      match goal with
      | |- context [Loop.for_each calls ?a _ ?s] =>
          destruct (IH a s) as (ss & o2 & E2 & H2)
      end.
      cbv beta iota zeta in E2. rewrite E2. simpl heap. simpl console. eexists ss, _.
      split; [f_equal; f_equal; rewrite <- !app_assoc; reflexivity|].
      replace (Nat.leb 2 _) with false by (symmetry; apply Nat.leb_gt; lia). done.
    + erewrite bind_ok; [|reflexivity].
      match goal with
      | |- context [Loop.for_each calls ?a _ ?s] =>
          destruct (IH a s) as (ss & o2 & E2 & H2)
      end.
      cbv beta iota zeta in E2. rewrite E2. simpl heap. simpl console. eexists (_ :: ss), _.
      split; [rewrite <- !app_assoc; reflexivity|].
      destruct Hf as (Hs & Ha & Hb & Hn).
      replace (Nat.leb 2 _) with true by (symmetry; apply Nat.leb_le; lia).
      constructor; [|done]. unfold parsed. simpl. by rewrite <- Hs.
Qed.

End Suggestions.

Section SuggestionTheorems.
Import Py Run Sem PyStr Replies.
Local Arguments String.append : simpl nomatch.

Lemma generate_suggestions_run model patterns st :
  exists suggestions out,
    suggestions.generate_suggestions model patterns st
    = (Ok suggestions, mkState (heap st) (console st ++ out)) /\
    Forall2 (parsed model) (answered model (suggestions.enumerate patterns)) suggestions.
Proof.
  unfold suggestions.generate_suggestions. destruct patterns as [|p patterns].
  - exists [], []. unfold ret. rewrite app_nil_r. split; [by destruct st|constructor].
  - erewrite bind_ok; [|reflexivity].
    match goal with
    | |- context [Loop.for_each ?l ?a _ ?s] =>
        destruct (suggestions_loop model l a s) as (ss & out & E & H)
    end.
    cbv beta iota zeta in E. eexists ss, _. split; [|exact H].
    cbv beta iota zeta. rewrite E. simpl heap. simpl console.
    rewrite <- !app_assoc. reflexivity.
Qed.

Lemma filter_length {A} (p : A -> bool) l : length (List.filter p l) <= length l.
Proof. induction l as [|x l IH]; simpl; [done|]. destruct (p x); simpl; lia. Qed.

(** X6. [generate_suggestions] never raises and leaves the store as it
    is. It returns, in the order of the patterns, one suggestion for each
    pattern whose reply holds two commas or more, and none for the
    others. A suggestion carries the identifier and the text of its
    pattern; its test id, test name and status, joined by commas, are the
    reply, and neither the test id nor the test name holds a comma. *)
Theorem generate_suggestions_parses_replies model patterns st :
  exists suggestions st',
    suggestions.generate_suggestions model patterns st = (Ok suggestions, st') /\
    heap st' = heap st /\
    Forall2 (parsed model) (answered model (suggestions.enumerate patterns)) suggestions /\
    length suggestions <= length patterns.
Proof.
  destruct (generate_suggestions_run model patterns st) as (ss & out & E & H).
  exists ss, (mkState (heap st) (console st ++ out)).
  split; [done|]. split; [done|]. split; [done|].
  rewrite <- (Forall2_length _ _ _ H). unfold answered.
  etransitivity; [apply filter_length|]. unfold suggestions.enumerate.
  rewrite length_combine, length_seq. lia.
Qed.

Lemma cut_app sep a r :
  occurrences sep a = 0 -> cut sep (a ++ String sep r)%string = Some (a, r).
Proof.
  induction a as [|c a IH]; simpl.
  - by rewrite Ascii.eqb_refl.
  - destruct (Ascii.eqb c sep); [done|]. simpl. intros H. by rewrite IH.
Qed.

(** Splitting undoes joining. *)
Lemma split_join a b c :
  commas a = 0 -> commas b = 0 ->
  split ","%char 2 (a ++ "," ++ b ++ "," ++ c)%string = [a; b; c].
Proof.
  intros Ha Hb. simpl split.
  change (a ++ "," ++ b ++ "," ++ c)%string
    with (a ++ String ","%char (b ++ String ","%char c))%string.
  by rewrite (cut_app _ a), (cut_app _ b).
Qed.

Lemma join_inj a r a' r' :
  (a ++ String ","%char r)%string = (a' ++ String ","%char r')%string ->
  commas a = 0 -> commas a' = 0 -> a = a' /\ r = r'.
Proof.
  intros E Ha Ha'. pose proof (cut_app ","%char a r Ha) as H.
  rewrite E, (cut_app ","%char a' r' Ha') in H. by injection H as -> ->.
Qed.

Lemma answer_failure invoke text e :
  invoke (llm.TEST_SUGGESTION_PROMPT_TEMPLATE text) = llm.Failure e ->
  answer invoke text = ("Error: Could not get response from LLM. " ++ e)%string /\
  commas (answer invoke text) = commas e.
Proof.
  intros H. unfold answer. rewrite H. split; [done|]. by rewrite commas_app.
Qed.

(** X7. A call of the model that fails is no error: the text
    "Error: Could not get response from LLM. <error>" is taken for the
    reply. For one pattern, [generate_suggestions] returns no suggestion
    when the error text holds fewer than two commas; when it holds two,
    it returns a suggestion made of the error text, whose test id starts
    with "Error: Could not get response from LLM. ". *)
Theorem failed_call_is_parsed model p st e :
  model 0 (llm.TEST_SUGGESTION_PROMPT_TEMPLATE (suggestions.pattern_text p))
  = llm.Failure e ->
  (commas e < 2 -> fst (suggestions.generate_suggestions model [p] st) = Ok []) /\
  (forall a b c,
     e = (a ++ "," ++ b ++ "," ++ c)%string -> commas a = 0 -> commas b = 0 ->
     fst (suggestions.generate_suggestions model [p] st)
     = Ok [suggestions.mkSuggestion (suggestions.pattern_id p) (suggestions.pattern_text p)
             ("Error: Could not get response from LLM. " ++ a) b c]).
Proof.
  intros Hm. destruct (answer_failure _ _ _ Hm) as [Ea Hc].
  destruct (generate_suggestions_run model [p] st) as (ss & out & E & H).
  rewrite E. cbn [fst]. unfold answered, suggestions.enumerate in H.
  cbn [length seq combine List.filter fst snd] in H. rewrite Hc in H.
  split.
  - intros He. replace (Nat.leb 2 (commas e)) with false in H
      by (symmetry; apply Nat.leb_gt; lia).
    by inversion H.
  - intros a b c -> Ha Hb.
    replace (Nat.leb 2 _) with true in H
      by (symmetry; apply Nat.leb_le; rewrite !commas_app, !commas_comma; lia).
    inversion H as [|np s l l' Hp Hnil]; subst. inversion Hnil; subst.
    destruct s as [rid rtext tid tname tstatus].
    destruct Hp as (Hid & Htext & Hjoin & Ht1 & Ht2). cbn [fst snd] in *.
    simpl in Hid, Htext, Hjoin, Ht1, Ht2. subst rid rtext. rewrite Ea in Hjoin.
    change (tid ++ "," ++ tname ++ "," ++ tstatus)%string
      with (tid ++ String ","%char (tname ++ String ","%char tstatus))%string in Hjoin.
    change ("Error: Could not get response from LLM. " ++ a ++ "," ++ b ++ "," ++ c)%string
      with ("Error: Could not get response from LLM. "
            ++ (a ++ String ","%char (b ++ String ","%char c)))%string in Hjoin.
    rewrite <- string_app_assoc in Hjoin.
    apply join_inj in Hjoin as [-> Hjoin];
      [|done|by rewrite commas_app, Ha].
    apply join_inj in Hjoin as [-> ->]; done.
Qed.

End SuggestionTheorems.

(** ** The records, the text map and the rows of the table *)

Section Records.
Import Py Run Sem Mined.

Lemma lookup_store d k v k' :
  app.lookup (mining.dict_store d k v) k'
  = if String.eqb k' k then Some v else app.lookup d k'.
Proof.
  induction d as [|[k1 v1] d IH]; simpl.
  - done.
  - destruct (String.eqb k k1) eqn:E; simpl.
    + apply String.eqb_eq in E. subst k1. by destruct (String.eqb k' k).
    + rewrite IH. destruct (String.eqb k' k1) eqn:E1; [|done].
      apply String.eqb_eq in E1. subst k1. by rewrite String.eqb_sym, E.
Qed.

Lemma find_snoc {A} (p : A -> bool) l x :
  find p (l ++ [x])
  = match find p l with
    | Some y => Some y
    | None => if p x then Some x else None
    end.
Proof. induction l as [|y l IH]; simpl; [done|]. by destruct (p y). Qed.

(** The text map holds, for each identifier, the text of the last
    record with it. *)
Lemma text_map_lookup data k : forall tm,
  app.lookup
    (fold_left (fun tm r => mining.dict_store tm (mining.id r) (mining.text r)) data tm) k
  = match find (fun r => String.eqb (mining.id r) k) (rev data) with
    | Some r => Some (mining.text r)
    | None => app.lookup tm k
    end.
Proof.
  induction data as [|r data IH]; intros tm; simpl; [done|].
  rewrite IH, find_snoc, lookup_store.
  destruct (find _ (rev data)); [done|]. rewrite (String.eqb_sym k).
  by destruct (String.eqb (mining.id r) k).
Qed.

(** [extract_features_for_mining] returns on every list of records. *)
Lemma extract_features_total data st :
  exists df v,
    mining.extract_features_for_mining data st
    = (Ok (df,
           fold_left (fun tm r => mining.dict_store tm (mining.id r) (mining.text r)) data []),
       mkState (heap st ++ [v]) (console st ++ ["Mining: Extracting features from graph..."])).
Proof.
  unfold mining.extract_features_for_mining.
  erewrite bind_ok; [|reflexivity]. rewrite fold_baskets. simpl app.
  erewrite bind_ok; [|reflexivity].
  set (frame := pd.of_rows _ _).
  assert (exists v, pd.setitem frame "id" (map (fun r => CStr (mining.id r)) data) = Ok v)
    as (v & Ev).
  { unfold pd.setitem, frame, pd.of_rows, mlxtend.transform. simpl pd.rows.
    rewrite length_combine, length_seq, !length_map, Nat.min_id, Nat.eqb_refl.
    simpl negb. cbv iota. destruct (pd.position _ _); by eexists. }
  erewrite bind_ok;
    [|by erewrite setitem_run; [rewrite Ev|apply lookup_alloc]].
  simpl heap. rewrite insert_alloc. by eexists _, v.
Qed.

(** X8. The text map of [extract_features_for_mining] holds, for every
    identifier, the text of the last record of the query with that
    identifier, and nothing for an identifier of no record; so a record
    that is followed by another record with its identifier loses its
    text. The call returns on every list of records. *)
Theorem text_map_keeps_last_text data st :
  exists df text_map st',
    mining.extract_features_for_mining data st = (Ok (df, text_map), st') /\
    forall k,
      app.lookup text_map k
      = option_map mining.text (find (fun r => String.eqb (mining.id r) k) (rev data)).
Proof.
  destruct (extract_features_total data st) as (df & v & E).
  eexists df, _, _. split; [exact E|]. intros k. rewrite text_map_lookup.
  by destruct (find _ (rev data)).
Qed.

Lemma insert_sorted_back c x l :
  c = x \/ In c l -> In c (mlxtend.insert_sorted x l).
Proof.
  induction l as [|y l IH]; simpl.
  - intros [->|[]]. by left.
  - destruct (String.compare x y) eqn:E; simpl.
    + intros [->|H]; [|done]. apply String.compare_eq_iff in E. subst. by left.
    + intros [->|H]; [by left|by right].
    + intros [->|[->|H]]; [right; apply IH; by left|by left|right; apply IH; by right].
Qed.

Lemma sorted_set_back c l : In c l -> In c (mlxtend.sorted_set l).
Proof.
  induction l as [|x l IH]; simpl; [done|].
  intros [->|H]; apply insert_sorted_back; [by left|right; by apply IH].
Qed.

Lemma fit_In data c :
  In c (mlxtend.fit (map basket data)) <-> exists r, In r data /\ In c (basket r).
Proof.
  unfold mlxtend.fit. split.
  - intros H. apply sorted_set_In, in_concat in H as (b & Hb & Hc).
    apply in_map_iff in Hb as (r & <- & Hr). by exists r.
  - intros (r & Hr & Hc). apply sorted_set_back, in_concat. exists (basket r).
    split; [by apply in_map|done].
Qed.

Lemma assoc_id cols (f : string -> cell) x :
  ~ In "id" cols ->
  pd.assoc "id" (combine (cols ++ ["id"]) (map f cols ++ [x])) = Some x.
Proof.
  induction cols as [|d cols IH]; intros H; [done|].
  cbn [map app combine pd.assoc].
  destruct (String.eqb "id" d) eqn:E.
  - apply String.eqb_eq in E. subst d. exfalso. apply H. by left.
  - apply IH. intros Hin. apply H. by right.
Qed.

Lemma assoc_absent c cols (f : string -> cell) x :
  ~ In c cols -> c <> "id" ->
  pd.assoc c (combine (cols ++ ["id"]) (map f cols ++ [x])) = None.
Proof.
  induction cols as [|d cols IH]; intros H Hc.
  - cbn [map app combine pd.assoc]. by apply String.eqb_neq in Hc as ->.
  - cbn [map app combine pd.assoc].
    destruct (String.eqb c d) eqn:E.
    + apply String.eqb_eq in E. subst d. exfalso. apply H. by left.
    + apply IH; [|done]. intros Hin. apply H. by right.
Qed.

Lemma lookup_rows {A B} (g : A -> B) (l : list A) i x : forall a,
  l !! i = Some x -> combine (seq a (length l)) (map g l) !! i = Some (a + i, g x).
Proof.
  revert i. induction l as [|y l IH]; intros i a; [done|].
  destruct i as [|i]; simpl.
  - intros [= ->]. by rewrite Nat.add_0_r.
  - intros H. rewrite (IH i (S a) H). f_equal. f_equal. lia.
Qed.

Lemma feature_frame_row data i r :
  forallb Spec.valid_record data = true -> data !! i = Some r ->
  pd.iterrows (feature_frame data) !! i
  = Some (i, combine (mlxtend.fit (map basket data) ++ ["id"])
               (flags (mlxtend.fit (map basket data)) r ++ [CStr (mining.id r)])).
Proof.
  intros Hv Hr. unfold pd.iterrows, feature_frame. cbn [pd.rows pd.columns].
  rewrite list_lookup_fmap.
  by rewrite (lookup_rows
                (fun r => flags (mlxtend.fit (map basket data)) r ++ [CStr (mining.id r)])
                data i r 0 Hr).
Qed.

Lemma feature_frame_columns data c :
  pd.has_column (feature_frame data) c = true
  <-> c = "id" \/ exists r, In r data /\ In c (basket r).
Proof.
  rewrite has_column_In. unfold feature_frame. cbn [pd.columns].
  rewrite in_app_iff, fit_In. simpl. split; intros [H|H]; auto.
  - destruct H as [H|[]]; auto.
Qed.

(** X9. The table of [extract_features_for_mining] encodes the records
    one-hot. For valid records it is a feature table whose columns are
    [id] and the status values that occur in some record; it has one row
    for each record, in the order of the query and labelled by its
    position, records with the same identifier included; the row of a
    record holds its identifier under [id], and under each other column
    whether that status value is one of the three of the record. *)
Theorem feature_table_encodes_records data st :
  forallb Spec.valid_record data = true ->
  exists df text_map st' v,
    mining.extract_features_for_mining data st = (Ok (df, text_map), st') /\
    heap st' !! df = Some v /\
    Spec.feature_table v = true /\
    (forall c, pd.has_column v c = true
               <-> c = "id" \/ exists r, In r data /\ In c (basket r)) /\
    length (pd.iterrows v) = length data /\
    forall i r, data !! i = Some r ->
      exists row,
        pd.iterrows v !! i = Some (i, row) /\
        pd.assoc "id" row = Some (CStr (mining.id r)) /\
        forall c, pd.has_column v c = true -> c <> "id" ->
          pd.assoc c row = Some (CBool (existsb (String.eqb c) (basket r))).
Proof.
  intros Hv. destruct (extract_features_run data st Hv) as (text_map & E).
  eexists _, text_map, _, (feature_frame data). split; [exact E|].
  split; [apply lookup_alloc|]. split; [by apply feature_frame_table|].
  split; [apply feature_frame_columns|]. split.
  - unfold pd.iterrows, feature_frame. cbn [pd.rows].
    by rewrite length_map, length_combine, length_seq, length_map, Nat.min_id.
  - intros i r Hr. eexists. split; [by apply feature_frame_row|].
    assert (~ In "id" (mlxtend.fit (map basket data))) as Hid.
    { intros H. by apply (valid_status data "id" Hv) in H. }
    split; [by apply assoc_id|].
    intros c Hc Hne. apply feature_frame_columns in Hc as [->|Hc]; [done|].
    apply (assoc_flags c _ (fun c => CBool (existsb (String.eqb c) (basket r)))).
    by apply fit_In.
Qed.

End Records.

(** ** The handler of the mining button *)

Section Handler.
Import Py Run Sem Mined Replies.

Lemma extract_features_valid data st :
  forallb Spec.valid_record data = true ->
  mining.extract_features_for_mining data st
  = (Ok (length (heap st),
         fold_left (fun tm r => mining.dict_store tm (mining.id r) (mining.text r)) data []),
     mkState (heap st ++ [feature_frame data])
       (console st ++ ["Mining: Extracting features from graph..."])).
Proof.
  intros Hv. destruct (extract_features_run data st Hv) as (text_map & E).
  destruct (extract_features_total data st) as (df & v & E').
  rewrite E in E'. injection E' as <- -> _. exact E.
Qed.

Lemma empty_feature_frame data :
  pd.empty (feature_frame data) = Nat.eqb (length data) 0.
Proof.
  unfold pd.empty, feature_frame. cbn [pd.columns pd.rows].
  rewrite length_app, length_combine, length_seq, length_map, Nat.min_id.
  cbn [length]. by rewrite Nat.add_1_r.
Qed.

Lemma head_run st df v :
  heap st !! df = Some v ->
  app.head df st
  = (Ok (length (heap st)),
     mkState (heap st ++ [pd.mkDataFrame (pd.columns v) (firstn 5 (pd.rows v))]) (console st)).
Proof. intros H. unfold app.head. by rewrite (bind_ok _ _ _ _ _ (load_run _ _ _ H)). Qed.

Lemma drop_run st df v labels v' :
  heap st !! df = Some v -> pd.drop v labels = Ok v' ->
  DF.drop df labels st = (Ok (length (heap st)), mkState (heap st ++ [v']) (console st)).
Proof.
  intros H E. unfold DF.drop. rewrite (bind_ok _ _ _ _ _ (load_run _ _ _ H)).
  by rewrite E.
Qed.

Lemma apriori_run st df v min fi :
  heap st !! df = Some v -> mlxtend.apriori_frame v min = Ok fi ->
  mlxtend.apriori df min st
  = (Ok (length (heap st)), mkState (heap st ++ [fi]) (console st)).
Proof.
  intros H E. unfold mlxtend.apriori. rewrite (bind_ok _ _ _ _ _ (load_run _ _ _ H)).
  by rewrite E.
Qed.

Lemma getitem_columns_run st df v labels v' :
  heap st !! df = Some v -> app.select_columns v labels = Ok v' ->
  app.getitem_columns df labels st
  = (Ok (length (heap st)), mkState (heap st ++ [v']) (console st)).
Proof.
  intros H E. unfold app.getitem_columns. rewrite (bind_ok _ _ _ _ _ (load_run _ _ _ H)).
  by rewrite E.
Qed.

(** The four columns the handler shows are columns of the rule frame. *)
Lemma select_columns_rules rs :
  pd.empty (testing_frame rs) = false ->
  exists shown,
    app.select_columns (testing_frame rs)
      ["antecedents"; "consequents"; "support"; "confidence"] = Ok shown.
Proof.
  unfold testing_frame, testing_rows.
  destruct (map testing_row _) as [|row rows] eqn:E; [done|]. intros _.
  rewrite <- E. unfold app.select_columns.
  change (find _ ["antecedents"; "consequents"; "support"; "confidence"]) with (@None string).
  cbv iota. cbn [pd.rows pd.columns].
  rewrite (rmap_map_ok _ testing_row
             (fun ir => (fst ir, [CSet (mlxtend.antecedents (snd ir));
                                  CSet (mlxtend.consequents (snd ir));
                                  CFloat (mlxtend.rule_support (snd ir));
                                  CFloat (mlxtend.confidence (snd ir))]))) by done.
  by eexists.
Qed.

(** A row that violates a rule is the row of a record without a test. *)
Lemma violating_record data rule row :
  forallb Spec.valid_record data = true ->
  In row (violating (feature_frame data) rule) ->
  exists r,
    In r data /\ Spec.cell_of "id" (snd row) = CStr (mining.id r) /\
    mining.test_status r = "NO_TEST".
Proof.
  intros Hv H. apply filter_In in H as [Hrow Hviol].
  apply in_map_iff in Hrow as ([i cells] & <- & Hr). cbn [fst snd] in *.
  unfold feature_frame in Hr. cbn [pd.rows] in Hr.
  apply in_combine_r, in_map_iff in Hr as (r & <- & Hr).
  unfold feature_frame in *. cbn [pd.columns] in *.
  set (cols := mlxtend.fit (map basket data)) in *.
  assert (~ In "id" cols) as Hid.
  { intros H. by apply (valid_status data "id" Hv) in H. }
  exists r. split; [done|]. split.
  { unfold Spec.cell_of, flags. by rewrite assoc_id. }
  unfold Spec.violates in Hviol. apply andb_true_iff in Hviol as [_ Hviol].
  unfold Spec.cell_is, flags in Hviol.
  destruct (in_dec String.string_dec "HAS_TEST" cols) as [Hin|Hout].
  - rewrite (assoc_flags "HAS_TEST" cols
               (fun c => CBool (existsb (String.eqb c) (basket r)))) in Hviol by done.
    rewrite forallb_forall in Hv. apply Hv in Hr. unfold Spec.valid_record in Hr.
    apply andb_true_iff in Hr as [Hr _]. apply andb_true_iff in Hr as [Hr _].
    apply orb_true_iff in Hr as [Hr|Hr]; apply String.eqb_eq in Hr; [|done].
    unfold basket in Hviol. rewrite Hr in Hviol. done.
  - by rewrite assoc_absent in Hviol.
Qed.

Lemma find_present {A} (p : A -> bool) l x :
  In x l -> p x = true -> exists y, find p l = Some y.
Proof.
  intros Hx Hp. destruct (find p l) as [y|] eqn:E; [by eexists|].
  by rewrite (find_none _ _ E x Hx) in Hp.
Qed.

(** The loop that builds [patterns_for_llm]. *)
Lemma patterns_loop data text_map exceptions : forall acc st,
  (forall k,
     app.lookup text_map k
     = option_map mining.text (find (fun r => String.eqb (mining.id r) k) (rev data))) ->
  (forall exc, In exc exceptions ->
     exists r, In r data /\ mining.gap_id exc = CStr (mining.id r) /\
               mining.test_status r = "NO_TEST") ->
  exists patterns,
    Loop.for_each exceptions acc
      (fun patterns_for_llm exc =>
         bind (lift (app.text_of text_map (mining.gap_id exc)))
           (fun text =>
              ret (patterns_for_llm
                   ++ [suggestions.mkPattern (mining.gap_id exc) text]))) st
    = (Ok (acc ++ patterns), st) /\
    Forall2 (sent data) exceptions patterns.
Proof.
  intros acc st Hmap. revert acc.
  induction exceptions as [|exc exceptions IH]; intros acc Hexc.
  - exists []. simpl. unfold ret. rewrite app_nil_r. split; [done|constructor].
  - destruct (Hexc exc (or_introl eq_refl)) as (r & Hr & Hid & Ht).
    destruct (find_present (fun r' => String.eqb (mining.id r') (mining.id r)) (rev data) r)
      as (r' & Hfind); [by apply in_rev in Hr|apply String.eqb_refl|].
    assert (app.text_of text_map (mining.gap_id exc) = Ok (mining.text r')) as Htext.
    { rewrite Hid. unfold app.text_of. by rewrite Hmap, Hfind. }
    rewrite for_each_cons. erewrite bind_ok; [|by rewrite Htext].
    destruct (IH (acc ++ [suggestions.mkPattern (mining.gap_id exc) (mining.text r')]))
      as (patterns & E & H).
    { intros exc' Hin. apply Hexc. by right. }
    exists (suggestions.mkPattern (mining.gap_id exc) (mining.text r') :: patterns).
    split; [by rewrite E, <- app_assoc|]. constructor; [|done].
    split; [done|]. exists r. cbn [suggestions.pattern_text]. by rewrite Hfind.
Qed.

Lemma apriori_frame_flags v X :
  mlxtend.values (flag_frame v) = Ok X ->
  mlxtend.apriori_frame (flag_frame v) (Fin (1 # 100))
  = Ok (pd.of_rows ["support"; "itemsets"]
          (map mlxtend.itemset_cells (mlxtend.frequent (flag_columns v) X (Fin (1 # 100))))).
Proof.
  intros EX. unfold mlxtend.apriori_frame.
  change (fge (Fin 0) (Fin (1 # 100))) with false. cbv iota. by rewrite EX.
Qed.

(** A call of the program that returns is one step of the script. *)
Lemma then_call {A B} (c : M A) (k : A -> streamlit.S B) st ses a st' :
  c st = (Ok a, st') ->
  streamlit.then_ (streamlit.call c) k (streamlit.mkScript st ses)
  = k a (streamlit.mkScript st' ses).
Proof. intros E. unfold streamlit.then_, streamlit.call. simpl. by rewrite E. Qed.


End Handler.

(** ** Tables without identifiers *)

Section NoIdentifier.
Import Py Run Sem Mined.

Lemma rmap_raise {A B} (f : A -> result B) e l :
  (forall x, In x l -> f x = Raise e) ->
  rmap f l = match l with [] => Ok [] | _ => Raise e end.
Proof.
  destruct l as [|x l]; intros H; simpl; [done|]. by rewrite (H x (or_introl eq_refl)).
Qed.

Lemma existsb_filter {A} (p : A -> bool) l :
  existsb p l = match List.filter p l with [] => false | _ => true end.
Proof. induction l as [|x l IH]; simpl; [done|]. by destruct (p x). Qed.

Lemma rule_gaps_no_id v rule :
  Spec.well_formed v = true -> pd.has_column v "id" = false -> Spec.is_rule rule = true ->
  Pure.rule_gaps v rule
  = if existsb (fun row => Spec.violates_on v rule (snd row)) (pd.iterrows v)
    then Raise (KeyError "id") else Ok [].
Proof.
  intros Hwf Hid Hrule. pose proof (well_formed_full v Hwf) as Hfull.
  unfold Pure.rule_gaps, Spec.is_rule, pd.series_getitem in *.
  unfold Spec.violates_on, Spec.antecedents, Spec.consequents.
  destruct (pd.assoc "antecedents" rule) as [[| |?|a]|]; try done.
  destruct (pd.assoc "consequents" rule) as [[| |?|c]|]; try done.
  destruct (pd.assoc "confidence" rule) as [conf|] eqn:Hconf; try done.
  simpl.
  replace v with (pd.mkDataFrame (pd.columns v) (pd.rows v)) at 2 by by destruct v.
  rewrite narrow_filter by done. simpl.
  rewrite narrow_filter by by apply filter_full. simpl.
  rewrite filter_and. unfold pd.iterrows at 1. simpl.
  rewrite existsb_filter, iterrows_series, filter_map_comm.
  rewrite (rmap_raise _ (KeyError "id")).
  - by destruct (List.filter _ (pd.rows v)).
  - intros x Hx. apply in_map_iff in Hx as (r & <- & Hr).
    unfold Pure.gap_of, pd.series_getitem. simpl. rewrite assoc_combine.
    unfold pd.cell_at. rewrite position_None; [done|].
    intros d Hd. apply not_true_iff_false. intros E. apply String.eqb_eq in E. subst d.
    apply has_column_In in Hd. by rewrite Hd in Hid.
Qed.

Lemma gaps_no_id v rules :
  Spec.well_formed v = true -> pd.has_column v "id" = false ->
  forallb (fun r => Spec.is_rule (snd r)) rules = true ->
  Pure.gaps v rules []
  = if existsb
         (fun rule => existsb (fun row => Spec.violates_on v (snd rule) (snd row))
                        (pd.iterrows v))
         rules
    then Raise (KeyError "id") else Ok [].
Proof.
  intros Hwf Hid. induction rules as [|r rules IH]; intros Hrules; simpl; [done|].
  simpl in Hrules. apply andb_true_iff in Hrules as [Hr Hrules].
  rewrite rule_gaps_no_id by done.
  destruct (existsb _ (pd.iterrows v)); simpl; [done|]. by apply IH.
Qed.

(** X11. The column [id] is required. On a table without it,
    [discover_rules] raises the KeyError of [df.drop], whose message is
    ['id'] not found in axis, whatever the rows, after its first message
    and before any frame is made; [find_exceptions] raises KeyError 'id'
    when some row violates some rule of the rule table, at the first gap
    record it builds, and returns the empty list when no row violates a
    rule. *)
Theorem mining_needs_the_id_column df rules v rv st :
  heap st !! df = Some v -> heap st !! rules = Some rv ->
  Spec.well_formed v = true -> pd.has_column v "id" = false ->
  Spec.rule_table rv = true ->
  mining.discover_rules df st
  = (Raise (KeyError "['id'] not found in axis"),
     mkState (heap st)
       (console st ++ ["Mining: Running Apriori to find frequent itemsets..."])) /\
  fst (mining.find_exceptions df rules st)
  = if existsb
         (fun rule => existsb (fun row => Spec.violates_on v (snd rule) (snd row))
                        (pd.iterrows v))
         (pd.iterrows rv)
    then Raise (KeyError "id") else Ok [].
Proof.
  intros Hdf Hrules Hwf Hid Hrt. split.
  - unfold mining.discover_rules. erewrite bind_ok; [|reflexivity].
    unfold DF.drop. rewrite bind_assoc. erewrite bind_ok; [|by apply load_run].
    erewrite bind_raise; [done|]. unfold lift, pd.drop. simpl. by rewrite Hid.
  - destruct (find_exceptions_run df rules v rv st Hdf Hrules) as (st' & -> & _).
    simpl. unfold Pure.find_exceptions. by apply gaps_no_id.
Qed.

End NoIdentifier.

(** ** Facts about the regular expressions *)

Section Regex.
Import PyText.
Local Open Scope string_scope.
Local Arguments String.append : simpl nomatch.

Lemma literal_app l r : re.literal false l (l ++ r) = Some r.
Proof.
  induction l as [|a l IH]; simpl; [by destruct r|].
  unfold re.same. by rewrite Ascii.eqb_refl.
Qed.

Lemma literal_inv l : forall s r, re.literal false l s = Some r -> s = l ++ r.
Proof.
  induction l as [|a l IH]; intros s r; simpl.
  - by intros [= ->].
  - destruct s as [|b s]; [done|]. unfold re.same.
    destruct (Ascii.eqb a b) eqn:E; [|done]. apply Ascii.eqb_eq in E. subst b.
    intros H. by rewrite (IH s r H).
Qed.

(** A literal does not match what starts with another character. *)
Lemma literal_other ignorecase a l c s :
  re.same ignorecase a c = false ->
  re.literal ignorecase (String a l) (String c s) = None.
Proof. intros H. simpl. by rewrite H. Qed.

Lemma has_char_app c a b : has_char c (a ++ b) = has_char c a || has_char c b.
Proof. induction a as [|d a IH]; simpl; [done|]. by rewrite IH, orb_assoc. Qed.

Lemma one_line_app a b : one_line (a ++ b) = one_line a && one_line b.
Proof. induction a as [|d a IH]; simpl; [done|]. by rewrite IH, andb_assoc. Qed.

Lemma linebreak_LF : is_linebreak LF = true.
Proof. reflexivity. Qed.

Lemma one_line_dot c s : one_line (String c s) = true -> re.dot c = true.
Proof.
  simpl. intros H. apply andb_true_iff in H as [H _]. unfold re.dot.
  destruct (Ascii.eqb c LF) eqn:E; [|done]. apply Ascii.eqb_eq in E. subst c.
  by rewrite linebreak_LF in H.
Qed.

(** The greedy group at the end of a pattern takes the line. *)
Lemma greedy_line s :
  one_line s = true -> re.greedy (fun _ => Some []) s = Some [s].
Proof.
  induction s as [|c s IH]; intros H; [done|].
  cbn [re.greedy]. rewrite (one_line_dot c s H).
  simpl in H. apply andb_true_iff in H as [_ H]. by rewrite (IH H).
Qed.

(** The lazy group stops at the first place where the rest matches. *)
Lemma lazy_first rest g : forall tail groups,
  one_line g = true ->
  (forall a b, g = a ++ b -> b <> "" -> rest (b ++ tail) = None) ->
  rest tail = Some groups ->
  re.lazy rest (g ++ tail) = Some (g :: groups).
Proof.
  induction g as [|c g IH]; intros tail groups Hg Hnone Hrest.
  - simpl. destruct tail; simpl; by rewrite Hrest.
  - change (String c g ++ tail) with (String c (g ++ tail)). cbn [re.lazy].
    assert (rest (String c (g ++ tail)) = None) as ->
      by (by apply (Hnone "" (String c g) eq_refl)).
    rewrite (one_line_dot c g Hg).
    simpl in Hg. apply andb_true_iff in Hg as [_ Hg].
    rewrite (IH tail groups Hg); [done| |done].
    intros a b -> Hb. by apply (Hnone (String c a) b).
Qed.

Lemma lazy_inv rest : forall s groups,
  re.lazy rest s = Some groups ->
  exists g groups' tail,
    groups = g :: groups' /\ s = g ++ tail /\ rest tail = Some groups' /\
    forall a b, g = a ++ b -> b <> "" -> rest (b ++ tail) = None.
Proof.
  assert (forall s, re.lazy rest s
            = match rest s with
              | Some groups => Some ("" :: groups)
              | None =>
                  match s with
                  | String c s' =>
                      if re.dot c then option_map (re.grow c) (re.lazy rest s') else None
                  | EmptyString => None
                  end
              end) as Hunfold by (by intros [|c s]).
  induction s as [|c s IH]; intros groups; rewrite Hunfold.
  - destruct (rest "") as [gs|] eqn:E; [|done]. intros [= <-].
    exists "", gs, "". split; [done|]. split; [done|]. split; [done|].
    intros a b Hab Hb. by destruct a, b.
  - destruct (rest (String c s)) as [gs|] eqn:E.
    + intros [= <-]. exists "", gs, (String c s). split; [done|]. split; [done|].
      split; [done|]. intros a b Hab Hb. by destruct a, b.
    + destruct (re.dot c); [|done].
      destruct (re.lazy rest s) as [gs|] eqn:El; [|done]. simpl. intros [= <-].
      destruct (IH gs eq_refl) as (g & groups' & tail & -> & -> & Hrest & Hmin).
      exists (String c g), groups', tail. split; [done|]. split; [done|]. split; [done|].
      intros a b Hab Hb. destruct a as [|d a].
      * simpl in Hab. by subst b.
      * injection Hab as <- ->. by apply (Hmin a b).
Qed.

End Regex.

Section RegPattern.
Import PyText Formats.
Local Open Scope string_scope.
Local Arguments String.append : simpl nomatch.

Lemma string_length_app a b : String.length (a ++ b) = String.length a + String.length b.
Proof. induction a as [|c a IH]; simpl; [done|]. by rewrite IH. Qed.

(** Two ways to cut one string. *)
Lemma app_cut a' : forall a x x',
  a ++ x = a' ++ x' -> String.length a' < String.length a ->
  exists b, b <> "" /\ a = a' ++ b /\ x' = b ++ x.
Proof.
  induction a' as [|c a' IH]; intros a x x' E L.
  - exists a. split; [by destruct a; [simpl in L; lia|]|]. by split.
  - destruct a as [|d a]; [simpl in L; lia|]. simpl in E. injection E as -> E.
    destruct (IH a x x' E) as (b & Hb & -> & ->); [simpl in L; lia|].
    by exists b.
Qed.

(** What follows the identifier of a clause line. *)
Lemma clause_rest tail groups :
  one_line tail = true ->
  re.match_ false [re.Lit "] "; re.Greedy] tail = Some groups ->
  exists text, tail = "] " ++ text /\ groups = [text].
Proof.
  intros Hl. cbn [re.match_].
  destruct (re.literal false "] " tail) as [r|] eqn:E; [|done].
  apply literal_inv in E. subst tail. rewrite one_line_app in Hl.
  apply andb_true_iff in Hl as [_ Hl]. rewrite (greedy_line r Hl).
  intros [= <-]. by exists r.
Qed.

Lemma clause_rest_ok text :
  one_line text = true ->
  re.match_ false [re.Lit "] "; re.Greedy] ("] " ++ text) = Some [text].
Proof.
  intros Hl. cbn [re.match_]. by rewrite literal_app, greedy_line.
Qed.

(** X12. [REG_PATTERN] reads a clause line back, with the shortest
    identifier. On a line of the decrypted file, the match has the groups
    [id] and [text] exactly when the line is "[CLAUSE: id] text" and no
    shorter identifier cuts the line that way. *)
Theorem reg_pattern_reads_the_shortest_id line id text :
  one_line line = true ->
  re.match_ false parsers.REG_PATTERN line = Some [id; text]
  <-> line = clause_line id text /\
      forall id' text',
        line = clause_line id' text' -> String.length id <= String.length id'.
Proof.
  intros Hl. unfold parsers.REG_PATTERN, clause_line.
  change (re.match_ false (re.Lit "[CLAUSE: " :: re.Lazy :: [re.Lit "] "; re.Greedy]) line)
    with (match re.literal false "[CLAUSE: " line with
          | Some r => re.lazy (re.match_ false [re.Lit "] "; re.Greedy]) r
          | None => None
          end).
  split.
  - destruct (re.literal false "[CLAUSE: " line) as [r|] eqn:E; [|done].
    apply literal_inv in E. subst line. intros H.
    apply lazy_inv in H as (g & groups' & tail & [= <- <-] & -> & Hrest & Hmin).
    rewrite !one_line_app in Hl. apply andb_true_iff in Hl as [_ Hl].
    apply andb_true_iff in Hl as [Hid Htail].
    destruct (clause_rest tail [text] Htail Hrest) as (text' & -> & [= <-]).
    split; [done|]. intros id' text' E.
    apply String.app_inj in E.
    destruct (Nat.le_gt_cases (String.length id) (String.length id')) as [|L]; [done|].
    destruct (app_cut id' id _ _ E L) as (b & Hb & Eid & Etail).
    specialize (Hmin id' b Eid Hb). rewrite <- Etail in Hmin.
    rewrite clause_rest_ok in Hmin; [done|].
    assert (one_line ("] " ++ text') = true) as H'.
    { rewrite Etail, one_line_app, Htail, andb_true_r.
      rewrite Eid, one_line_app in Hid. by apply andb_true_iff in Hid as [_ ?]. }
    by rewrite one_line_app in H'.
  - intros [-> Hmin]. rewrite literal_app.
    rewrite !one_line_app in Hl. apply andb_true_iff in Hl as [_ Hl].
    apply andb_true_iff in Hl as [Hid Htail].
    apply lazy_first; [done| |].
    + intros a b -> Hb.
      destruct (re.match_ false [re.Lit "] "; re.Greedy] (b ++ "] " ++ text))
        as [groups|] eqn:E; [|done].
      apply clause_rest in E as (text' & E & _).
      * specialize (Hmin a text'). rewrite string_length_app in Hmin.
        assert (String.length b <> 0) by (by destruct b).
        rewrite string_app_assoc, E in Hmin. specialize (Hmin eq_refl). lia.
      * rewrite !one_line_app, Htail, andb_true_r.
        rewrite one_line_app in Hid. by apply andb_true_iff in Hid as [_ ?].
    + apply clause_rest_ok. by apply andb_true_iff in Htail as [_ ?].
Qed.

End RegPattern.

(** ** The parsers read the formats back *)

Section Parsers.
Import PyText Formats graph_db.
Local Open Scope string_scope.
Local Arguments String.append : simpl nomatch.

Lemma splitlines_one_line l : one_line l = true -> l <> "" -> splitlines l = [l].
Proof.
  induction l as [|c l IH]; intros H Hne; [done|].
  simpl in H. apply andb_true_iff in H as [Hc H]. apply negb_true_iff in Hc.
  cbn [splitlines]. rewrite Hc. destruct l as [|d l]; [done|]. by rewrite IH.
Qed.

Lemma splitlines_line l s :
  one_line l = true -> splitlines (l ++ String LF s) = l :: splitlines s.
Proof.
  induction l as [|c l IH]; intros H.
  - change ("" ++ String LF s) with (String LF s). cbn [splitlines].
    rewrite linebreak_LF. by destruct s.
  - simpl in H. apply andb_true_iff in H as [Hc H]. apply negb_true_iff in Hc.
    change (String c l ++ String LF s) with (String c (l ++ String LF s)).
    cbn [splitlines]. rewrite Hc. by rewrite IH.
Qed.

(** [splitlines] undoes the joining of lines that are not empty. *)
Lemma splitlines_join lines :
  Forall (fun l => one_line l = true /\ l <> "") lines ->
  splitlines (join_lines lines) = lines.
Proof.
  induction 1 as [|l lines [Hl Hne] H IH]; [done|].
  destruct lines as [|l' lines].
  - by apply splitlines_one_line.
  - change (join_lines (l :: l' :: lines)) with (l ++ String LF (join_lines (l' :: lines))).
    by rewrite splitlines_line, IH.
Qed.

Lemma identifier_parts g a b :
  identifier g = true -> g = a ++ b -> b <> "" ->
  exists d b', b = String d b' /\ Ascii.eqb "]"%char d = false.
Proof.
  unfold identifier. intros H -> Hb. apply andb_true_iff in H as [H _].
  apply negb_true_iff in H. rewrite has_char_app in H. apply orb_false_iff in H as [_ H].
  destruct b as [|d b']; [done|]. exists d, b'. split; [done|].
  simpl in H. apply orb_false_iff in H as [H _]. by rewrite Ascii.eqb_sym.
Qed.

Lemma lower_bracket c : re.lower c = "]"%char -> c = "]"%char.
Proof.
  destruct c as [[] [] [] [] [] [] [] []]; intros H; vm_compute in H;
    first [discriminate H | reflexivity].
Qed.

Lemma same_bracket ignorecase d :
  Ascii.eqb "]"%char d = false -> re.same ignorecase "]"%char d = false.
Proof.
  intros H. unfold re.same. destruct ignorecase; [|done].
  change (re.lower "]"%char) with "]"%char.
  apply Ascii.eqb_neq. intros E. apply Ascii.eqb_neq in H. apply H.
  symmetry. by apply lower_bracket.
Qed.

(** The lazy group reads an identifier up to the closing bracket. *)
Lemma lazy_identifier ignorecase l p g tail groups :
  identifier g = true ->
  re.match_ ignorecase (re.Lit (String "]"%char l) :: p) tail = Some groups ->
  re.lazy (re.match_ ignorecase (re.Lit (String "]"%char l) :: p)) (g ++ tail)
  = Some (g :: groups).
Proof.
  intros Hg Hrest. apply lazy_first; [|  |done].
  - unfold identifier in Hg. by apply andb_true_iff in Hg as [_ ?].
  - intros a b Hab Hb.
    destruct (identifier_parts g a b Hg Hab Hb) as (d & b' & -> & Hd).
    change (String d b' ++ tail) with (String d (b' ++ tail)).
    cbn [re.match_]. by rewrite literal_other by by apply same_bracket.
Qed.

Lemma reg_pattern_line c :
  clause_ok c = true ->
  re.match_ false parsers.REG_PATTERN (clause_line (clause_id c) (clause_text c))
  = Some [clause_id c; clause_text c].
Proof.
  unfold clause_ok. intros H. apply andb_true_iff in H as [Hid Htext].
  unfold parsers.REG_PATTERN, clause_line.
  change (re.match_ false (re.Lit "[CLAUSE: " :: re.Lazy :: [re.Lit "] "; re.Greedy])
            ("[CLAUSE: " ++ clause_id c ++ "] " ++ clause_text c))
    with (match re.literal false "[CLAUSE: "
                  ("[CLAUSE: " ++ clause_id c ++ "] " ++ clause_text c) with
          | Some r => re.lazy (re.match_ false [re.Lit "] "; re.Greedy]) r
          | None => None
          end).
  rewrite literal_app. apply lazy_identifier; [done|]. by apply clause_rest_ok.
Qed.

Lemma req_pattern_line r :
  requirement_ok r = true ->
  re.match_ false parsers.REQ_PATTERN
    (requirement_line (requirement_id r) (derives_from r) (requirement_text r))
  = Some [requirement_id r; derives_from r; requirement_text r].
Proof.
  unfold requirement_ok. intros H. apply andb_true_iff in H as [H Htext].
  apply andb_true_iff in H as [Hid Hreg].
  unfold parsers.REQ_PATTERN, requirement_line.
  set (s := requirement_id r ++ "] [DERIVES_FROM: " ++ derives_from r ++ "] "
            ++ requirement_text r).
  change (re.match_ false
            (re.Lit "[REQ: " :: re.Lazy
             :: re.Lit "] [DERIVES_FROM: " :: re.Lazy :: [re.Lit "] "; re.Greedy])
            ("[REQ: " ++ s))
    with (match re.literal false "[REQ: " ("[REQ: " ++ s) with
          | Some r =>
              re.lazy (re.match_ false
                         (re.Lit "] [DERIVES_FROM: " :: re.Lazy
                          :: [re.Lit "] "; re.Greedy])) r
          | None => None
          end).
  rewrite literal_app. apply lazy_identifier; [done|].
  change (re.match_ false
            (re.Lit "] [DERIVES_FROM: " :: re.Lazy :: [re.Lit "] "; re.Greedy])
            ("] [DERIVES_FROM: " ++ derives_from r ++ "] " ++ requirement_text r))
    with (match re.literal false "] [DERIVES_FROM: "
                  ("] [DERIVES_FROM: " ++ derives_from r ++ "] " ++ requirement_text r) with
          | Some r => re.lazy (re.match_ false [re.Lit "] "; re.Greedy]) r
          | None => None
          end).
  rewrite literal_app. apply lazy_identifier; [done|]. by apply clause_rest_ok.
Qed.

Lemma for_each_map {A B} (f : A -> B) (body : B -> W unit) (queries : A -> list query) l :
  (forall x w, In x l ->
     body (f x) w = (tt, mkWorld (sent w ++ queries x) (printed w))) ->
  forall w,
    for_each (map f l) body w
    = (tt, mkWorld (sent w ++ flat_map queries l) (printed w)).
Proof.
  induction l as [|x l IH]; intros H w; simpl.
  - unfold ret. rewrite app_nil_r. by destruct w.
  - unfold bind. rewrite (H x w (or_introl eq_refl)).
    rewrite IH by (intros y w' Hy; apply H; by right).
    simpl. by rewrite <- app_assoc.
Qed.

End Parsers.

Section ParserTheorems.
Import PyText Formats graph_db.
Local Open Scope string_scope.
Local Arguments String.append : simpl nomatch.

Lemma flat_map_single {A B} (f : A -> B) l : flat_map (fun x => [f x]) l = map f l.
Proof. induction l as [|x l IH]; simpl; [done|]. by rewrite IH. Qed.

Lemma clause_lines_ok clauses :
  forallb clause_ok clauses = true ->
  Forall (fun l => one_line l = true /\ l <> "")
    (map (fun c => clause_line (clause_id c) (clause_text c)) clauses).
Proof.
  intros H. apply Forall_forall. intros l Hl.
  apply list_elem_of_In, in_map_iff in Hl as (c & <- & Hc).
  rewrite forallb_forall in H. apply H in Hc. unfold clause_ok, identifier in Hc.
  apply andb_true_iff in Hc as [Hid Ht]. apply andb_true_iff in Hid as [_ Hid].
  unfold clause_line. split; [|done].
  rewrite !one_line_app, Hid, Ht. reflexivity.
Qed.

Lemma requirement_lines_ok reqs :
  forallb requirement_ok reqs = true ->
  Forall (fun l => one_line l = true /\ l <> "")
    (map (fun r => requirement_line (requirement_id r) (derives_from r)
                     (requirement_text r)) reqs).
Proof.
  intros H. apply Forall_forall. intros l Hl.
  apply list_elem_of_In, in_map_iff in Hl as (r & <- & Hr).
  rewrite forallb_forall in H. apply H in Hr. unfold requirement_ok, identifier in Hr.
  apply andb_true_iff in Hr as [Hr Ht]. apply andb_true_iff in Hr as [Hid Hreg].
  apply andb_true_iff in Hid as [_ Hid]. apply andb_true_iff in Hreg as [_ Hreg].
  unfold requirement_line. split; [|done].
  rewrite !one_line_app, Hid, Hreg, Ht. reflexivity.
Qed.

(** X13. [parse_regs] reads back what the extraction asks the model to
    write. When the decrypted file holds the lines "[CLAUSE: id] text" of
    a list of clauses, joined by newlines, whose identifiers hold no
    closing bracket, [parse_regs] sends one MERGE query for each clause,
    in their order and with its identifier and its text, then prints
    that the regulations are parsed. *)
Theorem parse_regs_reads_clauses data_dir clauses w :
  forallb clause_ok clauses = true ->
  parsers.parse_regs data_dir
    (parsers.Decrypted
       (join_lines (map (fun c => clause_line (clause_id c) (clause_text c)) clauses))) w
  = (tt,
     mkWorld
       (sent w
        ++ map (fun c =>
                  mkQuery "MERGE (r:Regulation {id: $id}) SET r.text = $text"
                    [("id", clause_id c); ("text", clause_text c)])
             clauses)
       (printed w ++ ["Parsed Regulations from " ++ data_dir])).
Proof.
  intros H. unfold parsers.parse_regs.
  rewrite splitlines_join by by apply clause_lines_ok.
  unfold bind at 1.
  rewrite (for_each_map _ _
             (fun c => [mkQuery "MERGE (r:Regulation {id: $id}) SET r.text = $text"
                          [("id", clause_id c); ("text", clause_text c)]])).
  - by rewrite flat_map_single.
  - intros c w' Hc. rewrite forallb_forall in H. by rewrite reg_pattern_line by by apply H.
Qed.

(** X14. [parse_reqs] reads the lines "[REQ: id] [DERIVES_FROM: clause]
    text" back. For requirements whose two identifiers hold no closing
    bracket, it sends two queries for each requirement, in their order:
    the MERGE of the requirement with its identifier and its text, then
    the link to the regulation, with the identifier of the requirement
    and that of the clause. *)
Theorem parse_reqs_reads_requirements data_dir reqs w :
  forallb requirement_ok reqs = true ->
    parsers.parse_reqs data_dir
      (parsers.Decrypted
         (join_lines
            (map (fun r => requirement_line (requirement_id r) (derives_from r)
                             (requirement_text r)) reqs))) w
    = (tt,
       mkWorld
         (sent w
          ++ flat_map
               (fun r =>
                  [mkQuery "MERGE (r:Requirement {id: $id}) SET r.text = $text"
                     [("id", requirement_id r); ("text", requirement_text r)];
                   mkQuery parsers.derives_from_query
                     [("req_id", requirement_id r); ("reg_id", derives_from r)]])
               reqs)
         (printed w ++ ["Parsed Requirements from " ++ data_dir])).
Proof.
  intros H. unfold parsers.parse_reqs.
  rewrite splitlines_join by by apply requirement_lines_ok.
  unfold bind at 1.
  rewrite (for_each_map _ _
             (fun r =>
                [mkQuery "MERGE (r:Requirement {id: $id}) SET r.text = $text"
                   [("id", requirement_id r); ("text", requirement_text r)];
                 mkQuery parsers.derives_from_query
                   [("req_id", requirement_id r); ("reg_id", derives_from r)]])).
  - reflexivity.
  - intros r w' Hr. rewrite forallb_forall in H. rewrite req_pattern_line by by apply H.
    unfold bind, run_query. simpl. by rewrite <- app_assoc.
Qed.

Lemma lower_open c : re.lower c = "["%char -> c = "["%char.
Proof.
  destruct c as [[] [] [] [] [] [] [] []]; intros H; vm_compute in H;
    first [discriminate H | reflexivity].
Qed.

Lemma search_here ignorecase p s groups :
  re.match_ ignorecase p s = Some groups -> re.search ignorecase p s = Some groups.
Proof. intros H. destruct s; simpl; by rewrite H. Qed.

(** The search passes over what holds no opening bracket. *)
Lemma search_skip l p pre s :
  has_char "["%char pre = false ->
  re.search true (re.Lit (String "["%char l) :: p) (pre ++ s)
  = re.search true (re.Lit (String "["%char l) :: p) s.
Proof.
  induction pre as [|c pre IH]; intros H; [done|].
  simpl in H. apply orb_false_iff in H as [Hc H].
  change (String c pre ++ s) with (String c (pre ++ s)). cbn [re.search re.match_].
  rewrite literal_other; [by apply IH|].
  unfold re.same. change (re.lower "["%char) with "["%char.
  apply Ascii.eqb_neq. intros E. apply Ascii.eqb_neq in Hc. apply Hc.
  by apply lower_open.
Qed.

Lemma literal_tag l : forall tag r,
  re.literal true l tag = Some "" -> re.literal true l (tag ++ r) = Some r.
Proof.
  induction l as [|a l IH]; intros tag r; simpl.
  - intros [= ->]. reflexivity.
  - destruct tag as [|b tag]; [done|].
    change (String b tag ++ r) with (String b (tag ++ r)). cbn iota.
    destruct (Ascii.eqb (re.lower a) (re.lower b)); [|done]. apply IH.
Qed.

(** X15. A commit is linked to the requirement of its first tag. When
    the message of a commit holds, after a text without an opening
    bracket, the tag "[IMPLEMENTS: id]" in any case of its letters, with
    an identifier that holds no closing bracket, [_parse_commits] sends
    the MERGE of the commit and its link to the requirement [id],
    whatever follows the tag: a second tag in the message is not
    read. *)
Theorem parse_commits_links_the_first_tag pre tag req_id post c w :
  has_char "["%char pre = false ->
  re.literal true "[IMPLEMENTS: " tag = Some "" ->
  identifier req_id = true ->
  parsers.message c = pre ++ tag ++ req_id ++ "]" ++ post ->
  parsers._parse_commits [c] w
  = (tt,
     mkWorld
       (sent w
        ++ [mkQuery parsers.commit_query
              [("id", parsers.hexsha c); ("msg", parsers.message c);
               ("author", parsers.author c)];
            mkQuery parsers.implements_query
              [("commit_id", parsers.hexsha c); ("req_id", req_id)]])
       (printed w ++ ["Parsed Git Commits."])).
Proof.
  intros Hpre Htag Hid Hmsg.
  assert (re.search true parsers.COMMIT_PATTERN (parsers.message c) = Some [req_id]) as E.
  { rewrite Hmsg. unfold parsers.COMMIT_PATTERN. rewrite search_skip by done.
    apply search_here.
    change (re.match_ true [re.Lit "[IMPLEMENTS: "; re.Lazy; re.Lit "]"]
              (tag ++ req_id ++ "]" ++ post))
      with (match re.literal true "[IMPLEMENTS: " (tag ++ req_id ++ "]" ++ post) with
            | Some r => re.lazy (re.match_ true [re.Lit "]"]) r
            | None => None
            end).
    rewrite (literal_tag _ _ _ Htag). apply lazy_identifier; [done|].
    cbn [re.match_]. change ("]" ++ post) with (String "]"%char post).
    cbn [re.literal]. unfold re.same. by rewrite Ascii.eqb_refl. }
  unfold parsers._parse_commits. cbn [for_each]. unfold bind, ret, run_query, print.
  rewrite E. simpl. by rewrite <- app_assoc.
Qed.

End ParserTheorems.

(** ** The further properties at concrete inputs *)

Section MoreWitnesses.
Import Py Run Sem Mined Replies.

(** Four records, two of them for REQ-3 without a test: the rule
    {HAS_RISK} -> {HAS_TEST} has the confidence 1/2 and two gap records,
    the two rules with NO_CODE have the confidence 1 and none; the model
    is asked twice about REQ-3, with the text of its last record, and
    the handler ends in [st.rerun()] with the two suggestions stored.
    With no record it comes to its end and stores nothing. *)
Example three_records_gaps :
  let run := app.discover_gaps Cases.steady_model Cases.three_records Cases.first_run in
  let none := app.discover_gaps Cases.steady_model [] Cases.first_run in
  fst run = inr streamlit.RerunException /\
  streamlit.session_suggestions (snd run)
  = Some [suggestions.mkSuggestion (CStr "REQ-3") "The dose shall be bounded."
            "T-101" "Test_Dose_Limit" "PENDING";
          suggestions.mkSuggestion (CStr "REQ-3") "The dose shall be bounded."
            "T-101" "Test_Dose_Limit" "PENDING"] /\
  fst none = inl app.NoData /\
  streamlit.session_suggestions (snd none) = None.
Proof. vm_compute. by repeat split. Qed.

(** An error text with two commas becomes a suggestion. *)
Example failure_taken_for_a_reply :
  fst (suggestions.generate_suggestions Cases.failing_model [Cases.a_pattern]
         (mkState [] []))
  = Ok [suggestions.mkSuggestion (CStr "REQ-3") "The dose shall be limited."
          "Error: Could not get response from LLM. Connection error: host unreachable"
          " retrying" " giving up"].
Proof. vm_compute. reflexivity. Qed.

Lemma discovered_rules_fit_the_table_witness :
  heap Spec.e2e2_state !! 0 = Some Spec.e2e2_table /\
  Spec.feature_table Spec.e2e2_table = true /\
  exists rules st' rv,
    mining.discover_rules 0 Spec.e2e2_state = (Ok rules, st') /\
    heap st' !! rules = Some rv /\
    Spec.rule_set rv = true /\ Spec.items_in Spec.e2e2_table rv = true /\
    forall rule, In rule (pd.iterrows rv) ->
      pd.has_column Spec.e2e2_table "HAS_TEST" = true /\
      Spec.antecedents (snd rule) <> [] /\
      NoDup (Spec.antecedents (snd rule)) /\
      ~ In "HAS_TEST" (Spec.antecedents (snd rule)) /\
      ~ In "id" (Spec.antecedents (snd rule)).
Proof.
  do 2 (split; [reflexivity|]).
  apply (discovered_rules_fit_the_table 0 Spec.e2e2_table Spec.e2e2_state); reflexivity.
Defined.

Lemma no_gap_iff_full_confidence_witness :
  heap Spec.e2e2_state !! 0 = Some Spec.e2e2_table /\
  Spec.feature_table Spec.e2e2_table = true /\
  exists rules st1 rv gaps st2,
    mining.discover_rules 0 Spec.e2e2_state = (Ok rules, st1) /\
    heap st1 !! rules = Some rv /\
    mining.find_exceptions 0 rules st1 = (Ok gaps, st2) /\
    gaps = flat_map
             (fun rule =>
                map (fun row => Spec.gap_record (snd rule) (snd row))
                  (violating Spec.e2e2_table (snd rule)))
             (pd.iterrows rv) /\
    forall rule, In rule (pd.iterrows rv) ->
      exists c,
        pd.assoc "confidence" (snd rule) = Some (CFloat (Fin c)) /\
        (violating Spec.e2e2_table (snd rule) = [] <-> (c == 1)%Q) /\
        2 * length (violating Spec.e2e2_table (snd rule))
        <= length (matching Spec.e2e2_table (Spec.antecedents (snd rule))).
Proof.
  do 2 (split; [reflexivity|]).
  apply (no_gap_iff_full_confidence 0 Spec.e2e2_table Spec.e2e2_state); reflexivity.
Defined.

Lemma discover_rules_ignores_row_order_witness :
  heap Cases.swapped_state !! 0 = Some Spec.e2e4_table /\
  heap Cases.swapped_state !! 2 = Some Cases.e2e4_swapped /\
  Spec.feature_table Spec.e2e4_table = true /\
  pd.columns Spec.e2e4_table = pd.columns Cases.e2e4_swapped /\
  Permutation (map snd (pd.rows Spec.e2e4_table)) (map snd (pd.rows Cases.e2e4_swapped)) /\
  exists rules1 rules2 st1' st2' rv,
    mining.discover_rules 0 Cases.swapped_state = (Ok rules1, st1') /\
    mining.discover_rules 2 Cases.swapped_state = (Ok rules2, st2') /\
    heap st1' !! rules1 = Some rv /\ heap st2' !! rules2 = Some rv.
Proof.
  do 4 (split; [reflexivity|]). split; [apply perm_swap|].
  apply (discover_rules_ignores_row_order 0 2 Spec.e2e4_table Cases.e2e4_swapped
           Cases.swapped_state Cases.swapped_state);
    first [reflexivity | apply perm_swap].
Defined.

Lemma find_exceptions_ignores_row_order_witness :
  heap Cases.swapped_state !! 0 = Some Spec.e2e4_table /\
  heap Cases.swapped_state !! 2 = Some Cases.e2e4_swapped /\
  heap Cases.swapped_state !! 1 = Some Spec.e2e4_rules /\
  Spec.feature_table Spec.e2e4_table = true /\
  Spec.rule_table Spec.e2e4_rules = true /\
  pd.columns Spec.e2e4_table = pd.columns Cases.e2e4_swapped /\
  Permutation (map snd (pd.rows Spec.e2e4_table)) (map snd (pd.rows Cases.e2e4_swapped)) /\
  exists gaps1 gaps2 st1' st2',
    mining.find_exceptions 0 1 Cases.swapped_state = (Ok gaps1, st1') /\
    mining.find_exceptions 2 1 Cases.swapped_state = (Ok gaps2, st2') /\
    Permutation gaps1 gaps2.
Proof.
  do 6 (split; [reflexivity|]). split; [apply perm_swap|].
  apply (find_exceptions_ignores_row_order 0 2 1 1 Spec.e2e4_table Cases.e2e4_swapped
           Spec.e2e4_rules Cases.swapped_state Cases.swapped_state);
    first [reflexivity | apply perm_swap].
Defined.

Lemma mining_ignores_record_order_witness :
  forallb Spec.valid_record Spec.two_records = true /\
  Permutation Spec.two_records (rev Spec.two_records) /\
  exists df1 tm1 sa1 rules1 sb1 gaps1 sc1 df2 tm2 sa2 rules2 sb2 gaps2 sc2 rv,
    mining.extract_features_for_mining Spec.two_records (mkState [] [])
    = (Ok (df1, tm1), sa1) /\
    mining.discover_rules df1 sa1 = (Ok rules1, sb1) /\
    mining.find_exceptions df1 rules1 sb1 = (Ok gaps1, sc1) /\
    mining.extract_features_for_mining (rev Spec.two_records) (mkState [] [])
    = (Ok (df2, tm2), sa2) /\
    mining.discover_rules df2 sa2 = (Ok rules2, sb2) /\
    mining.find_exceptions df2 rules2 sb2 = (Ok gaps2, sc2) /\
    heap sb1 !! rules1 = Some rv /\ heap sb2 !! rules2 = Some rv /\
    Permutation gaps1 gaps2.
Proof.
  split; [reflexivity|]. split; [apply perm_swap|].
  apply (mining_ignores_record_order Spec.two_records (rev Spec.two_records)
           (mkState [] []) (mkState [] []));
    first [reflexivity | apply perm_swap].
Defined.

Lemma failed_call_is_parsed_witness :
  Cases.failing_model 0
    (llm.TEST_SUGGESTION_PROMPT_TEMPLATE (suggestions.pattern_text Cases.a_pattern))
  = llm.Failure "Connection error: host unreachable, retrying, giving up" /\
  fst (suggestions.generate_suggestions Cases.failing_model [Cases.a_pattern]
         (mkState [] []))
  = Ok [suggestions.mkSuggestion (CStr "REQ-3") "The dose shall be limited."
          "Error: Could not get response from LLM. Connection error: host unreachable"
          " retrying" " giving up"].
Proof.
  split; [reflexivity|].
  apply (failed_call_is_parsed Cases.failing_model Cases.a_pattern (mkState [] [])
           "Connection error: host unreachable, retrying, giving up" eq_refl);
    reflexivity.
Defined.

Lemma feature_table_encodes_records_witness :
  forallb Spec.valid_record Cases.three_records = true /\
  exists df text_map st' v,
    mining.extract_features_for_mining Cases.three_records (mkState [] [])
    = (Ok (df, text_map), st') /\
    heap st' !! df = Some v /\
    Spec.feature_table v = true /\
    (forall c, pd.has_column v c = true
               <-> c = "id" \/ exists r, In r Cases.three_records /\ In c (basket r)) /\
    length (pd.iterrows v) = length Cases.three_records /\
    forall i r, Cases.three_records !! i = Some r ->
      exists row,
        pd.iterrows v !! i = Some (i, row) /\
        pd.assoc "id" row = Some (CStr (mining.id r)) /\
        forall c, pd.has_column v c = true -> c <> "id" ->
          pd.assoc c row = Some (CBool (existsb (String.eqb c) (basket r))).
Proof.
  split; [reflexivity|].
  apply (feature_table_encodes_records Cases.three_records (mkState [] [])); reflexivity.
Defined.


Lemma mining_needs_the_id_column_witness :
  heap Cases.anonymous_state !! 0 = Some Cases.anonymous_table /\
  heap Cases.anonymous_state !! 1 = Some Spec.e2e2_rules /\
  Spec.well_formed Cases.anonymous_table = true /\
  pd.has_column Cases.anonymous_table "id" = false /\
  Spec.rule_table Spec.e2e2_rules = true /\
  mining.discover_rules 0 Cases.anonymous_state
  = (Raise (KeyError "['id'] not found in axis"),
     mkState (heap Cases.anonymous_state)
       (console Cases.anonymous_state
        ++ ["Mining: Running Apriori to find frequent itemsets..."])) /\
  fst (mining.find_exceptions 0 1 Cases.anonymous_state) = Raise (KeyError "id").
Proof.
  do 5 (split; [reflexivity|]).
  apply (mining_needs_the_id_column 0 1 Cases.anonymous_table Spec.e2e2_rules
           Cases.anonymous_state); reflexivity.
Defined.

End MoreWitnesses.

(** ** The parsers at concrete inputs *)

Section ParserWitnesses.
Import PyText Formats graph_db.

(** The closing bracket of the text is no end of the identifier, and a
    bracket in the identifier is: the lazy group stops at the first "] ". *)
Example clause_with_brackets :
  re.match_ false parsers.REG_PATTERN "[CLAUSE: A.1] see [annex] B" = Some ["A.1"; "see [annex] B"]
  /\ re.match_ false parsers.REG_PATTERN "[CLAUSE: A] 1] text" = Some ["A"; "1] text"].
Proof. split; reflexivity. Qed.

Lemma reg_pattern_reads_the_shortest_id_witness :
  one_line "[CLAUSE: A] 1] text" = true /\
  (re.match_ false parsers.REG_PATTERN "[CLAUSE: A] 1] text" = Some ["A"; "1] text"]
   <-> "[CLAUSE: A] 1] text"%string = clause_line "A" "1] text" /\
       forall id' text',
         "[CLAUSE: A] 1] text"%string = clause_line id' text' ->
         String.length "A" <= String.length id').
Proof.
  split; [reflexivity|].
  apply (reg_pattern_reads_the_shortest_id "[CLAUSE: A] 1] text" "A" "1] text").
  reflexivity.
Defined.

Lemma parse_regs_reads_clauses_witness :
  forallb clause_ok Cases.two_clauses = true /\
  parsers.parse_regs "processed_set"
    (parsers.Decrypted
       (join_lines
          (map (fun c => clause_line (clause_id c) (clause_text c)) Cases.two_clauses)))
    Cases.empty_world
  = (tt,
     mkWorld
       (sent Cases.empty_world
        ++ map (fun c =>
                  mkQuery "MERGE (r:Regulation {id: $id}) SET r.text = $text"
                    [("id", clause_id c); ("text", clause_text c)])
             Cases.two_clauses)
       (printed Cases.empty_world ++ ["Parsed Regulations from processed_set"])).
Proof.
  split; [reflexivity|].
  apply (parse_regs_reads_clauses "processed_set" Cases.two_clauses Cases.empty_world).
  reflexivity.
Defined.

Lemma parse_reqs_reads_requirements_witness :
  forallb requirement_ok Cases.two_requirements = true /\
  parsers.parse_reqs "processed_set"
    (parsers.Decrypted
       (join_lines
          (map (fun r => requirement_line (requirement_id r) (derives_from r)
                           (requirement_text r)) Cases.two_requirements)))
    Cases.empty_world
  = (tt,
     mkWorld
       (sent Cases.empty_world
        ++ flat_map
             (fun r =>
                [mkQuery "MERGE (r:Requirement {id: $id}) SET r.text = $text"
                   [("id", requirement_id r); ("text", requirement_text r)];
                 mkQuery parsers.derives_from_query
                   [("req_id", requirement_id r); ("reg_id", derives_from r)]])
             Cases.two_requirements)
       (printed Cases.empty_world ++ ["Parsed Requirements from processed_set"])).
Proof.
  split; [reflexivity|].
  apply (parse_reqs_reads_requirements "processed_set" Cases.two_requirements
           Cases.empty_world).
  reflexivity.
Defined.

Lemma parse_commits_links_the_first_tag_witness :
  has_char "["%char "Stop the pump " = false /\
  re.literal true "[IMPLEMENTS: " "[implements: " = Some ""%string /\
  identifier "REQ-1" = true /\
  parsers.message Cases.tagged_commit
  = ("Stop the pump " ++ "[implements: " ++ "REQ-1" ++ "]"
     ++ " and keep the log [IMPLEMENTS: REQ-2]")%string /\
  parsers._parse_commits [Cases.tagged_commit] Cases.empty_world
  = (tt,
     mkWorld
       [mkQuery parsers.commit_query
          [("id", "3f2a9c1");
           ("msg", "Stop the pump [implements: REQ-1] and keep the log [IMPLEMENTS: REQ-2]");
           ("author", "Ada")];
        mkQuery parsers.implements_query [("commit_id", "3f2a9c1"); ("req_id", "REQ-1")]]
       ["Parsed Git Commits."]).
Proof.
  do 4 (split; [reflexivity|]).
  apply (parse_commits_links_the_first_tag "Stop the pump " "[implements: " "REQ-1"
           " and keep the log [IMPLEMENTS: REQ-2]" Cases.tagged_commit Cases.empty_world);
    reflexivity.
Defined.

End ParserWitnesses.

(** ** Lists up to the order of their elements *)

Section Similar.
Import Hash.
Context {A : Type} (R : A -> A -> Prop).

Lemma similar_Forall2 l1 l2 : Forall2 R l1 l2 -> similar R l1 l2.
Proof. intros H. by exists l1. Qed.

Lemma similar_perm l1 l2 l3 : Permutation l1 l2 -> similar R l2 l3 -> similar R l1 l3.
Proof. intros P (m & Pm & F). exists m. split; [by etrans|done]. Qed.

Lemma similar_length l1 l2 : similar R l1 l2 -> length l1 = length l2.
Proof.
  intros (m & P & F). rewrite (Permutation_length P). by eapply Forall2_length.
Qed.

Lemma similar_app l1 l2 m1 m2 :
  similar R l1 l2 -> similar R m1 m2 -> similar R (l1 ++ m1) (l2 ++ m2).
Proof.
  intros (a & Pa & Fa) (b & Pb & Fb). exists (a ++ b).
  split; [by apply Permutation_app|by apply Forall2_app].
Qed.

(** Two blocks may change places. *)
Lemma similar_swap l1 l2 m1 m2 :
  similar R l1 l2 -> similar R m1 m2 -> similar R (l1 ++ m1) (m2 ++ l2).
Proof.
  intros H1 H2. eapply similar_perm; [apply Permutation_app_comm|].
  by apply similar_app.
Qed.

(** A permutation of the second list is one of the first. *)
Lemma similar_perm_r l1 l2 l3 : similar R l1 l2 -> Permutation l2 l3 -> similar R l1 l3.
Proof.
  intros (m & P & F) P'.
  destruct (@Permutation_Forall2 _ _ (flip R) l2 l3 m P') as (m' & Pm & F').
  { by apply Forall2_flip. }
  exists m'. split; [by etrans|by apply Forall2_flip].
Qed.

Lemma similar_trans l1 l2 l3 :
  (forall x y z, R x y -> R y z -> R x z) ->
  similar R l1 l2 -> similar R l2 l3 -> similar R l1 l3.
Proof.
  intros HR (a & Pa & Fa) (b & Pb & Fb).
  destruct (similar_perm_r a l2 b (similar_Forall2 _ _ Fa) Pb) as (a' & Pa' & Fa').
  exists a'. split; [by etrans|].
  clear -HR Fa' Fb. revert l3 Fb.
  induction Fa' as [|x y l l' Hxy _ IH]; intros l3 Fb; inversion Fb; subst; constructor.
  - by eapply HR.
  - by apply IH.
Qed.

Lemma similar_filter (p q : A -> bool) l1 l2 :
  (forall x y, R x y -> p x = q y) ->
  similar R l1 l2 -> similar R (List.filter p l1) (List.filter q l2).
Proof.
  intros Hpq (m & P & F). exists (List.filter p m). split; [apply filter_perm; exact P|].
  clear P. induction F as [|x y l l' Hxy _ IH]; simpl; [constructor|].
  rewrite (Hpq x y Hxy). destruct (q y); [constructor; [exact Hxy|exact IH]|exact IH].
Qed.

End Similar.

Section SimilarMaps.
Import Hash.

Lemma similar_map {A B} (R : A -> A -> Prop) (S : B -> B -> Prop) (f g : A -> B) l1 l2 :
  (forall x y, R x y -> S (f x) (g y)) ->
  similar R l1 l2 -> similar S (map f l1) (map g l2).
Proof.
  intros H (m & P & F). exists (map f m). split; [by apply Permutation_map|].
  clear P. induction F as [|x y l l' Hxy _ IH]; simpl; constructor; [by apply H|exact IH].
Qed.

Lemma concat_perm {A} (l1 l2 : list (list A)) :
  Permutation l1 l2 -> Permutation (concat l1) (concat l2).
Proof.
  induction 1 as [|x l l' _ IH|x y l|l l' l'' _ IH1 _ IH2]; simpl.
  - done.
  - by apply Permutation_app_head.
  - rewrite !app_assoc. apply Permutation_app_tail, Permutation_app_comm.
  - by etrans.
Qed.

Lemma similar_concat {A} (R : A -> A -> Prop) (l1 l2 : list (list A)) :
  similar (Forall2 R) l1 l2 -> similar R (concat l1) (concat l2).
Proof.
  intros (m & P & F). exists (concat m). split; [by apply concat_perm|].
  clear P. induction F as [|x y l l' Hxy _ IH]; simpl; [constructor|by apply Forall2_app].
Qed.

Lemma similar_concat_each {A} (R : A -> A -> Prop) (l1 l2 : list (list A)) :
  Forall2 (similar R) l1 l2 -> similar R (concat l1) (concat l2).
Proof.
  induction 1; simpl; [by exists []|by apply similar_app].
Qed.

Lemma similar_refl {A} (R : A -> A -> Prop) l : (forall x, R x x) -> similar R l l.
Proof.
  intros H. apply similar_Forall2. induction l; constructor; auto.
Qed.

Lemma combinations_0 {A} (l : list A) : mlxtend.combinations 0 l = [[]].
Proof. by destruct l. Qed.

(** [combinations] of a rearranged list: the same combinations, each
    rearranged, in another order. *)
Lemma combinations_perm {A} (l l' : list A) :
  Permutation l l' ->
  forall r, similar Permutation (mlxtend.combinations r l) (mlxtend.combinations r l').
Proof.
  induction 1 as [|x l l' P IH|x y l|l l' l'' _ IH1 _ IH2]; intros r.
  - by apply similar_refl.
  - destruct r as [|r]; simpl; [by apply similar_refl|].
    apply similar_app; [|apply IH].
    apply (similar_map Permutation); [|apply IH]. intros a b Hab. by constructor.
  - destruct r as [|[|r]]; simpl.
    + by apply similar_refl.
    + rewrite !combinations_0. simpl.
      eapply similar_perm; [apply perm_swap|by apply similar_refl].
    + rewrite !map_app, !map_map, <- !app_assoc.
      apply similar_app.
      { apply (similar_map eq); [intros a ? <-; apply perm_swap|by apply similar_refl]. }
      rewrite !app_assoc. apply similar_app; [|by apply similar_refl].
      apply similar_swap; by apply similar_refl.
  - eapply similar_trans; [|apply IH1|apply IH2]. intros a b c. apply perm_trans.
Qed.

End SimilarMaps.

(** ** The miner in two processes *)

Section MinerInTwoProcesses.
Import Py Hash.

Lemma existsb_perm {A} (p : A -> bool) l l' :
  Permutation l l' -> existsb p l = existsb p l'.
Proof.
  induction 1 as [|x l l' _ IH|x y l|l l' l'' _ IH1 _ IH2]; simpl.
  - done.
  - by rewrite IH.
  - by destruct (p x), (p y).
  - by rewrite IH1.
Qed.

Lemma subset_perm a a' b b' :
  Permutation a a' -> Permutation b b' -> subset a b = subset a' b'.
Proof.
  intros Ha Hb. unfold subset. rewrite (forallb_perm _ a a' Ha).
  apply forallb_ext_in. intros x _. by apply existsb_perm.
Qed.

Lemma set_eqb_perm a a' b b' :
  Permutation a a' -> Permutation b b' -> set_eqb a b = set_eqb a' b'.
Proof.
  intros Ha Hb. unfold set_eqb.
  by rewrite (subset_perm a a' b b'), (subset_perm b b' a a').
Qed.

Lemma dict_get_same d d' k k' s :
  same_dict d d' -> Permutation k k' ->
  mlxtend.dict_get d k = Ok s -> mlxtend.dict_get d' k' = Ok s.
Proof.
  intros Hd Hk. induction Hd as [|[k1 v1] [k2 v2] d d' [Hk12 Hv] _ IH]; simpl; [done|].
  simpl in Hk12, Hv. subst v2. rewrite (set_eqb_perm k k' k1 k2 Hk Hk12).
  by destruct (set_eqb k' k2).
Qed.

Lemma dict_set_same d d' k k' v :
  same_dict d d' -> Permutation k k' ->
  same_dict (mlxtend.dict_set d k v) (mlxtend.dict_set d' k' v).
Proof.
  intros Hd Hk. induction Hd as [|[k1 v1] [k2 v2] d d' [Hk12 Hv] Hd IH]; simpl.
  - by repeat constructor.
  - simpl in Hk12, Hv. subst v2. rewrite (set_eqb_perm k k' k1 k2 Hk Hk12).
    destruct (set_eqb k' k2); constructor; done.
Qed.

Lemma dict_fold_same keys keys' (vals : list float) :
  Forall2 Permutation keys keys' -> forall d d',
  same_dict d d' ->
  same_dict
    (fold_left (fun d kv => mlxtend.dict_set d (fst kv) (snd kv)) (combine keys vals) d)
    (fold_left (fun d kv => mlxtend.dict_set d (fst kv) (snd kv)) (combine keys' vals) d').
Proof.
  intros Hk. revert vals.
  induction Hk as [|k k' keys keys' Hkk _ IH]; intros vals d d' Hd; [done|].
  destruct vals as [|v vals]; [done|]. simpl. apply IH. by apply dict_set_same.
Qed.

Lemma difference_perm k k' c c' :
  Permutation k k' -> Permutation c c' ->
  Permutation (mlxtend.difference k c) (mlxtend.difference k' c').
Proof.
  intros Hk Hc. unfold mlxtend.difference.
  rewrite (filter_ext _ (fun x => negb (existsb (String.eqb x) c'))).
  - by apply filter_perm.
  - intros x. by rewrite (existsb_perm _ c c').
Qed.

(** [rmap] over related lists. *)
Lemma rmap_from {A B} (f : A -> result B) l ys :
  Forall2 (fun x y => f x = Ok y) l ys -> rmap f l = Ok ys.
Proof.
  induction 1 as [|x y l ys Hxy _ IH]; simpl; [done|]. by rewrite Hxy, IH.
Qed.

Lemma rmap_Forall2 {A A' B B'} (R : A -> A' -> Prop) (S : B -> B' -> Prop)
  (f : A -> result B) (f' : A' -> result B') l l' :
  (forall x x' y, R x x' -> f x = Ok y -> exists y', f' x' = Ok y' /\ S y y') ->
  Forall2 R l l' -> forall ys,
  rmap f l = Ok ys -> exists ys', rmap f' l' = Ok ys' /\ Forall2 S ys ys'.
Proof.
  intros H. induction 1 as [|x x' l l' Hx _ IH]; intros ys; simpl.
  - intros [= <-]. by exists [].
  - destruct (f x) as [y|] eqn:Ey; [|done]. simpl.
    destruct (rmap f l) as [ys0|] eqn:El; [|done]. simpl. intros [= <-].
    destruct (H x x' y Hx Ey) as (y' & -> & Hy).
    destruct (IH ys0 eq_refl) as (ys' & -> & Hys). simpl.
    exists (y' :: ys'). split; [done|by constructor].
Qed.

Lemma rmap_similar {A B} (R : A -> A -> Prop) (S : B -> B -> Prop)
  (f f' : A -> result B) l l' ys :
  (forall x x' y, R x x' -> f x = Ok y -> exists y', f' x' = Ok y' /\ S y y') ->
  similar R l l' -> rmap f l = Ok ys ->
  exists ys', rmap f' l' = Ok ys' /\ similar S ys ys'.
Proof.
  intros H (m & P & F) E. apply rmap_inv in E.
  destruct (Permutation_Forall2 P E) as (zs & Pz & Fz). apply rmap_from in Fz.
  destruct (rmap_Forall2 R S f f' m l' H F zs Fz) as (ys' & E' & Hys).
  exists ys'. split; [done|]. by exists zs.
Qed.

Lemma split_rule_same d d' t k k' s c c' rs :
  same_dict d d' -> Permutation k k' -> Permutation c c' ->
  mlxtend.split_rule d t k s c = Ok rs ->
  exists rs', mlxtend.split_rule d' t k' s c' = Ok rs' /\ Forall2 same_rule rs rs'.
Proof.
  intros Hd Hk Hc. unfold mlxtend.split_rule.
  destruct (mlxtend.dict_get d c) as [sA|] eqn:EA; [|done].
  rewrite (dict_get_same d d' c c' sA Hd Hc EA). simpl.
  destruct (mlxtend.dict_get d (mlxtend.difference k c)) as [sC|] eqn:EC; [|done].
  rewrite (dict_get_same d d' _ (mlxtend.difference k' c') sC Hd
             (difference_perm k k' c c' Hk Hc) EC). simpl.
  intros [= <-]. eexists. split; [done|].
  destruct (fge (fdiv s sA) t); repeat constructor; simpl; try done.
  by apply difference_perm.
Qed.

Lemma rules_of_itemset_same d d' t k k' s rs :
  same_dict d d' -> Permutation k k' ->
  mlxtend.rules_of_itemset d t k s = Ok rs ->
  exists rs', mlxtend.rules_of_itemset d' t k' s = Ok rs' /\ similar same_rule rs rs'.
Proof.
  intros Hd Hk. unfold mlxtend.rules_of_itemset.
  rewrite <- (Permutation_length Hk).
  destruct (rmap _ (rev (seq 1 (length k - 1)))) as [rss|] eqn:E; [|done].
  simpl. intros [= <-].
  destruct (rmap_Forall2 eq (similar (Forall2 same_rule))
              (fun idx => rmap (mlxtend.split_rule d t k s) (mlxtend.combinations idx k))
              (fun idx => rmap (mlxtend.split_rule d' t k' s) (mlxtend.combinations idx k'))
              (rev (seq 1 (length k - 1))) (rev (seq 1 (length k - 1))))
    with (ys := rss) as (rss' & -> & H); [| |done|].
  - intros idx ? ys <- Hys.
    eapply (rmap_similar Permutation); [|by apply combinations_perm|exact Hys].
    intros c c' y Hc. by apply split_rule_same.
  - clear. induction (rev _); by constructor.
  - simpl. eexists. split; [done|]. by apply similar_concat, similar_concat_each.
Qed.

Lemma mine_same d d' t rs :
  same_dict d d' -> mlxtend.mine d t = Ok rs ->
  exists rs', mlxtend.mine d' t = Ok rs' /\ similar same_rule rs rs'.
Proof.
  intros Hd. unfold mlxtend.mine.
  destruct (rmap _ d) as [rss|] eqn:E; [|done]. simpl. intros [= <-].
  destruct (rmap_Forall2
              (fun e1 e2 => Permutation (fst e1) (fst e2) /\ snd e1 = snd e2)
              (similar same_rule)
              (fun kv => mlxtend.rules_of_itemset d t (fst kv) (snd kv))
              (fun kv => mlxtend.rules_of_itemset d' t (fst kv) (snd kv)) d d')
    with (ys := rss) as (rss' & -> & H); [|done|done|].
  - intros [k1 v1] [k2 v2] ys [Hk Hv]. simpl in *. subst v2.
    by apply rules_of_itemset_same.
  - simpl. eexists. split; [done|]. by apply similar_concat_each.
Qed.

End MinerInTwoProcesses.

(** ** The frames of the miner in a process *)

Section ProcessFrames.
Import Py Hash Mined.

Lemma frame_in_of_rows o cols data :
  frame_in o (pd.of_rows cols data) = pd.of_rows cols (map (map (cell_in o)) data).
Proof.
  unfold frame_in, pd.of_rows. simpl. f_equal. rewrite length_map.
  generalize 0. induction data as [|x data IH]; intros a; simpl; [done|]. by rewrite IH.
Qed.

Lemma frame_in_itemsets o F :
  frame_in o (pd.of_rows ["support"; "itemsets"] (map mlxtend.itemset_cells F))
  = pd.of_rows ["support"; "itemsets"] (map mlxtend.itemset_cells (map (itemset_in o) F)).
Proof. by rewrite frame_in_of_rows, !map_map. Qed.

Lemma frame_in_rules o rs :
  frame_in o (pd.of_rows mlxtend.rule_columns (map mlxtend.rule_cells rs))
  = pd.of_rows mlxtend.rule_columns (map mlxtend.rule_cells (map (rule_in o) rs)).
Proof. by rewrite frame_in_of_rows, !map_map. Qed.

Lemma empty_of_rows cols (data : list (list cell)) :
  cols <> [] -> pd.empty (pd.of_rows cols data) = match data with [] => true | _ => false end.
Proof.
  intros H. unfold pd.empty, pd.of_rows. simpl.
  destruct cols; [done|]. simpl. by destruct data.
Qed.

(** [association_rules] on a frame of item sets: the rules mined from
    the dict of the supports. *)
Lemma association_rules_of_rows (F : list (float * list string)) t :
  F <> [] ->
  mlxtend.association_rules_frame
    (pd.of_rows ["support"; "itemsets"] (map mlxtend.itemset_cells F)) t
  = rbind
      (mlxtend.mine
         (fold_left (fun d kv => mlxtend.dict_set d (fst kv) (snd kv))
            (combine (map snd F) (map fst F)) []) t)
      (fun rs => Ok (pd.of_rows mlxtend.rule_columns (map mlxtend.rule_cells rs))).
Proof.
  intros HF. unfold mlxtend.association_rules_frame, pd.of_rows.
  simpl pd.rows. rewrite length_combine, length_seq, !length_map, Nat.min_id.
  destruct (Nat.eqb (length F) 0) eqn:E0.
  { apply Nat.eqb_eq in E0. by destruct F. }
  change (negb (pd.has_column _ "support" && pd.has_column _ "itemsets")) with false.
  cbv iota.
  rewrite (getitem_rows _ _ 1 mlxtend.itemset_cells (fun p => CSet (snd p))) by done.
  simpl rbind. rewrite (rmap_map_ok _ _ snd) by done. simpl rbind.
  rewrite (getitem_rows _ _ 0 mlxtend.itemset_cells (fun p => CFloat (fst p))) by done.
  simpl rbind. rewrite (rmap_map_ok _ _ fst) by done. simpl rbind.
  destruct (mlxtend.mine _ t); simpl; [|done]. by rewrite !length_map.
Qed.

Lemma same_rule_in o1 o2 r1 r2 :
  rearranges o1 -> rearranges o2 ->
  same_rule r1 r2 -> same_rule (rule_in o1 r1) (rule_in o2 r2).
Proof.
  intros H1 H2 (Ha & Hc & ? & ? & ? & ?). unfold same_rule, rule_in. simpl.
  repeat split; try done.
  - rewrite (H1 _), Ha. symmetry. apply H2.
  - rewrite (H1 _), Hc. symmetry. apply H2.
Qed.

(** What a run of [discover_rules] computes on a feature table, in the
    process of the order [o]: the rules mined from the dict of that
    process, in their order there. *)
Lemma mined_of v o :
  Spec.feature_table v = true ->
  exists X,
    mlxtend.values (flag_frame v) = Ok X /\
    let F := mlxtend.frequent (flag_columns v) X (Fin (1 # 100)) in
    let d := fold_left (fun d kv => mlxtend.dict_set d (fst kv) (snd kv))
               (combine (map o (map snd F)) (map fst F)) [] in
    match F with
    | [] => Hash.mined o v = Ok pd.new
    | _ =>
        forall rs, mlxtend.mine d (Fin (1 # 2)) = Ok rs ->
                   Hash.mined o v = Ok (testing_frame (map (rule_in o) rs))
    end.
Proof.
  intros Hv. destruct (feature_table_well_formed v Hv) as [Hwf Hid].
  destruct (values_drop v Hv) as (X & EX & LX). exists X. split; [exact EX|].
  cbv zeta. unfold Hash.mined.
  assert (pd.drop v ["id"] = Ok (flag_frame v)) as -> by exact (drop_id v Hid).
  simpl rbind. rewrite (apriori_frame_flags v X EX). simpl rbind.
  rewrite frame_in_itemsets, empty_of_rows by done.
  destruct (mlxtend.frequent (flag_columns v) X (Fin (1 # 100))) as [|p F] eqn:EF;
    [done|].
  intros rs Emine.
  change (map mlxtend.itemset_cells (map (itemset_in o) (p :: F)))
    with (mlxtend.itemset_cells (itemset_in o p)
          :: map mlxtend.itemset_cells (map (itemset_in o) F)).
  cbv iota.
  change (mlxtend.itemset_cells (itemset_in o p)
          :: map mlxtend.itemset_cells (map (itemset_in o) F))
    with (map mlxtend.itemset_cells (map (itemset_in o) (p :: F))).
  rewrite association_rules_of_rows by done.
  assert (map snd (map (itemset_in o) (p :: F)) = map o (map snd (p :: F))) as ->
    by (by rewrite !map_map).
  assert (map fst (map (itemset_in o) (p :: F)) = map fst (p :: F)) as ->
    by (by rewrite !map_map).
  rewrite Emine. simpl rbind.
  rewrite frame_in_rules, empty_of_rows by done.
  destruct (map (rule_in o) rs) as [|r rs'] eqn:Ers; [done|].
  change (map mlxtend.rule_cells (r :: rs'))
    with (mlxtend.rule_cells r :: map mlxtend.rule_cells rs').
  cbv iota.
  change (mlxtend.rule_cells r :: map mlxtend.rule_cells rs')
    with (map mlxtend.rule_cells (r :: rs')).
  rewrite about_testing_rules. simpl rbind.
  unfold testing_frame, pd.empty. simpl pd.rows.
  by destruct (testing_rows (r :: rs')).
Qed.

End ProcessFrames.

(** ** The rule sets of two processes *)

Section TwoRuleSets.
Import Py Hash Mined.

(** The elements that a filter keeps pass it. *)
Lemma similar_filter_kept {A} (R : A -> A -> Prop) (p q : A -> bool) l1 l2 :
  (forall x y, R x y -> p x = q y) ->
  similar R l1 l2 ->
  similar (fun x y => R x y /\ p x = true) (List.filter p l1) (List.filter q l2).
Proof.
  intros Hpq (m & P & F). exists (List.filter p m). split; [by apply filter_perm|].
  clear P. induction F as [|x y l l' Hxy _ IH]; simpl; [constructor|].
  rewrite <- (Hpq x y Hxy). destruct (p x) eqn:E; [by constructor|exact IH].
Qed.

(** The rows of the frame of the rules that predict HAS_TEST, without
    their index labels. *)
Lemma testing_rows_cells rs :
  map snd (testing_rows rs)
  = map (fun r => mlxtend.rule_cells r ++ [CStr (rendered r)])
      (List.filter (fun r => String.eqb (rendered r) Pure.target) rs).
Proof.
  unfold testing_rows, labelled. generalize 0.
  induction rs as [|r rs IH]; intros a; simpl; [done|].
  destruct (String.eqb (rendered r) Pure.target); simpl; by rewrite IH.
Qed.

Lemma rendered_same r1 r2 :
  same_rule r1 r2 ->
  String.eqb (rendered r1) Pure.target = String.eqb (rendered r2) Pure.target.
Proof.
  intros (_ & Hc & _). unfold rendered. apply eq_true_iff_eq.
  rewrite !String.eqb_eq. split; intros H; apply str_frozenset_target in H.
  - rewrite H in Hc. by apply Permutation_length_1_inv in Hc as ->.
  - rewrite H in Hc. symmetry in Hc. by apply Permutation_length_1_inv in Hc as ->.
Qed.

Lemma testing_frame_same rs1 rs2 :
  similar same_rule rs1 rs2 -> same_rules (testing_frame rs1) (testing_frame rs2).
Proof.
  intros H.
  assert (similar (Forall2 same_cell) (map snd (testing_rows rs1))
            (map snd (testing_rows rs2))) as Hrows.
  { rewrite !testing_rows_cells.
    eapply similar_map; [|by apply (similar_filter_kept same_rule), H; apply rendered_same].
    intros r1 r2 [Hr Hp]. cbv beta in Hp.
    pose proof (rendered_same r1 r2 Hr) as Hq. rewrite Hp in Hq. symmetry in Hq.
    apply String.eqb_eq in Hp, Hq. rewrite Hp, Hq.
    destruct Hr as (Ha & Hc & E1 & E2 & E3 & E4).
    unfold mlxtend.rule_cells. rewrite E1, E2, E3, E4. by repeat constructor. }
  pose proof (similar_length _ _ _ Hrows) as Hlen. rewrite !length_map in Hlen.
  unfold testing_frame.
  destruct (testing_rows rs1) as [|x1 l1] eqn:E1, (testing_rows rs2) as [|x2 l2] eqn:E2;
    try done.
Qed.

Lemma perm_each (o1 o2 : order) (keys : list (list string)) :
  rearranges o1 -> rearranges o2 -> Forall2 Permutation (map o1 keys) (map o2 keys).
Proof.
  intros H1 H2. induction keys as [|k keys IH]; simpl; constructor; [|done].
  rewrite (H1 k). symmetry. apply H2.
Qed.

(** Two processes mine the same rules from a feature table. *)
Lemma mined_twice v o1 o2 :
  rearranges o1 -> rearranges o2 -> Spec.feature_table v = true ->
  exists rs1 rs2,
    Hash.mined o1 v = Ok (testing_frame rs1) /\
    Hash.mined o2 v = Ok (testing_frame rs2) /\
    similar same_rule rs1 rs2.
Proof.
  intros H1 H2 Hv.
  destruct (mined_of v o1 Hv) as (X & EX & M1).
  destruct (mined_of v o2 Hv) as (X' & EX' & M2).
  rewrite EX in EX'. injection EX' as <-. cbv zeta in M1, M2.
  destruct (mlxtend.frequent (flag_columns v) X (Fin (1 # 100))) as [|p F] eqn:EF.
  { exists [], []. split; [exact M1|]. split; [exact M2|]. exists []. split; constructor. }
  set (keys := map snd (p :: F)) in *. set (vals := map fst (p :: F)) in *.
  destruct (dict_of_frequent (flag_columns v) X (1 # 100)) as [Hg Hc].
  rewrite EF in Hg, Hc. fold keys vals in Hg, Hc.
  destruct (mine_accepted (flag_columns v) X (1 # 100) (1 # 2) eq_refl
              (flag_columns_NoDup v (proj1 (feature_table_well_formed v Hv))) _ Hg Hc)
    as (rs & Emine & _).
  assert (forall o, rearranges o -> Forall2 Permutation keys (map o keys)) as H0.
  { intros o Ho. rewrite <- (map_id keys) at 1.
    apply (perm_each (fun l => l) o); [by intros l|done]. }
  set (dict_of := fun ks : list (list string) =>
                    fold_left (fun d kv => mlxtend.dict_set d (fst kv) (snd kv))
                      (combine ks vals) []) in *.
  assert (same_dict (dict_of keys) (dict_of (map o1 keys))) as D1
    by (apply dict_fold_same; [by apply H0|constructor]).
  assert (same_dict (dict_of (map o1 keys)) (dict_of (map o2 keys))) as D2
    by (apply dict_fold_same; [by apply perm_each|constructor]).
  destruct (mine_same _ _ _ rs D1 Emine) as (rs1 & E1 & _).
  destruct (mine_same _ _ _ rs1 D2 E1) as (rs2 & E2 & Hsim).
  exists (map (rule_in o1) rs1), (map (rule_in o2) rs2).
  split; [by apply M1|]. split; [by apply M2|].
  eapply similar_map; [|exact Hsim]. intros r1 r2. by apply same_rule_in.
Qed.

End TwoRuleSets.

(** ** Runs in a process *)

Section ProcessRuns.
Import Py Run Sem Hash.

Ltac extends :=
  eapply grows_intro; simpl; rewrite <- ?app_assoc;
  first [reflexivity | symmetry; apply app_nil_r].

Lemma discover_rules_in_run o df v st :
  heap st !! df = Some v ->
  answers (Hash.discover_rules o df) st (Hash.mined o v).
Proof.
  intros Hdf. destruct st as [h out]. simpl in Hdf.
  pose proof (eq_refl (Hash.discover_rules o df (mkState h out))) as E.
  unfold Hash.discover_rules at 2 in E. unfold Hash.mined.
  erewrite bind_ok in E; [|reflexivity]. simpl heap in E; simpl console in E.
  unfold DF.drop at 1 in E. rewrite bind_assoc in E.
  erewrite (bind_ok (load df)) in E; [|by apply load_run].
  rewrite bind_assoc in E.
  destruct (pd.drop v ["id"]) as [dm|e]; simpl rbind;
    [|eapply answers_raise; [exact E|extends]].
  erewrite (bind_ok (lift _)) in E; [|reflexivity].
  erewrite (bind_ok (alloc _)) in E; [|reflexivity]. simpl heap in E; simpl console in E.
  unfold Hash.apriori at 1 in E. rewrite bind_assoc in E.
  erewrite (bind_ok (load _)) in E; [|apply load_run, lookup_alloc].
  rewrite bind_assoc in E.
  destruct (mlxtend.apriori_frame dm (Fin (1 # 100))) as [fi|e]; simpl rbind;
    [|eapply answers_raise; [exact E|extends]].
  erewrite (bind_ok (lift _)) in E; [|reflexivity].
  erewrite (bind_ok (alloc _)) in E; [|reflexivity]. simpl heap in E; simpl console in E.
  erewrite (bind_ok (DF.empty _)) in E; [|apply empty_run, lookup_alloc].
  destruct (pd.empty (frame_in o fi)).
  { eapply answers_ok; [exact E|extends|apply lookup_alloc]. }
  erewrite bind_ok in E; [|reflexivity]. simpl heap in E; simpl console in E.
  unfold Hash.association_rules at 1 in E. rewrite bind_assoc in E.
  erewrite (bind_ok (load _)) in E; [|apply load_run, lookup_alloc].
  rewrite bind_assoc in E.
  destruct (mlxtend.association_rules_frame (frame_in o fi) (Fin (1 # 2))) as [rules0|e];
    simpl rbind; [|eapply answers_raise; [exact E|extends]].
  erewrite (bind_ok (lift _)) in E; [|reflexivity].
  erewrite (bind_ok (alloc _)) in E; [|reflexivity]. simpl heap in E; simpl console in E.
  erewrite (bind_ok (DF.empty _)) in E; [|apply empty_run, lookup_alloc].
  set (rules := frame_in o rules0) in *.
  destruct (pd.empty rules).
  { eapply answers_ok; [exact E|extends|apply lookup_alloc]. }
  unfold Pure.about_testing. rewrite !rbind_assoc.
  destruct (pd.getitem rules "consequents") as [cs|e] eqn:Hcs; simpl rbind.
  2:{ erewrite bind_raise in E; [|by erewrite getitem_run; [rewrite Hcs|apply lookup_alloc]].
      eapply answers_raise; [exact E|extends]. }
  erewrite bind_ok in E; [|by erewrite getitem_run; [rewrite Hcs|apply lookup_alloc]].
  rewrite !rbind_assoc.
  destruct (pd.astype_str cs) as [cs_str|e]; simpl rbind;
    [|eapply answers_raise; [exact E|extends]].
  erewrite (bind_ok (lift _)) in E; [|reflexivity]. rewrite !rbind_assoc.
  destruct (pd.setitem rules "consequents_str" cs_str) as [rules'|e] eqn:Hset; simpl rbind.
  2:{ erewrite bind_raise in E; [|by erewrite setitem_run; [rewrite Hset|apply lookup_alloc]].
      eapply answers_raise; [exact E|extends]. }
  erewrite bind_ok in E; [|by erewrite setitem_run; [rewrite Hset|apply lookup_alloc]].
  simpl heap in E; simpl console in E.
  rewrite insert_alloc in E. rewrite !rbind_assoc.
  destruct (pd.getitem rules' "consequents_str") as [col|e] eqn:Hcol; simpl rbind.
  2:{ erewrite bind_raise in E; [|by erewrite getitem_run; [rewrite Hcol|apply lookup_alloc]].
      eapply answers_raise; [exact E|extends]. }
  erewrite bind_ok in E; [|by erewrite getitem_run; [rewrite Hcol|apply lookup_alloc]].
  erewrite (bind_ok (DF.getitem_mask _ _)) in E; [|apply getitem_mask_run, lookup_alloc].
  simpl heap in E; simpl console in E.
  erewrite (bind_ok (DF.empty _)) in E; [|apply empty_run, lookup_alloc].
  destruct (pd.empty _).
  { eapply answers_ok; [exact E|extends|apply lookup_alloc]. }
  erewrite (bind_ok (DF.len _)) in E; [|apply len_run, lookup_alloc].
  erewrite bind_ok in E; [|reflexivity].
  eapply answers_ok; [exact E|extends|apply lookup_alloc].
Qed.

End ProcessRuns.

(** ** The gap records of two processes *)

Section TwoGapLists.
Import Py Run Sem Hash.

(** A rule as the process of the order [o] holds it. *)
Lemma iterrows_in o rv :
  pd.iterrows (frame_in o rv)
  = map (fun r => (fst r, map (fun cx => (fst cx, cell_in o (snd cx))) (snd r)))
      (pd.iterrows rv).
Proof.
  unfold pd.iterrows, frame_in. simpl. rewrite !map_map. apply map_ext.
  intros [i cells]. simpl. f_equal. generalize (pd.columns rv).
  induction cells as [|x cells IH]; intros [|c cols]; simpl; try done. by rewrite IH.
Qed.

Lemma assoc_in o k (s : pd.Series) :
  pd.assoc k (map (fun cx => (fst cx, cell_in o (snd cx))) s)
  = option_map (cell_in o) (pd.assoc k s).
Proof.
  induction s as [|[c x] s IH]; simpl; [done|]. by destruct (String.eqb k c).
Qed.

Lemma antecedents_in o s :
  rearranges o ->
  Permutation (Spec.antecedents (map (fun cx => (fst cx, cell_in o (snd cx))) s))
    (Spec.antecedents s).
Proof.
  intros Ho. unfold Spec.antecedents. rewrite assoc_in.
  destruct (pd.assoc "antecedents" s) as [[]|]; simpl; first [done|apply Ho].
Qed.

Lemma consequents_in o s :
  rearranges o ->
  Permutation (Spec.consequents (map (fun cx => (fst cx, cell_in o (snd cx))) s))
    (Spec.consequents s).
Proof.
  intros Ho. unfold Spec.consequents. rewrite assoc_in.
  destruct (pd.assoc "consequents" s) as [[]|]; simpl; first [done|apply Ho].
Qed.

Lemma is_rule_in o s :
  Spec.is_rule (map (fun cx => (fst cx, cell_in o (snd cx))) s) = Spec.is_rule s.
Proof.
  unfold Spec.is_rule. rewrite !assoc_in.
  destruct (pd.assoc "antecedents" s) as [[]|]; simpl; try done.
  destruct (pd.assoc "consequents" s) as [[]|]; simpl; try done.
  by destruct (pd.assoc "confidence" s).
Qed.

Lemma rule_table_in o rv : Spec.rule_table (frame_in o rv) = Spec.rule_table rv.
Proof.
  unfold Spec.rule_table. rewrite iterrows_in.
  induction (pd.iterrows rv) as [|r rs IH]; simpl; [done|]. by rewrite is_rule_in, IH.
Qed.

Lemma violates_on_in o v s row :
  rearranges o ->
  Spec.violates_on v (map (fun cx => (fst cx, cell_in o (snd cx))) s) row
  = Spec.violates_on v s row.
Proof.
  intros Ho. unfold Spec.violates_on, Spec.agrees.
  by rewrite (forallb_perm _ _ _ (antecedents_in o s Ho)),
    (forallb_perm _ _ _ (consequents_in o s Ho)).
Qed.

Lemma cell_of_in o k s :
  Spec.cell_of k (map (fun cx => (fst cx, cell_in o (snd cx))) s)
  = cell_in o (Spec.cell_of k s).
Proof.
  unfold Spec.cell_of. rewrite assoc_in. by destruct (pd.assoc k s).
Qed.

Lemma same_cell_in o1 o2 x :
  rearranges o1 -> rearranges o2 -> same_cell (cell_in o1 x) (cell_in o2 x).
Proof.
  intros H1 H2. destruct x; simpl; first [done|rewrite (H1 _); symmetry; apply H2].
Qed.

(** The gap records of one rule in two processes. *)
Lemma rule_records_in o1 o2 v s :
  rearranges o1 -> rearranges o2 ->
  Forall2 same_gap
    (rule_records v (map (fun cx => (fst cx, cell_in o1 (snd cx))) s))
    (rule_records v (map (fun cx => (fst cx, cell_in o2 (snd cx))) s)).
Proof.
  intros H1 H2. unfold rule_records.
  rewrite (filter_ext _ (fun row => Spec.violates_on v s (snd row)))
    by (intros row; by apply violates_on_in).
  rewrite (filter_ext (fun row => Spec.violates_on v (map _ s) (snd row))
             (fun row => Spec.violates_on v s (snd row)))
    by (intros row; by apply violates_on_in).
  induction (List.filter _ (pd.iterrows v)) as [|row rows IH]; simpl; constructor; [|done].
  unfold same_gap, Spec.gap_record. simpl. split; [done|]. rewrite !cell_of_in.
  split; [by apply same_cell_in|].
  eexists _, _, _, _. split; [done|]. split; [done|]. split.
  - rewrite (antecedents_in o1 s H1). symmetry. by apply antecedents_in.
  - rewrite (consequents_in o1 s H1). symmetry. by apply consequents_in.
Qed.

Lemma gaps_in o1 o2 v rv :
  rearranges o1 -> rearranges o2 ->
  Forall2 same_gap
    (flat_map (fun rule => rule_records v (snd rule)) (pd.iterrows (frame_in o1 rv)))
    (flat_map (fun rule => rule_records v (snd rule)) (pd.iterrows (frame_in o2 rv))).
Proof.
  intros H1 H2. rewrite !iterrows_in.
  induction (pd.iterrows rv) as [|r rs IH]; simpl; [constructor|].
  apply Forall2_app; [by apply rule_records_in|done].
Qed.

(** Two orders that list every frozenset alike are one process. *)
Lemma frame_in_ext o1 o2 v : (forall l, o1 l = o2 l) -> frame_in o1 v = frame_in o2 v.
Proof.
  intros H. unfold frame_in. f_equal. apply map_ext. intros [i cells]. simpl. f_equal.
  apply map_ext. intros []; simpl; try done. by rewrite H.
Qed.

Lemma mined_ext o1 o2 v : (forall l, o1 l = o2 l) -> Hash.mined o1 v = Hash.mined o2 v.
Proof.
  intros H. unfold Hash.mined.
  destruct (pd.drop v ["id"]) as [dm|]; simpl; [|done].
  destruct (mlxtend.apriori_frame dm (Fin (1 # 100))) as [fi|]; simpl; [|done].
  rewrite (frame_in_ext o1 o2 fi H).
  destruct (pd.empty (frame_in o2 fi)); [done|].
  destruct (mlxtend.association_rules_frame _ _) as [rules|]; simpl; [|done].
  by rewrite (frame_in_ext o1 o2 rules H).
Qed.

(** In the order in which the items are written, the process is the
    one of the embedding of [mining.py]. *)
Lemma frame_in_as_listed v : frame_in as_listed v = v.
Proof.
  destruct v as [cols rows]. unfold frame_in. simpl. f_equal.
  induction rows as [|[i cells] rows IH]; simpl; [done|]. rewrite IH. f_equal. f_equal.
  induction cells as [|x cells IHc]; simpl; [done|]. rewrite IHc. by destruct x.
Qed.

Lemma mined_as_listed v : Hash.mined as_listed v = Pure.discover_rules v.
Proof.
  unfold Hash.mined, Pure.discover_rules.
  destruct (pd.drop v ["id"]) as [dm|]; simpl; [|done].
  destruct (mlxtend.apriori_frame dm (Fin (1 # 100))) as [fi|]; simpl; [|done].
  rewrite frame_in_as_listed. destruct (pd.empty fi); [done|].
  destruct (mlxtend.association_rules_frame _ _) as [rules|]; simpl; [|done].
  by rewrite frame_in_as_listed.
Qed.

Lemma bind_ext {A B} (c c' : M A) (k k' : A -> M B) st :
  c st = c' st -> (forall a st', k a st' = k' a st') -> bind c k st = bind c' k' st.
Proof.
  intros Hc H. unfold bind. rewrite Hc. destruct (c' st) as [[a|e] st']; [apply H|done].
Qed.

(** So [discover_rules] of that process is the [discover_rules] of the
    embedding. *)
Lemma discover_rules_as_listed df st :
  Hash.discover_rules as_listed df st = mining.discover_rules df st.
Proof.
  assert (forall fi ms st', Hash.apriori as_listed fi ms st' = mlxtend.apriori fi ms st')
    as Hap.
  { intros fi ms st'. unfold Hash.apriori, mlxtend.apriori.
    apply bind_ext; [done|]. intros v st3. apply bind_ext; [done|]. intros r st4.
    by rewrite frame_in_as_listed. }
  assert (forall fi mt st',
            Hash.association_rules as_listed fi mt st' = mlxtend.association_rules fi mt st')
    as Har.
  { intros fi mt st'. unfold Hash.association_rules, mlxtend.association_rules.
    apply bind_ext; [done|]. intros v st3. apply bind_ext; [done|]. intros r st4.
    by rewrite frame_in_as_listed. }
  unfold Hash.discover_rules, mining.discover_rules.
  apply bind_ext; [done|]. intros _ st1. apply bind_ext; [done|]. intros df_mining st2.
  apply bind_ext; [apply Hap|]. intros fi st3.
  apply bind_ext; [done|]. intros [] st4; [done|].
  apply bind_ext; [done|]. intros _ st5. by apply bind_ext; [apply Har|].
Qed.

(** C8, as amended. The mining repeats itself up to the order in which
    a frozenset lists its items. For two processes, each with its order,
    and a feature table: the two runs of [discover_rules] return, with
    the same rule set, that is the same rules up to the order of the
    rows, their index labels and the order of the items in a frozenset,
    and with frames of the same contents when the two orders are one;
    the two runs of [find_exceptions] on the table and a rule set return
    lists of gap records that agree one by one in the identifier and in
    the confidence, and in the text of the rule up to the order in which
    the items are listed; the two lists are the same list, so the same
    multiset, when the two processes list the items of the rule set
    alike. *)
Theorem mining_repeats_up_to_item_order o1 o2 df1 df2 v st1 st2 :
  rearranges o1 -> rearranges o2 ->
  heap st1 !! df1 = Some v -> heap st2 !! df2 = Some v ->
  Spec.feature_table v = true ->
  (exists rules1 rules2 st1' st2' rv1 rv2,
     Hash.discover_rules o1 df1 st1 = (Ok rules1, st1') /\
     Hash.discover_rules o2 df2 st2 = (Ok rules2, st2') /\
     heap st1' !! rules1 = Some rv1 /\ heap st2' !! rules2 = Some rv2 /\
     same_rules rv1 rv2 /\
     ((forall l, o1 l = o2 l) -> rv1 = rv2)) /\
  (forall rules1 rules2 rv,
     Spec.rule_table rv = true ->
     heap st1 !! rules1 = Some (frame_in o1 rv) ->
     heap st2 !! rules2 = Some (frame_in o2 rv) ->
     exists gaps1 gaps2 st1' st2',
       mining.find_exceptions df1 rules1 st1 = (Ok gaps1, st1') /\
       mining.find_exceptions df2 rules2 st2 = (Ok gaps2, st2') /\
       Forall2 same_gap gaps1 gaps2 /\
       (frame_in o1 rv = frame_in o2 rv -> gaps1 = gaps2)).
Proof.
  intros H1 H2 Hdf1 Hdf2 Hv. split.
  - destruct (mined_twice v o1 o2 H1 H2 Hv) as (rs1 & rs2 & E1 & E2 & Hsim).
    destruct (discover_rules_in_run o1 df1 v st1 Hdf1) as (st1' & _ & R1).
    destruct (discover_rules_in_run o2 df2 v st2 Hdf2) as (st2' & _ & R2).
    pose proof (mined_ext o1 o2 v) as Hext.
    rewrite E1 in R1, Hext. rewrite E2 in R2, Hext.
    destruct R1 as (rules1 & R1 & L1), R2 as (rules2 & R2 & L2).
    exists rules1, rules2, st1', st2', (testing_frame rs1), (testing_frame rs2).
    repeat split; try done; [by apply testing_frame_same|by apply testing_frame_same|].
    intros H. specialize (Hext H). by injection Hext.
  - intros rules1 rules2 rv Hrt Hr1 Hr2.
    destruct (find_exceptions_returns df1 rules1 v (frame_in o1 rv) st1 Hdf1 Hr1 Hv)
      as (st1' & E1); [by rewrite rule_table_in|].
    destruct (find_exceptions_returns df2 rules2 v (frame_in o2 rv) st2 Hdf2 Hr2 Hv)
      as (st2' & E2); [by rewrite rule_table_in|].
    eexists _, _, st1', st2'. split; [exact E1|]. split; [exact E2|].
    split; [by apply gaps_in|]. by intros ->.
Qed.

End TwoGapLists.

(** ** Two processes at a concrete table *)

Section TwoProcessesWitnesses.
Import Py Run Sem Hash TwoProcesses.

Lemma rearranges_as_listed : rearranges as_listed.
Proof. intros l. reflexivity. Qed.

Lemma insert_descending_perm x l : Permutation (insert_descending x l) (x :: l).
Proof.
  induction l as [|y l IH]; simpl; [done|].
  destruct (String.compare x y); try done. rewrite IH. apply perm_swap.
Qed.

Lemma rearranges_descending : rearranges descending.
Proof.
  intros l. unfold descending. induction l as [|x l IH]; simpl; [done|].
  by rewrite insert_descending_perm, IH.
Qed.

(** The rule set of the two records is the one [discover_rules]
    returns for them; in the process of the descending order the rows
    have other index labels. *)
Example pair_rules_discovered :
  fst (bind (mining.discover_rules 0) load (mkState [pair_table] [])) = Ok pair_rules /\
  fst (bind (Hash.discover_rules as_listed 0) load (mkState [pair_table] []))
  = Ok pair_rules /\
  fst (bind (Hash.discover_rules descending 0) load (mkState [pair_table] []))
  = Ok (pd.mkDataFrame (mlxtend.rule_columns ++ ["consequents_str"])
          [pair_rule 3 ["HAS_CODE"]; pair_rule 7 ["HAS_RISK"];
           pair_rule 12 ["HAS_RISK"; "HAS_CODE"]]).
Proof. vm_compute. by repeat split. Qed.

(** C8 fails as it is stated. On one table and one rule set, which
    [discover_rules] returns for that table, the runs of
    [find_exceptions] in two processes return two multisets of gap
    records: where the frozenset of HAS_CODE and HAS_RISK lists HAS_CODE
    first, the record of REQ-2 reads IF ['HAS_CODE', 'HAS_RISK']; where
    it lists HAS_RISK first, it reads IF ['HAS_RISK', 'HAS_CODE']. The
    two processes hold the same rule set: the frames have the same
    labels, and each cell of the one equals, by Python's [==], the cell
    of the other. *)
Lemma two_processes_two_multisets :
  rearranges as_listed /\ rearranges descending /\
  Spec.feature_table pair_table = true /\ Spec.rule_set pair_rules = true /\
  fst (bind (mining.discover_rules 0) load (mkState [pair_table] [])) = Ok pair_rules /\
  heap (process as_listed) !! 0 = Some pair_table /\
  heap (process descending) !! 0 = Some pair_table /\
  heap (process as_listed) !! 1 = Some (frame_in as_listed pair_rules) /\
  heap (process descending) !! 1 = Some (frame_in descending pair_rules) /\
  Forall2
    (fun r1 r2 =>
       fst r1 = fst r2 /\ Forall2 (fun x y => py_eq x y = true) (snd r1) (snd r2))
    (pd.rows (frame_in as_listed pair_rules))
    (pd.rows (frame_in descending pair_rules)) /\
  fst (mining.find_exceptions 0 1 (process as_listed))
  = Ok [pair_gap ["HAS_CODE"]; pair_gap ["HAS_RISK"]; pair_gap ["HAS_CODE"; "HAS_RISK"]] /\
  fst (mining.find_exceptions 0 1 (process descending))
  = Ok [pair_gap ["HAS_CODE"]; pair_gap ["HAS_RISK"]; pair_gap ["HAS_RISK"; "HAS_CODE"]] /\
  ~ Permutation
      [pair_gap ["HAS_CODE"]; pair_gap ["HAS_RISK"]; pair_gap ["HAS_CODE"; "HAS_RISK"]]
      [pair_gap ["HAS_CODE"]; pair_gap ["HAS_RISK"]; pair_gap ["HAS_RISK"; "HAS_CODE"]].
Proof.
  split; [apply rearranges_as_listed|]. split; [apply rearranges_descending|].
  do 2 (split; [reflexivity|]). split; [vm_compute; reflexivity|].
  do 4 (split; [reflexivity|]).
  split; [repeat (constructor; try reflexivity)|].
  split; [vm_compute; reflexivity|]. split; [vm_compute; reflexivity|].
  intros P. apply (Permutation_in (pair_gap ["HAS_CODE"; "HAS_RISK"])) in P.
  - destruct P as [E|[E|[E|[]]]]; discriminate E.
  - right. right. by left.
Qed.

Lemma mining_repeats_up_to_item_order_witness :
  rearranges as_listed /\ rearranges descending /\
  heap (process as_listed) !! 0 = Some pair_table /\
  heap (process descending) !! 0 = Some pair_table /\
  Spec.feature_table pair_table = true /\
  (exists rules1 rules2 st1' st2' rv1 rv2,
     Hash.discover_rules as_listed 0 (process as_listed) = (Ok rules1, st1') /\
     Hash.discover_rules descending 0 (process descending) = (Ok rules2, st2') /\
     heap st1' !! rules1 = Some rv1 /\ heap st2' !! rules2 = Some rv2 /\
     same_rules rv1 rv2 /\
     ((forall l, as_listed l = descending l) -> rv1 = rv2)) /\
  (forall rules1 rules2 rv,
     Spec.rule_table rv = true ->
     heap (process as_listed) !! rules1 = Some (frame_in as_listed rv) ->
     heap (process descending) !! rules2 = Some (frame_in descending rv) ->
     exists gaps1 gaps2 st1' st2',
       mining.find_exceptions 0 rules1 (process as_listed) = (Ok gaps1, st1') /\
       mining.find_exceptions 0 rules2 (process descending) = (Ok gaps2, st2') /\
       Forall2 same_gap gaps1 gaps2 /\
       (frame_in as_listed rv = frame_in descending rv -> gaps1 = gaps2)).
Proof.
  split; [apply rearranges_as_listed|]. split; [apply rearranges_descending|].
  do 3 (split; [reflexivity|]).
  apply (mining_repeats_up_to_item_order as_listed descending 0 0 pair_table
           (process as_listed) (process descending));
    first [reflexivity | apply rearranges_as_listed | apply rearranges_descending].
Defined.

End TwoProcessesWitnesses.
